(** * KiTS19 slice index: a shallow embedding of [dataset/kits19.py]

    The development follows the Python source method by method.  Python
    integers are [Z]; lists are Rocq lists read through Python's indexing
    rules (negative indices count from the end, anything else out of range
    raises [IndexError]); dictionaries are [gmap]s whose missing keys raise
    [KeyError].  Construction code runs in an exception monad; the access
    methods ([get_stack_img], [__getitem__]) run in a state-and-exception
    monad over the dataset object and a log of the accesses they perform. *)

From Stdlib Require Import ZArith Lia.
From stdpp Require Import base option list list_numbers gmap strings pretty sorting.

Open Scope Z_scope.

(** ** Python values and primitives *)

Module Py.

Inductive exn :=
| IndexError | KeyError | AssertionError | ValueError | TypeError | OSError.

Inductive outcome (A : Type) :=
| Ret (a : A)
| Raise (e : exn).
Arguments Ret {A} a.
Arguments Raise {A} e.

#[global] Instance outcome_ret : MRet outcome := @Ret.
#[global] Instance outcome_bind : MBind outcome := fun A B f m =>
  match m with
  | Ret a => f a
  | Raise e => Raise e
  end.

#[global] Instance exn_eq_dec : EqDecision exn.
Proof. solve_decision. Defined.

(** [assert b] *)
Definition assert (b : bool) : outcome unit :=
  if b then Ret tt else Raise AssertionError.

(** [len(l)] *)
Definition len {A} (l : list A) : Z := Z.of_nat (length l).

(** [l[i]]: a negative index counts from the end. *)
Definition getitem {A} (l : list A) (i : Z) : outcome A :=
  let j := if i <? 0 then i + len l else i in
  if j <? 0 then Raise IndexError
  else match l !! Z.to_nat j with
       | Some x => Ret x
       | None => Raise IndexError
       end.

(** Normalisation of one bound of a slice [l[a:b]] for a list of length [n]. *)
Definition slice_bound (n i : Z) : Z :=
  if i <? 0 then Z.max 0 (i + n) else Z.min i n.

(** [l[a:b]] *)
Definition slice {A} (l : list A) (a b : Z) : list A :=
  let a' := slice_bound (len l) a in
  let b' := slice_bound (len l) b in
  take (Z.to_nat (b' - a')) (drop (Z.to_nat a') l).

(** [range(a, b)] *)
Definition range (a b : Z) : list Z := seqZ a (b - a).

(** [x in l] *)
Definition contains `{EqDecision A} (x : A) (l : list A) : bool :=
  bool_decide (x ∈ l).

(** [l.index(x)]: position of the first occurrence, [ValueError] if none. *)
Fixpoint index `{EqDecision A} (l : list A) (x : A) : outcome Z :=
  match l with
  | [] => Raise ValueError
  | y :: l' => if decide (y = x) then Ret 0
               else i ← index l' x; Ret (i + 1)
  end.

(** [d[k]] on a dictionary *)
Definition lookup_key `{Countable K} {V} (d : gmap K V) (k : K) : outcome V :=
  match d !! k with
  | Some v => Ret v
  | None => Raise KeyError
  end.

(** [s.zfill(w)] for a string of digits *)
Definition zfill (w : nat) (s : string) : string :=
  String.app (String.concat "" (replicate (w - String.length s) "0"%string)) s.

(** [f'{z:05d}']: sign-aware zero padding to width five. *)
Definition format_05d (z : Z) : string :=
  if z <? 0 then String.app "-" (zfill 4 (pretty (- z)))
  else zfill 5 (pretty z).

End Py.
Import Py.

(** A [for] loop that threads an accumulator and may raise. *)
Fixpoint for_fold {A B} (f : A → B → outcome A) (acc : A) (l : list B) : outcome A :=
  match l with
  | [] => Ret acc
  | x :: l' => acc' ← f acc x; for_fold f acc' l'
  end.

(** ** Data model *)

(** A path relative to the dataset root, as its sequence of parts. *)
Abbreviation path := (list string).

(** A numeric array: its shape and its elements in row-major order.  Only
    label arrays are inspected element by element. *)
Record ndarray := { shape : list Z; elems : list Z }.

(** The innermost dictionary of the ROI file, [{"min_z": .., "max_z": ..}]. *)
Abbreviation roi_record := (gmap string Z).
(** The ROI file: case key -> organ -> record. *)
Abbreviation roi_table := (gmap string (gmap string roi_record)).

(** What the slots of a sample dictionary can hold. *)
Inductive value :=
| VNone
| VInt (z : Z)
| VArray (a : ndarray)
| VRoi (r : roi_record).

Abbreviation sample := (gmap string value).

(** The part of the file system the constructor looks at: which directories
    exist, and the [*.npy] entries of a directory in the order the operating
    system lists them. *)
Record filesystem := {
  fs_exists : path → bool;
  fs_npy_entries : path → list string;
}.

(** [list(dir.glob('*.npy'))] *)
Definition glob_npy (fs : filesystem) (dir : path) : list path :=
  (λ name, dir ++ [name]) <$> fs_npy_entries fs dir.

(** Paths compare part by part, each part as a string. *)
Fixpoint path_compare (p q : path) : comparison :=
  match p, q with
  | [], [] => Eq
  | [], _ :: _ => Lt
  | _ :: _, [] => Gt
  | a :: p', b :: q' =>
      match String.compare a b with
      | Eq => path_compare p' q'
      | c => c
      end
  end.

Definition path_le (p q : path) : Prop := path_compare p q ≠ Gt.

#[global] Instance path_le_dec : RelDecision path_le.
Proof. intros p q. unfold path_le. apply _. Defined.

(** [sorted(paths)] *)
Definition sorted (ps : list path) : list path := merge_sort path_le ps.

(** [f'case_{case:05d}'] *)
Definition case_key (case : Z) : string := String.app "case_" (format_05d case).

(** The dataset object.  The three [Subset] views of [_split_subset] hold
    the parent and an index list; they are represented by their index lists. *)
Record KiTS19 := {
  _stack_num : Z;
  _spec_classes : list Z;
  _img_size : Z * Z;
  _rois : option roi_table;
  _roi_error_range : Z;
  _train_transform : option (sample → outcome sample);
  _valid_transform : option (sample → outcome sample);
  _test_transform : option (sample → outcome sample);
  _imgs : list path;
  _labels : list path;
  _indices : list Z;
  _train_indices : list Z;
  _valid_indices : list Z;
  _test_indices : list Z;
  _train_case_slice_num : list Z;
  _valid_case_slice_num : list Z;
  _test_case_slice_num : list Z;
  _case_slice_indices : list Z;
  _train_dataset : list Z;
  _valid_dataset : list Z;
  _test_dataset : list Z;
  _num_classes : Z;
  _img_channels : Z;
}.

(** ** Construction *)

(** The ROI-trimmed bounds of lines 98-103 for a case with [n] image files. *)
Definition roi_bounds (rois : option roi_table) (roi_error_range : Z)
    (case : Z) (n : Z) : outcome (Z * Z) :=
  let min_z := 0 in
  let max_z := n in
  match rois with
  | None => Ret (min_z, max_z)
  | Some table =>
      entry ← lookup_key table (case_key case);
      roi ← lookup_key entry "kidney"%string;
      lo ← lookup_key roi "min_z"%string;
      let min_z := Z.max min_z (lo - roi_error_range) in
      hi ← lookup_key roi "max_z"%string;
      let max_z := Z.min max_z (hi + roi_error_range) in
      Ret (min_z, max_z)
  end.

(** One iteration of the loop of [_read_npy] (lines 92-116). *)
Definition _read_npy_case (rois : option roi_table) (roi_error_range : Z)
    (fs : filesystem) (is_test : bool)
    (acc : list path * list path * list Z) (case : Z)
  : outcome (list path * list path * list Z) :=
  let '(imgs, labels, case_slice_num) := acc in
  let case_root := [case_key case] in
  let imaging_dir := case_root ++ ["imaging"%string] in
  _ ← assert (fs_exists fs imaging_dir);
  let case_imgs := sorted (glob_npy fs imaging_dir) in
  '(min_z, max_z) ← roi_bounds rois roi_error_range case (len case_imgs);
  let case_imgs := slice case_imgs min_z max_z in
  let imgs := imgs ++ case_imgs in
  labels ← (if negb is_test then
              let segmentation_dir := case_root ++ ["segmentation"%string] in
              _ ← assert (fs_exists fs segmentation_dir);
              let case_labels := sorted (glob_npy fs segmentation_dir) in
              let case_labels := slice case_labels min_z max_z in
              let labels := labels ++ case_labels in
              _ ← assert (bool_decide (len imgs = len labels));
              Ret labels
            else Ret labels);
  Ret (imgs, labels, case_slice_num ++ [len case_imgs]).

Definition _read_npy (rois : option roi_table) (roi_error_range : Z)
    (fs : filesystem) (cases : list Z) (is_test : bool)
  : outcome (list path * list path * list Z) :=
  for_fold (_read_npy_case rois roi_error_range fs is_test) ([], [], []) cases.

(** Lines 81-85: the running sum of the per-case slice counts. *)
Definition case_slice_indices_of (nums : list Z) : list Z :=
  fst (fold_left (λ '(acc, idx) num, let idx := idx + num in (acc ++ [idx], idx))
                 nums ([0], 0)).

(** [_get_data], given the case ids read from the three subset files. *)
Definition _get_data (self : KiTS19) (fs : filesystem)
    (train_case valid_case test_case : list Z) : outcome KiTS19 :=
  let rois := _rois self in
  let e := _roi_error_range self in
  '(train_imgs, train_labels, train_case_slice_num) ← _read_npy rois e fs train_case false;
  '(valid_imgs, valid_labels, valid_case_slice_num) ← _read_npy rois e fs valid_case false;
  '(test_imgs, test_labels, test_case_slice_num) ← _read_npy rois e fs test_case true;
  let imgs := (train_imgs ++ valid_imgs) ++ test_imgs in
  let labels := (train_labels ++ valid_labels) ++ test_labels in
  let indices := range 0 (len imgs) in
  Ret {|
    _stack_num := _stack_num self;
    _spec_classes := _spec_classes self;
    _img_size := _img_size self;
    _rois := _rois self;
    _roi_error_range := _roi_error_range self;
    _train_transform := _train_transform self;
    _valid_transform := _valid_transform self;
    _test_transform := _test_transform self;
    _imgs := imgs;
    _labels := labels;
    _indices := indices;
    _train_indices := slice indices 0 (len train_imgs);
    _valid_indices := slice indices (len train_imgs) (len train_imgs + len valid_imgs);
    _test_indices := slice indices (len train_imgs + len valid_imgs)
                       (len train_imgs + len valid_imgs + len test_imgs);
    _train_case_slice_num := train_case_slice_num;
    _valid_case_slice_num := valid_case_slice_num;
    _test_case_slice_num := test_case_slice_num;
    _case_slice_indices :=
      case_slice_indices_of
        ((train_case_slice_num ++ valid_case_slice_num) ++ test_case_slice_num);
    _train_dataset := _train_dataset self;
    _valid_dataset := _valid_dataset self;
    _test_dataset := _test_dataset self;
    _num_classes := _num_classes self;
    _img_channels := _img_channels self;
  |}.

(** [_split_subset]: the three views over the index lists. *)
Definition _split_subset (self : KiTS19) : KiTS19 :=
  {|
    _stack_num := _stack_num self;
    _spec_classes := _spec_classes self;
    _img_size := _img_size self;
    _rois := _rois self;
    _roi_error_range := _roi_error_range self;
    _train_transform := _train_transform self;
    _valid_transform := _valid_transform self;
    _test_transform := _test_transform self;
    _imgs := _imgs self;
    _labels := _labels self;
    _indices := _indices self;
    _train_indices := _train_indices self;
    _valid_indices := _valid_indices self;
    _test_indices := _test_indices self;
    _train_case_slice_num := _train_case_slice_num self;
    _valid_case_slice_num := _valid_case_slice_num self;
    _test_case_slice_num := _test_case_slice_num self;
    _case_slice_indices := _case_slice_indices self;
    _train_dataset := _train_indices self;
    _valid_dataset := _valid_indices self;
    _test_dataset := _test_indices self;
    _num_classes := _num_classes self;
    _img_channels := _img_channels self;
  |}.

(** ** Class metadata and label remapping *)

Definition classes_name : list string :=
  ["background"; "kidney"; "tumor"]%string.

(** The loop "append [i] unless already present" of lines 131-134 and
    208-211. *)
Definition distinct_in_order `{EqDecision A} (l : list A) : list A :=
  fold_left (λ acc i, if contains i acc then acc else acc ++ [i]) l [].

(** [get_classes_name]; [classes_name[self._spec_classes]] indexes the name
    array with every entry of [_spec_classes]. *)
Definition get_classes_name (spec_classes : list Z) (spec : bool)
  : outcome (list string) :=
  if negb spec then Ret classes_name
  else
    picked ← mapM (getitem classes_name) spec_classes;
    Ret (distinct_in_order picked).

(** [np.where(label == i)]: the positions holding [i]. *)
Definition np_where_eq (label : list Z) (i : Z) : list nat :=
  (λ p, p.1) <$> filter (λ p, p.2 = i) (imap (λ k x, (k, x)) label).

(** [label[mask] = v] *)
Definition assign_mask (label : list Z) (mask : list nat) (v : Z) : list Z :=
  fold_left (λ acc k, <[k := v]> acc) mask label.

(** Lines 205-214 on the elements of the label array. *)
Definition remap_label (spec_classes : list Z) (label : list Z) : outcome (list Z) :=
  if bool_decide (spec_classes ≠ [0; 1; 2]) then
    names ← get_classes_name spec_classes false;
    let idx := range 0 (len names) in
    let masks := np_where_eq label <$> idx in
    let spec_class_idx := distinct_in_order spec_classes in
    for_fold (λ label '(mask, spec_class),
                v ← index spec_class_idx spec_class;
                Ret (assign_mask label mask v))
             label (zip masks spec_classes)
  else Ret label.

(** ** The access methods *)

(** Accesses a read performs, in order: the evaluation of [self._imgs[i]],
    of [self._labels[i]], and each call of [np.load]. *)
Inductive event :=
| ImgRef (i : Z)
| LabelRef (i : Z)
| NpLoad (p : path).

#[global] Instance event_eq_dec : EqDecision event.
Proof. solve_decision. Defined.

Record state := { obj : KiTS19; log : list event }.

(** Methods may read and write the object and raise; the state survives an
    exception. *)
Definition M (A : Type) : Type := state → outcome A * state.

#[global] Instance M_ret : MRet M := λ A a s, (Ret a, s).
#[global] Instance M_bind : MBind M := λ A B f m s,
  match m s with
  | (Ret a, s') => f a s'
  | (Raise e, s') => (Raise e, s')
  end.

(** [self.f] *)
Definition field {A} (f : KiTS19 → A) : M A := λ s, (Ret (f (obj s)), s).
(** An assignment to a field of [self] replaces the object. *)
Definition set_self (o : KiTS19) : M unit := λ s, (Ret tt, {| obj := o; log := log s |}).
Definition emit (e : event) : M unit :=
  λ s, (Ret tt, {| obj := obj s; log := log s ++ [e] |}).
Definition lift {A} (o : outcome A) : M A := λ s, (o, s).

(** The loop of [img_idx_to_case_idx] over the remaining values [js] of
    [i]: the [break] at [i] returns [i], running off the end returns the
    [case_idx] the loop started with. *)
Fixpoint case_loop (csi : list Z) (idx : Z) (js : list Z) (case_idx : Z) : outcome Z :=
  match js with
  | [] => Ret case_idx
  | i :: js' =>
      a ← getitem csi i;
      if a <=? idx then
        b ← getitem csi (i + 1);
        if idx <? b then Ret i else case_loop csi idx js' case_idx
      else case_loop csi idx js' case_idx
  end.

Definition img_idx_to_case_idx (idx : Z) : M Z :=
  csi ← field _case_slice_indices;
  lift (case_loop csi idx (range 0 (len csi - 1)) 0).

(** [data[k]] for a slot that must hold an array. *)
Definition array_at (data : sample) (k : string) : outcome ndarray :=
  v ← lookup_key data k;
  match v with
  | VArray a => Ret a
  | _ => Raise TypeError
  end.

Section Access.

(** The numeric collaborators: the array loader, [np.stack(.., axis=2)],
    the image conversion of lines 197-199, [to_numpy] of
    [dataset.transform], and the pad-and-resize pipeline of [_resize]
    called with [num], the target size, the image and the mask. *)
Variable np_load : path → outcome ndarray.
Variable np_stack_axis2 : list ndarray → outcome ndarray.
Variable image_to_tensor : ndarray → outcome ndarray.
Variable to_numpy : sample → outcome sample.
Variable pad_resize : Z → Z * Z → value → value → outcome sample.

(** One iteration of the loop of lines 251-258. *)
Definition stack_slice (case_idx : Z) (i : Z) : M ndarray :=
  csi ← field _case_slice_indices;
  lo ← lift (getitem csi case_idx);
  i ← (if i <? lo then
         csi ← field _case_slice_indices;
         lift (getitem csi case_idx)
       else
         csi ← field _case_slice_indices;
         hi ← lift (getitem csi (case_idx + 1));
         if hi <=? i then
           csi ← field _case_slice_indices;
           hi ← lift (getitem csi (case_idx + 1));
           mret (hi - 1)
         else mret i);
  imgs ← field _imgs;
  _ ← emit (ImgRef i);
  img_path ← lift (getitem imgs i);
  _ ← emit (NpLoad img_path);
  lift (np_load img_path).

Definition get_stack_img (idx : Z) : M sample :=
  case_idx ← img_idx_to_case_idx idx;
  stack_num ← field _stack_num;
  imgs ← mapM (stack_slice case_idx)
              (range (idx - stack_num `div` 2) (idx + stack_num `div` 2 + 1));
  img ← lift (np_stack_axis2 imgs);
  test_indices ← field _test_indices;
  label ← (if contains idx test_indices then mret VNone
           else
             labels ← field _labels;
             _ ← emit (LabelRef idx);
             label_path ← lift (getitem labels idx);
             _ ← emit (NpLoad label_path);
             a ← lift (np_load label_path);
             mret (VArray a));
  rois ← field _rois;
  roi ← match rois with
        | None => mret VNone
        | Some table =>
            entry ← lift (lookup_key table (case_key case_idx));
            r ← lift (lookup_key entry "kidney"%string);
            mret (VRoi r)
        end;
  mret (<["image"%string := VArray img]>
        (<["label"%string := label]>
         (<["index"%string := VInt idx]>
          (<["roi"%string := roi]> (∅ : sample))))).

Definition _resize (data : sample) : M sample :=
  data ← lift (to_numpy data);
  img ← lift (lookup_key data "image"%string);
  label ← lift (lookup_key data "label"%string);
  a ← lift (array_at data "image"%string);
  h ← lift (getitem (shape a) 0);
  w ← lift (getitem (shape a) 1);
  let num := Z.max h w in
  img_size ← field _img_size;
  data ← lift (pad_resize num img_size img label);
  img ← lift (lookup_key data "image"%string);
  label ← lift (lookup_key data "mask"%string);
  let data := <["image"%string := img]> data in
  let data := <["label"%string := label]> data in
  mret data.

Definition _default_transform (data : sample) : M sample :=
  a ← lift (array_at data "image"%string);
  h ← lift (getitem (shape a) 0);
  w ← lift (getitem (shape a) 1);
  img_size ← field _img_size;
  data ← (if bool_decide ((h, w) ≠ img_size) then _resize data else mret data);
  image ← lift (array_at data "image"%string);
  label ← lift (lookup_key data "label"%string);
  image ← lift (image_to_tensor image);
  let data := <["image"%string := VArray image]> data in
  match label with
  | VNone => mret data
  | VArray l =>
      spec_classes ← field _spec_classes;
      px ← lift (remap_label spec_classes (elems l));
      mret (<["label"%string := VArray {| shape := shape l; elems := px |}]> data)
  | _ => lift (Raise TypeError)
  end.

Definition __getitem__ (idx : Z) : M sample :=
  data ← get_stack_img idx;
  train_indices ← field _train_indices;
  train_transform ← field _train_transform;
  valid_indices ← field _valid_indices;
  valid_transform ← field _valid_transform;
  test_indices ← field _test_indices;
  test_transform ← field _test_transform;
  data ← (match contains idx train_indices, train_transform with
          | true, Some t => lift (t data)
          | _, _ =>
            match contains idx valid_indices, valid_transform with
            | true, Some t => lift (t data)
            | _, _ =>
              match contains idx test_indices, test_transform with
              | true, Some t => lift (t data)
              | _, _ => mret data
              end
            end
          end);
  _default_transform data.

(** [__len__] *)
Definition __len__ : M Z := imgs ← field _imgs; mret (len imgs).

End Access.

(** [__init__], given the parsed ROI file (when [roi_file] is not [None])
    and the case ids of the three subset files.  [get_classes_name] with
    [spec=False] does not read [_spec_classes], which is not yet set at
    line 27. *)
Definition __init__
    (np_load : path → outcome ndarray)
    (np_stack_axis2 : list ndarray → outcome ndarray)
    (image_to_tensor : ndarray → outcome ndarray)
    (to_numpy : sample → outcome sample)
    (pad_resize : Z → Z * Z → value → value → outcome sample)
    (fs : filesystem) (stack_num : Z) (spec_classes : option (list Z))
    (img_size : Z * Z) (rois : option roi_table) (roi_error_range : Z)
    (train_transform valid_transform test_transform : option (sample → outcome sample))
    (train_case valid_case test_case : list Z) : outcome KiTS19 :=
  spec ← match spec_classes with
         | None => Ret [0; 1; 2]
         | Some sc =>
             names ← get_classes_name [] false;
             _ ← assert (bool_decide (len names = len sc));
             Ret sc
         end;
  let self :=
    {| _stack_num := stack_num; _spec_classes := spec; _img_size := img_size;
       _rois := rois; _roi_error_range := roi_error_range;
       _train_transform := train_transform;
       _valid_transform := valid_transform;
       _test_transform := test_transform;
       _imgs := []; _labels := []; _indices := [];
       _train_indices := []; _valid_indices := []; _test_indices := [];
       _train_case_slice_num := []; _valid_case_slice_num := [];
       _test_case_slice_num := []; _case_slice_indices := [];
       _train_dataset := []; _valid_dataset := []; _test_dataset := [];
       _num_classes := 0; _img_channels := 0 |} in
  self ← _get_data self fs train_case valid_case test_case;
  let self := _split_subset self in
  names ← get_classes_name (_spec_classes self) true;
  let num_classes := len names in
  let '(r, s) := __getitem__ np_load np_stack_axis2 image_to_tensor to_numpy pad_resize 0
                   {| obj := self; log := [] |} in
  data ← r;
  image ← array_at data "image"%string;
  channels ← getitem (shape image) 0;
  let self := obj s in
  Ret {|
    _stack_num := _stack_num self;
    _spec_classes := _spec_classes self;
    _img_size := _img_size self;
    _rois := _rois self;
    _roi_error_range := _roi_error_range self;
    _train_transform := _train_transform self;
    _valid_transform := _valid_transform self;
    _test_transform := _test_transform self;
    _imgs := _imgs self;
    _labels := _labels self;
    _indices := _indices self;
    _train_indices := _train_indices self;
    _valid_indices := _valid_indices self;
    _test_indices := _test_indices self;
    _train_case_slice_num := _train_case_slice_num self;
    _valid_case_slice_num := _valid_case_slice_num self;
    _test_case_slice_num := _test_case_slice_num self;
    _case_slice_indices := _case_slice_indices self;
    _train_dataset := _train_dataset self;
    _valid_dataset := _valid_dataset self;
    _test_dataset := _test_dataset self;
    _num_classes := num_classes;
    _img_channels := channels;
  |}.

(** ** A concrete dataset: two cases of ten and six slices *)

Definition npy_names (n : nat) : list string :=
  (λ k, String.app (zfill 5 (pretty (Z.of_nat k))) ".npy") <$> seq 0 n.

(** Cases 1 and 2 on disk, with imaging and segmentation directories; the
    directory listings come back in reverse order. *)
Definition demo_fs : filesystem := {|
  fs_exists := λ p,
    bool_decide (p ∈ [ ["case_00001"; "imaging"]; ["case_00001"; "segmentation"];
                       ["case_00002"; "imaging"]; ["case_00002"; "segmentation"] ]%string);
  fs_npy_entries := λ p,
    if bool_decide (p !! 0%nat = Some "case_00001"%string)
    then reverse (npy_names 10)
    else if bool_decide (p !! 0%nat = Some "case_00002"%string)
         then reverse (npy_names 6)
         else [];
|}.

(** ** Specification vocabulary *)

Definition sum_Z (nums : list Z) : Z := foldr Z.add 0 nums.

Definition in_dir (d : string) (p : path) : Prop := p !! 1%nat = Some d.

(** The accumulator invariant of the loop of [_read_npy]. *)
Definition read_inv (is_test : bool) (acc : list path * list path * list Z) : Prop :=
  let '(imgs, labels, nums) := acc in
  len imgs = sum_Z nums ∧
  Forall (λ n, 0 ≤ n) nums ∧
  Forall (in_dir "imaging") imgs ∧
  Forall (in_dir "segmentation") labels ∧
  (if is_test then labels = [] else len labels = len imgs).

Definition all_nums (self : KiTS19) : list Z :=
  (_train_case_slice_num self ++ _valid_case_slice_num self) ++ _test_case_slice_num self.

(** The metadata invariant of a constructed dataset. *)
Record built (self : KiTS19) : Prop := {
  built_nonneg : Forall (λ n, 0 ≤ n) (all_nums self);
  built_csi : _case_slice_indices self = case_slice_indices_of (all_nums self);
  built_total : sum_Z (all_nums self) = len (_imgs self);
  built_indices : _indices self = range 0 (len (_imgs self));
  built_train : _train_indices self = seqZ 0 (sum_Z (_train_case_slice_num self));
  built_valid :
    _valid_indices self =
      seqZ (sum_Z (_train_case_slice_num self)) (sum_Z (_valid_case_slice_num self));
  built_test :
    _test_indices self =
      seqZ (sum_Z (_train_case_slice_num self) + sum_Z (_valid_case_slice_num self))
           (sum_Z (_test_case_slice_num self));
  built_labels :
    len (_labels self) =
      sum_Z (_train_case_slice_num self) + sum_Z (_valid_case_slice_num self);
  built_imgs_dir : Forall (in_dir "imaging") (_imgs self);
  built_labels_dir : Forall (in_dir "segmentation") (_labels self);
}.

(** The lower boundary of case [c] in a boundary table built from [nums]. *)
Definition boundary (nums : list Z) (c : Z) : Z := sum_Z (take (Z.to_nat c) nums).

(** The window index actually used for position [i] (lines 252-255). *)
Definition clamp (lo hi i : Z) : Z :=
  if i <? lo then lo else if hi <=? i then hi - 1 else i.

Definition is_Ret {A} (r : outcome A) : Prop := ∃ a, r = Ret a.

(** What one iteration of the window loop appends to the log. *)
Definition slice_events (self : KiTS19) (lo hi i : Z) : list event :=
  [ImgRef (clamp lo hi i);
   NpLoad (_imgs self !!! Z.to_nat (clamp lo hi i))].

Definition window_events (self : KiTS19) (lo hi : Z) (js : list Z) : list event :=
  concat (slice_events self lo hi <$> js).

(** The window of [get_stack_img] for center [idx]. *)
Definition window (self : KiTS19) (idx : Z) : list Z :=
  range (idx - _stack_num self `div` 2) (idx + _stack_num self `div` 2 + 1).

(** The dictionary of line 268. *)
Definition sample_of (img : ndarray) (label : value) (idx : Z) (roi : value) : sample :=
  <["image"%string := VArray img]>
    (<["label"%string := label]>
       (<["index"%string := VInt idx]>
          (<["roi"%string := roi]> (∅ : sample)))).

(** The log entries of lines 264-265. *)
Definition label_events (self : KiTS19) (idx : Z) : list event :=
  [LabelRef idx; NpLoad (_labels self !!! Z.to_nat idx)].

(** A computation is a reader when it never writes the object and what it
    returns and logs depends on the object only. *)
Definition reader {A} (m : M A) : Prop :=
  ∀ s, m s = ((m {| obj := obj s; log := [] |}).1,
              {| obj := obj s;
                 log := log s ++ log (m {| obj := obj s; log := [] |}).2 |}).

(** The indices at which a log records a read of [self._imgs]. *)
Definition img_refs (evs : list event) : list Z :=
  omap (λ e, match e with ImgRef j => Some j | _ => None end) evs.

#[global] Instance in_dir_dec (d : string) (p : path) : Decision (in_dir d p).
Proof. unfold in_dir. apply _. Defined.

(** Log entries that touch a label: a read of [self._labels], or a load of
    a file of a segmentation directory. *)
Definition is_label_event (e : event) : bool :=
  match e with
  | LabelRef _ => true
  | NpLoad p => bool_decide (in_dir "segmentation" p)
  | ImgRef _ => false
  end.

(** One step of the loop behind [distinct_in_order]. *)
Definition keep `{EqDecision A} (acc : list A) (i : A) : list A :=
  if contains i acc then acc else acc ++ [i].

(** Stand-ins for the numeric collaborators on the concrete dataset: every
    slice file holds a two-by-two array, stacking and the tensor conversion
    only track shapes and keep the elements in order, and nothing has to be
    resized. *)
Definition demo_np_load (p : path) : outcome ndarray :=
  Ret {| shape := [2; 2]; elems := [0; 1; 2; 1] |}.

Definition demo_np_stack (imgs : list ndarray) : outcome ndarray :=
  match imgs with
  | [] => Raise ValueError
  | a :: _ => Ret {| shape := shape a ++ [len imgs]; elems := imgs ≫= elems |}
  end.

Definition demo_image_to_tensor (a : ndarray) : outcome ndarray :=
  match shape a with
  | [h; w; c] => Ret {| shape := [c; h; w]; elems := elems a |}
  | _ => Raise ValueError
  end.

Definition demo_to_numpy (data : sample) : outcome sample := Ret data.

Definition demo_pad_resize (num : Z) (size : Z * Z) (img mask : value) : outcome sample :=
  Ret (<["image"%string := img]> (<["mask"%string := mask]> (∅ : sample))).

(** [KiTS19(root, stack_num=3, img_size=(2, 2))] over [demo_fs] with
    [train.txt] holding case 1, [val.txt] case 2 and an empty [test.txt]. *)
Definition demo_init : outcome KiTS19 :=
  __init__ demo_np_load demo_np_stack demo_image_to_tensor demo_to_numpy demo_pad_resize
           demo_fs 3 None (2, 2) None 0 None None None [1] [2] [].

Definition demo : KiTS19 :=
  {| _stack_num := 3; _spec_classes := [0; 1; 2]; _img_size := (2, 2);
     _rois := None; _roi_error_range := 0;
     _train_transform := None; _valid_transform := None; _test_transform := None;
     _imgs := ((λ n, ["case_00001"; "imaging"; n]) <$> npy_names 10)
              ++ ((λ n, ["case_00002"; "imaging"; n]) <$> npy_names 6);
     _labels := ((λ n, ["case_00001"; "segmentation"; n]) <$> npy_names 10)
                ++ ((λ n, ["case_00002"; "segmentation"; n]) <$> npy_names 6);
     _indices := seqZ 0 16;
     _train_indices := seqZ 0 10; _valid_indices := seqZ 10 6; _test_indices := [];
     _train_case_slice_num := [10]; _valid_case_slice_num := [6];
     _test_case_slice_num := []; _case_slice_indices := [0; 10; 16];
     _train_dataset := seqZ 0 10; _valid_dataset := seqZ 10 6; _test_dataset := [];
     _num_classes := 3; _img_channels := 3 |}%string.

(** The same two cases, case 2 now held out for testing. *)
Definition demo_test_init : outcome KiTS19 :=
  __init__ demo_np_load demo_np_stack demo_image_to_tensor demo_to_numpy demo_pad_resize
           demo_fs 3 None (2, 2) None 0 None None None [1] [] [2].

(** An ROI file with entries for cases 0, 1 and 2. *)
Definition roi_entry (min_z max_z : Z) : gmap string roi_record :=
  {[ "kidney"%string :=
       ({[ "min_z"%string := min_z; "max_z"%string := max_z ]} : roi_record) ]}.

Definition demo_rois : roi_table :=
  {[ "case_00000"%string := roi_entry 0 3;
     "case_00001"%string := roi_entry 2 8;
     "case_00002"%string := roi_entry 1 5 ]}.

(** [KiTS19(root, stack_num=3, roi_file='roi.json', roi_error_range=1)]. *)
Definition demo_roi_init : outcome KiTS19 :=
  __init__ demo_np_load demo_np_stack demo_image_to_tensor demo_to_numpy demo_pad_resize
           demo_fs 3 None (2, 2) (Some demo_rois) 1 None None None [1] [2] [].

(** An ROI file whose record for case 1 lies below slice 0. *)
Definition below_rois : roi_table :=
  {[ "case_00001"%string := roi_entry (-8) (-5) ]}.

(** The concrete dataset with tumor merged into kidney,
    [spec_classes=[0, 1, 1]]. *)
Definition demo_merge_init : outcome KiTS19 :=
  __init__ demo_np_load demo_np_stack demo_image_to_tensor demo_to_numpy demo_pad_resize
           demo_fs 3 (Some [0; 1; 1]) (2, 2) None 0 None None None [1] [2] [].

(** The concrete dataset with [spec_classes=[0, 2, -1]]. *)
Definition demo_wrap_init : outcome KiTS19 :=
  __init__ demo_np_load demo_np_stack demo_image_to_tensor demo_to_numpy demo_pad_resize
           demo_fs 3 (Some [0; 2; -1]) (2, 2) None 0 None None None [1] [2] [].

(** The object a constructor call returned, [other] if it raised. *)
Definition returned (r : outcome KiTS19) (other : KiTS19) : KiTS19 :=
  match r with
  | Ret self => self
  | Raise _ => other
  end.

Definition demo_test : KiTS19 := returned demo_test_init demo.
Definition demo_roi : KiTS19 := returned demo_roi_init demo.
Definition demo_merge : KiTS19 := returned demo_merge_init demo.
Definition demo_wrap : KiTS19 := returned demo_wrap_init demo.

(** ** Colour map and slice names *)

(** The colour table of [get_colormap] (line 138), one RGB row per
    canonical class. *)
Definition cmap : list (list Z) := [[0; 0; 0]; [255; 0; 0]; [0; 0; 255]].

(** [(i == j).all()] on two rows. *)
Definition rows_equal (i j : list Z) : bool :=
  forallb (λ p, bool_decide (p.1 = p.2)) (zip i j).

(** The inner loop of lines 149-151: [duplicate or (i == j).all()] over the
    rows kept so far. *)
Definition is_duplicate (i : list Z) (spec_cmap : list (list Z)) : bool :=
  fold_left (λ duplicate j, duplicate || rows_equal i j) spec_cmap false.

(** One iteration of the loop of lines 145-153. *)
Definition keep_row (spec_cmap : list (list Z)) (i : list Z) : list (list Z) :=
  if len spec_cmap =? 0 then spec_cmap ++ [i]
  else
    let duplicate := is_duplicate i spec_cmap in
    if negb duplicate then spec_cmap ++ [i] else spec_cmap.

(** [get_colormap]; [cmap[self._spec_classes]] indexes the rows of the
    table with every entry of [_spec_classes]. *)
Definition get_colormap (spec_classes : list Z) (spec : bool)
  : outcome (list (list Z)) :=
  if negb spec then Ret cmap
  else
    picked ← mapM (getitem cmap) spec_classes;
    Ret (fold_left keep_row picked []).

(** [s[a:b]] on a string. *)
Definition str_slice (s : string) (a b : Z) : string :=
  String.string_of_list_ascii (slice (String.list_ascii_of_string s) a b).

(** [Path(s)] for one component [s]: the empty string and ["."] denote the
    empty relative path. *)
Definition path_of_component (s : string) : path :=
  if bool_decide (s = ""%string ∨ s = "."%string) then [] else [s].

(** [idx_to_name]; the entries of [self._imgs] are the paths below [root],
    whose parts come first in [path.parts]. *)
Definition idx_to_name (root : path) (idx : Z) : M path :=
  imgs ← field _imgs;
  _ ← emit (ImgRef idx);
  p ← lift (getitem imgs idx);
  let parts := root ++ p in
  a ← lift (getitem parts (-3));
  b ← lift (getitem parts (-1));
  mret (path_of_component a ++ path_of_component (str_slice b 0 (-4))).

(** ** Vocabulary for the catalogue of slices *)

(** The sorted listing of one directory of a case. *)
Definition listing (fs : filesystem) (case : Z) (d : string) : list path :=
  sorted (glob_npy fs [case_key case; d]).

(** The image files of a case that [_read_npy] keeps, and the label files
    it keeps beside them. *)
Definition case_imgs (rois : option roi_table) (e : Z) (fs : filesystem)
    (case : Z) : list path :=
  match roi_bounds rois e case (len (listing fs case "imaging")) with
  | Ret (min_z, max_z) => slice (listing fs case "imaging") min_z max_z
  | Raise _ => []
  end.

Definition case_labels (rois : option roi_table) (e : Z) (fs : filesystem)
    (case : Z) : list path :=
  match roi_bounds rois e case (len (listing fs case "imaging")) with
  | Ret (min_z, max_z) => slice (listing fs case "segmentation") min_z max_z
  | Raise _ => []
  end.

(** What [_read_npy] requires of one case. *)
Definition case_ok (rois : option roi_table) (e : Z) (fs : filesystem)
    (is_test : bool) (case : Z) : bool :=
  fs_exists fs [case_key case; "imaging"%string]
  && match roi_bounds rois e case (len (listing fs case "imaging")) with
     | Ret _ => true
     | Raise _ => false
     end
  && (is_test
      || fs_exists fs [case_key case; "segmentation"%string]
         && bool_decide (len (case_imgs rois e fs case) = len (case_labels rois e fs case))).

(** The entry of an ROI table for a case holds both bounds. *)
Definition roi_entry_ok (table : roi_table) (case : Z) : bool :=
  match table !! case_key case with
  | Some entry =>
      match entry !! "kidney"%string with
      | Some roi => bool_decide (is_Some (roi !! "min_z"%string))
                    && bool_decide (is_Some (roi !! "max_z"%string))
      | None => false
      end
  | None => false
  end.

(** The cases of a dataset in the order [_get_data] concatenates them. *)
Definition all_cases (train_case valid_case test_case : list Z) : list Z :=
  (train_case ++ valid_case) ++ test_case.

(** ** A concrete dataset whose case ids are their positions *)

(** Cases 0 and 1 on disk, of four and three slices. *)
Definition demo_zero_fs : filesystem := {|
  fs_exists := λ p,
    bool_decide (p ∈ [ ["case_00000"; "imaging"]; ["case_00000"; "segmentation"];
                       ["case_00001"; "imaging"]; ["case_00001"; "segmentation"] ]%string);
  fs_npy_entries := λ p,
    if bool_decide (p !! 0%nat = Some "case_00000"%string)
    then npy_names 4
    else if bool_decide (p !! 0%nat = Some "case_00001"%string)
         then npy_names 3
         else [];
|}.

(** [KiTS19(root, stack_num=3, roi_file='roi.json')] over [demo_zero_fs] with
    [train.txt] holding case 0 and [val.txt] case 1. *)
Definition demo_zero_init : outcome KiTS19 :=
  __init__ demo_np_load demo_np_stack demo_image_to_tensor demo_to_numpy demo_pad_resize
           demo_zero_fs 3 None (2, 2) (Some demo_rois) 0 None None None [0] [1] [].

Definition demo_zero : KiTS19 := returned demo_zero_init demo.

(** The position in a three-element table that the index [v] selects, for
    [-3 <= v < 3]. *)
Definition class_pos (v : Z) : nat := Z.to_nat (if v <? 0 then v + 3 else v).

(** The number a string of decimal digits denotes; other characters count
    as the digit 0. *)
Definition digit_of (c : Ascii.ascii) : N :=
  let n := Ascii.N_of_ascii c in
  if ((48 <=? n) && (n <=? 57))%N then (n - 48)%N else 0%N.

Fixpoint digits_value (s : string) : N :=
  match s with
  | EmptyString => 0
  | String c s' => digit_of c * 10 ^ N.of_nat (String.length s') + digits_value s'
  end%N.

(** The transform configured for the subset that holds [idx]. *)
Definition subset_transform (self : KiTS19) (idx : Z)
  : option (sample → outcome sample) :=
  if contains idx (_train_indices self) then _train_transform self
  else if contains idx (_valid_indices self) then _valid_transform self
  else if contains idx (_test_indices self) then _test_transform self
  else None.

Definition apply_transform (t : option (sample → outcome sample)) (data : sample)
  : M sample :=
  match t with
  | Some t => lift (t data)
  | None => mret data
  end.

(** The concrete file system with its directories listed in ascending
    order. *)
Definition demo_fs_ascending : filesystem := {|
  fs_exists := fs_exists demo_fs;
  fs_npy_entries := λ p, reverse (fs_npy_entries demo_fs p);
|}.

(** * Theorems *)

Example format_05d_1 : format_05d 1 = "00001"%string.
Proof. reflexivity. Qed.
Example format_05d_neg : format_05d (-1) = "-0001"%string.
Proof. reflexivity. Qed.
Example format_05d_wide : format_05d 123456 = "123456"%string.
Proof. reflexivity. Qed.
Example getitem_neg : getitem [10; 20; 30] (-1) = Ret 30.
Proof. reflexivity. Qed.
Example getitem_oob : getitem [10; 20; 30] 3 = Raise IndexError.
Proof. reflexivity. Qed.
Example slice_neg : slice [0; 1; 2; 3; 4; 5; 6; 7; 8; 9] 0 (-5) = [0; 1; 2; 3; 4].
Proof. reflexivity. Qed.
Example range_ex : range 8 11 = [8; 9; 10].
Proof. reflexivity. Qed.

(** ** Facts about the Python primitives *)

Lemma len_nonneg {A} (l : list A) : 0 ≤ len l.
Proof. unfold len. lia. Qed.

Lemma len_app {A} (l k : list A) : len (l ++ k) = len l + len k.
Proof. unfold len. rewrite length_app. lia. Qed.

Lemma len_nil {A} : len (@nil A) = 0.
Proof. reflexivity. Qed.

Lemma getitem_in_range {A} (l : list A) (i : Z) :
  0 ≤ i < len l →
  ∃ x, l !! Z.to_nat i = Some x ∧ getitem l i = Ret x.
Proof.
  intros Hi. unfold getitem, len in *.
  destruct (Z.ltb_spec i 0) as [?|_]; [lia|].
  destruct (Z.ltb_spec i 0) as [?|_]; [lia|].
  destruct (lookup_lt_is_Some_2 l (Z.to_nat i)) as [x Hx]; [lia|].
  exists x. by rewrite Hx.
Qed.

Lemma getitem_lookup {A} (l : list A) (i : Z) (x : A) :
  0 ≤ i → l !! Z.to_nat i = Some x → getitem l i = Ret x.
Proof.
  intros Hi Hx. unfold getitem.
  destruct (Z.ltb_spec i 0) as [?|_]; [lia|].
  destruct (Z.ltb_spec i 0) as [?|_]; [lia|].
  by rewrite Hx.
Qed.

Lemma getitem_past_end {A} (l : list A) (i : Z) :
  len l ≤ i → getitem l i = Raise IndexError.
Proof.
  intros Hi. pose proof (len_nonneg l). unfold getitem, len in *.
  destruct (Z.ltb_spec i 0) as [?|_]; [lia|].
  destruct (Z.ltb_spec i 0) as [?|_]; [lia|].
  rewrite lookup_ge_None_2; [done | lia].
Qed.

Lemma slice_nonneg {A} (l : list A) (a b : Z) :
  0 ≤ a → 0 ≤ b →
  slice l a b = take (Z.to_nat (Z.min b (len l) - Z.min a (len l)))
                     (drop (Z.to_nat (Z.min a (len l))) l).
Proof.
  intros Ha Hb. unfold slice, slice_bound.
  destruct (Z.ltb_spec a 0) as [?|_]; [lia|].
  destruct (Z.ltb_spec b 0) as [?|_]; [lia|]. done.
Qed.

Lemma len_slice_nonneg {A} (l : list A) (a b : Z) :
  0 ≤ a → 0 ≤ b →
  len (slice l a b) = Z.max 0 (Z.min b (len l) - Z.min a (len l)).
Proof.
  intros Ha Hb. rewrite slice_nonneg by done. unfold len.
  rewrite length_take, length_drop. lia.
Qed.

Lemma len_slice_le {A} (l : list A) (a b : Z) : len (slice l a b) ≤ len l.
Proof.
  unfold slice, len. rewrite length_take, length_drop. lia.
Qed.

Lemma slice_lookup_nonneg {A} (l : list A) (a b : Z) (k : nat) :
  0 ≤ a → 0 ≤ b →
  slice l a b !! k =
    if bool_decide (a + Z.of_nat k < Z.min b (len l))
    then l !! Z.to_nat (a + Z.of_nat k) else None.
Proof.
  intros Ha Hb. rewrite slice_nonneg by done. pose proof (len_nonneg l).
  case_bool_decide as Hk.
  - rewrite lookup_take_lt by lia. rewrite lookup_drop. f_equal. lia.
  - destruct (decide (Z.of_nat k < Z.min b (len l) - Z.min a (len l))) as [Hlt|Hge].
    + assert (len l ≤ a) by lia. lia.
    + apply lookup_ge_None_2. rewrite length_take, length_drop. unfold len in *. lia.
Qed.

Lemma slice_seqZ_0 (n a b : Z) :
  0 ≤ a → a ≤ b → b ≤ n → slice (range 0 n) a b = seqZ a (b - a).
Proof.
  intros Ha Hab Hb. rewrite slice_nonneg by lia. unfold range, len.
  rewrite length_seqZ. rewrite !Z.sub_0_r.
  replace (Z.of_nat (Z.to_nat n)) with n by lia.
  rewrite !Z.min_l by lia.
  apply list_eq. intros k.
  destruct (decide (Z.of_nat k < b - a)) as [Hk|Hk].
  - rewrite lookup_take_lt by lia. rewrite lookup_drop.
    rewrite !lookup_seqZ_lt by lia. f_equal. lia.
  - rewrite lookup_seqZ_ge by lia.
    apply lookup_ge_None_2. rewrite length_take, length_drop, length_seqZ. lia.
Qed.

Lemma contains_true `{EqDecision A} (x : A) (l : list A) :
  contains x l = true ↔ x ∈ l.
Proof. unfold contains. apply bool_decide_eq_true. Qed.

Lemma contains_false `{EqDecision A} (x : A) (l : list A) :
  contains x l = false ↔ x ∉ l.
Proof. unfold contains. apply bool_decide_eq_false. Qed.

(** ** The boundary table *)

Lemma sum_Z_app (l k : list Z) : sum_Z (l ++ k) = sum_Z l + sum_Z k.
Proof. unfold sum_Z. induction l as [|x l IH]; simpl; lia. Qed.

Lemma sum_Z_nonneg (l : list Z) : Forall (λ n, 0 ≤ n) l → 0 ≤ sum_Z l.
Proof. unfold sum_Z. induction 1; simpl; lia. Qed.

Lemma sum_Z_take_mono (l : list Z) (i j : nat) :
  Forall (λ n, 0 ≤ n) l → (i ≤ j)%nat → sum_Z (take i l) ≤ sum_Z (take j l).
Proof.
  intros Hl Hij.
  replace j with (i + (j - i))%nat by lia.
  rewrite <- take_take_drop. rewrite sum_Z_app.
  assert (0 ≤ sum_Z (take (j - i) (drop i l))); [|lia].
  apply sum_Z_nonneg. by apply Forall_take, Forall_drop.
Qed.

Lemma case_slice_indices_fold (nums : list Z) :
  fold_left (λ '(acc, idx) num, let idx := idx + num in (acc ++ [idx], idx))
            nums ([0], 0)
  = (case_slice_indices_of nums, sum_Z nums).
Proof.
  unfold case_slice_indices_of.
  induction nums as [|n nums IH] using rev_ind; [done|].
  rewrite fold_left_app. simpl.
  destruct (fold_left _ nums _) as [acc s] eqn:E. simpl in *.
  assert (s = sum_Z nums) as -> by congruence.
  rewrite sum_Z_app. unfold sum_Z at 3. simpl. by rewrite Z.add_0_r.
Qed.

Lemma case_slice_indices_snoc (nums : list Z) (n : Z) :
  case_slice_indices_of (nums ++ [n])
  = case_slice_indices_of nums ++ [sum_Z nums + n].
Proof.
  unfold case_slice_indices_of at 1. rewrite fold_left_app. simpl.
  by rewrite case_slice_indices_fold.
Qed.

Lemma case_slice_indices_length (nums : list Z) :
  length (case_slice_indices_of nums) = S (length nums).
Proof.
  induction nums as [|n nums IH] using rev_ind; [done|].
  rewrite case_slice_indices_snoc, !length_app, IH. simpl. lia.
Qed.

Lemma case_slice_indices_lookup (nums : list Z) (k : nat) :
  (k ≤ length nums)%nat →
  case_slice_indices_of nums !! k = Some (sum_Z (take k nums)).
Proof.
  induction nums as [|n nums IH] using rev_ind; intros Hk.
  - simpl in Hk. by replace k with 0%nat by lia.
  - rewrite case_slice_indices_snoc. rewrite length_app in Hk. simpl in Hk.
    destruct (decide (k ≤ length nums)%nat) as [Hle|Hgt].
    + rewrite lookup_app_l by (rewrite case_slice_indices_length; lia).
      rewrite IH by done. by rewrite take_app_le.
    + assert (k = S (length nums)) as -> by lia.
      rewrite lookup_app_r by (rewrite case_slice_indices_length; lia).
      rewrite case_slice_indices_length, Nat.sub_diag. simpl.
      rewrite take_ge by (rewrite length_app; simpl; lia).
      rewrite sum_Z_app. unfold sum_Z at 3. simpl. f_equal. lia.
Qed.

Lemma case_slice_indices_getitem (nums : list Z) (i : Z) :
  0 ≤ i ≤ len nums →
  getitem (case_slice_indices_of nums) i = Ret (sum_Z (take (Z.to_nat i) nums)).
Proof.
  intros Hi. apply getitem_lookup; [lia|].
  apply case_slice_indices_lookup. unfold len in Hi. lia.
Qed.

(** Every index below the sum_Z lies in exactly one case. *)
Lemma owner_exists (nums : list Z) (idx : Z) :
  Forall (λ n, 0 ≤ n) nums → 0 ≤ idx < sum_Z nums →
  ∃ c : nat, (c < length nums)%nat ∧
    sum_Z (take c nums) ≤ idx < sum_Z (take (S c) nums).
Proof.
  induction nums as [|n nums IH] using rev_ind; intros Hnn Hidx.
  - unfold sum_Z in Hidx. simpl in Hidx. lia.
  - apply Forall_app in Hnn as [Hnn Hn]. rewrite sum_Z_app in Hidx.
    destruct (decide (idx < sum_Z nums)) as [Hlt|Hge].
    + destruct (IH Hnn) as (c & Hc & Hlo); [lia|].
      exists c. rewrite length_app. split; [simpl; lia|].
      rewrite !take_app_le by lia. done.
    + exists (length nums). rewrite length_app. split; [simpl; lia|].
      rewrite take_app_le by lia. rewrite firstn_all.
      rewrite take_ge by (rewrite length_app; simpl; lia).
      rewrite sum_Z_app. lia.
Qed.

Lemma owner_unique (nums : list Z) (idx : Z) (c c' : nat) :
  Forall (λ n, 0 ≤ n) nums →
  sum_Z (take c nums) ≤ idx < sum_Z (take (S c) nums) →
  sum_Z (take c' nums) ≤ idx < sum_Z (take (S c') nums) →
  c = c'.
Proof.
  intros Hnn Hc Hc'.
  destruct (Nat.lt_trichotomy c c') as [Hlt|[->|Hgt]]; [|done|].
  - pose proof (sum_Z_take_mono nums (S c) c' Hnn ltac:(lia)). lia.
  - pose proof (sum_Z_take_mono nums (S c') c Hnn ltac:(lia)). lia.
Qed.

(** ** The exception monad *)

Lemma bind_Ret_inv {A B} (m : outcome A) (f : A → outcome B) (b : B) :
  (m ≫= f) = Ret b → ∃ a, m = Ret a ∧ f a = Ret b.
Proof. destruct m as [a|e]; simpl; [eauto | discriminate]. Qed.

Lemma assert_Ret_inv (b : bool) (u : unit) : assert b = Ret u → b = true.
Proof. destruct b; [done | discriminate]. Qed.

Ltac inv_bind H :=
  let a := fresh "a" in
  let Ha := fresh "Ha" in
  apply bind_Ret_inv in H as (a & Ha & H).

Tactic Notation "inv_bind_as" hyp(H) ident(a) ident(Ha) :=
  apply bind_Ret_inv in H as (a & Ha & H).

(** ** What the constructor establishes *)

Lemma glob_npy_in_dir (fs : filesystem) (root : string) (d : string) :
  Forall (in_dir d) (glob_npy fs [root; d]).
Proof.
  unfold glob_npy. apply Forall_fmap. apply Forall_forall. intros name _. done.
Qed.

Lemma sorted_Forall (P : path → Prop) (ps : list path) :
  Forall P ps → Forall P (sorted ps).
Proof.
  intros H. unfold sorted. by rewrite merge_sort_Permutation.
Qed.

Lemma slice_Forall {A} (P : A → Prop) (l : list A) (a b : Z) :
  Forall P l → Forall P (slice l a b).
Proof. intros H. unfold slice. by apply Forall_take, Forall_drop. Qed.

Lemma len_sorted (ps : list path) : len (sorted ps) = len ps.
Proof. unfold len, sorted. by rewrite merge_sort_Permutation. Qed.

Lemma read_npy_case_Ret rois e fs is_test imgs labels nums case imgs' labels' nums' :
  _read_npy_case rois e fs is_test (imgs, labels, nums) case = Ret (imgs', labels', nums') →
  ∃ min_z max_z case_imgs,
    roi_bounds rois e case
      (len (sorted (glob_npy fs [case_key case; "imaging"%string]))) = Ret (min_z, max_z) ∧
    case_imgs = slice (sorted (glob_npy fs [case_key case; "imaging"%string])) min_z max_z ∧
    imgs' = imgs ++ case_imgs ∧
    nums' = nums ++ [len case_imgs] ∧
    (if is_test then labels' = labels
     else labels' = labels ++
            slice (sorted (glob_npy fs [case_key case; "segmentation"%string])) min_z max_z
          ∧ len imgs' = len labels').
Proof.
  unfold _read_npy_case. intros H. simpl in H.
  inv_bind H. inv_bind H. destruct a0 as [min_z max_z].
  inv_bind H. injection H as <- <- <-.
  exists min_z, max_z, (slice (sorted (glob_npy fs [case_key case; "imaging"%string])) min_z max_z).
  split; [done|]. split; [done|]. split; [done|]. split; [done|].
  destruct is_test; simpl in Ha1.
  - by injection Ha1 as <-.
  - inv_bind Ha1. inv_bind Ha1. injection Ha1 as <-.
    apply assert_Ret_inv, bool_decide_eq_true in Ha3. done.
Qed.

Lemma read_npy_case_inv rois e fs is_test acc case acc' :
  read_inv is_test acc →
  _read_npy_case rois e fs is_test acc case = Ret acc' →
  read_inv is_test acc' ∧ length acc'.2 = S (length acc.2).
Proof.
  destruct acc as [[imgs labels] nums], acc' as [[imgs' labels'] nums'].
  intros (Hlen & Hnn & Him & Hlb & Ht) H.
  apply read_npy_case_Ret in H as (min_z & max_z & ci & _ & Hci & -> & -> & Hl).
  split; [|simpl; rewrite length_app; simpl; lia].
  unfold read_inv. split_and!.
  - rewrite len_app, sum_Z_app, Hlen.
    change (sum_Z [len ci]) with (len ci + 0). lia.
  - apply Forall_app. split; [done|]. repeat constructor. apply len_nonneg.
  - apply Forall_app. split; [done|]. subst ci.
    apply slice_Forall, sorted_Forall, glob_npy_in_dir.
  - destruct is_test; [by subst|]. destruct Hl as [-> _].
    apply Forall_app. split; [done|].
    apply slice_Forall, sorted_Forall, glob_npy_in_dir.
  - destruct is_test; [by subst|]. by destruct Hl as [_ <-].
Qed.

Lemma for_fold_read_inv rois e fs is_test cases acc acc' :
  read_inv is_test acc →
  for_fold (_read_npy_case rois e fs is_test) acc cases = Ret acc' →
  read_inv is_test acc' ∧ length acc'.2 = (length acc.2 + length cases)%nat.
Proof.
  revert acc. induction cases as [|c cases IH]; intros acc Hinv H; simpl in H.
  - injection H as <-. split; [done | simpl; lia].
  - inv_bind H. destruct (read_npy_case_inv _ _ _ _ _ _ _ Hinv Ha) as [Hinv' Hl].
    destruct (IH _ Hinv' H) as [? Hl']. split; [done|]. simpl. lia.
Qed.

Lemma read_npy_inv rois e fs cases is_test r :
  _read_npy rois e fs cases is_test = Ret r →
  read_inv is_test r ∧ length r.2 = length cases.
Proof.
  unfold _read_npy. intros H.
  apply for_fold_read_inv in H; [done|].
  simpl. by destruct is_test.
Qed.

Lemma get_data_Ret self fs train_case valid_case test_case self' :
  _get_data self fs train_case valid_case test_case = Ret self' →
  ∃ ti tl tn vi vl vn si sl sn,
    _read_npy (_rois self) (_roi_error_range self) fs train_case false = Ret (ti, tl, tn) ∧
    _read_npy (_rois self) (_roi_error_range self) fs valid_case false = Ret (vi, vl, vn) ∧
    _read_npy (_rois self) (_roi_error_range self) fs test_case true = Ret (si, sl, sn) ∧
    _imgs self' = (ti ++ vi) ++ si ∧
    _labels self' = (tl ++ vl) ++ sl ∧
    _indices self' = range 0 (len ((ti ++ vi) ++ si)) ∧
    _train_indices self' = slice (range 0 (len ((ti ++ vi) ++ si))) 0 (len ti) ∧
    _valid_indices self' =
      slice (range 0 (len ((ti ++ vi) ++ si))) (len ti) (len ti + len vi) ∧
    _test_indices self' =
      slice (range 0 (len ((ti ++ vi) ++ si))) (len ti + len vi)
            (len ti + len vi + len si) ∧
    _train_case_slice_num self' = tn ∧
    _valid_case_slice_num self' = vn ∧
    _test_case_slice_num self' = sn ∧
    _case_slice_indices self' = case_slice_indices_of ((tn ++ vn) ++ sn) ∧
    _rois self' = _rois self ∧ _stack_num self' = _stack_num self ∧
    _spec_classes self' = _spec_classes self.
Proof.
  unfold _get_data. intros H.
  inv_bind H. destruct a as [[ti tl] tn].
  inv_bind H. destruct a as [[vi vl] vn].
  inv_bind H. destruct a as [[si sl] sn].
  injection H as <-. simpl.
  exists ti, tl, tn, vi, vl, vn, si, sl, sn. split_and!; done.
Qed.

Lemma get_data_built self fs train_case valid_case test_case self' :
  _get_data self fs train_case valid_case test_case = Ret self' →
  built self'.
Proof.
  intros H.
  apply get_data_Ret in H
    as (ti & tl & tn & vi & vl & vn & si & sl & sn & Ht & Hv & Hs & Him & Hlb & Hix
        & Htr & Hva & Hte & Htn & Hvn & Hsn & Hcsi & _).
  apply read_npy_inv in Ht as [(Ht1 & Ht2 & Ht3 & Ht4 & Ht5) _].
  apply read_npy_inv in Hv as [(Hv1 & Hv2 & Hv3 & Hv4 & Hv5) _].
  apply read_npy_inv in Hs as [(Hs1 & Hs2 & Hs3 & Hs4 & Hs5) _].
  pose proof (len_nonneg ti). pose proof (len_nonneg vi). pose proof (len_nonneg si).
  constructor; unfold all_nums; rewrite ?Htn, ?Hvn, ?Hsn.
  - by repeat (apply Forall_app; split).
  - done.
  - rewrite Him, !len_app, !sum_Z_app. lia.
  - by rewrite Hix, Him.
  - rewrite Htr, slice_seqZ_0; rewrite ?len_app; [|lia..].
    rewrite Z.sub_0_r. by rewrite Ht1.
  - rewrite Hva, slice_seqZ_0; rewrite ?len_app; [|lia..].
    rewrite <- Ht1, <- Hv1. f_equal. lia.
  - rewrite Hte, slice_seqZ_0; rewrite ?len_app; [|lia..].
    rewrite <- Ht1, <- Hv1, <- Hs1. f_equal. lia.
  - rewrite Hlb, Hs5, !len_app, Ht5, Hv5, Ht1, Hv1. rewrite len_nil. lia.
  - rewrite Him. by repeat (apply Forall_app; split).
  - rewrite Hlb. by repeat (apply Forall_app; split).
Qed.

(** ** The case lookup *)

Lemma case_loop_no_match (csi : list Z) (idx : Z) (js : list Z) (d : Z) :
  (∀ i, i ∈ js → ∃ a b, getitem csi i = Ret a ∧ getitem csi (i + 1) = Ret b
                        ∧ ¬ (a ≤ idx < b)) →
  case_loop csi idx js d = Ret d.
Proof.
  induction js as [|i js IH]; intros Hjs; [done|]. simpl.
  destruct (Hjs i) as (a & b & -> & Hb & Hn); [by left|]. simpl.
  assert (case_loop csi idx js d = Ret d) as Hrest.
  { apply IH. intros j Hj. apply Hjs. by right. }
  destruct (Z.leb_spec a idx); [|done].
  rewrite Hb. simpl. destruct (Z.ltb_spec idx b); [lia | done].
Qed.

Lemma case_loop_first_match (csi : list Z) (idx : Z) (js1 js2 : list Z) (i d a b : Z) :
  (∀ j, j ∈ js1 → ∃ a b, getitem csi j = Ret a ∧ getitem csi (j + 1) = Ret b
                         ∧ ¬ (a ≤ idx < b)) →
  getitem csi i = Ret a → getitem csi (i + 1) = Ret b → a ≤ idx < b →
  case_loop csi idx (js1 ++ i :: js2) d = Ret i.
Proof.
  intros Hjs Ha Hb Hin.
  induction js1 as [|j js1 IH]; simpl.
  - rewrite Ha. simpl. destruct (Z.leb_spec a idx); [|lia].
    rewrite Hb. simpl. destruct (Z.ltb_spec idx b); [done | lia].
  - destruct (Hjs j) as (a' & b' & -> & Hb' & Hn); [by left|]. simpl.
    assert (case_loop csi idx (js1 ++ i :: js2) d = Ret i) as Hrest.
    { apply IH. intros k Hk. apply Hjs. by right. }
    destruct (Z.leb_spec a' idx); [|done].
    rewrite Hb'. simpl. destruct (Z.ltb_spec idx b'); [lia | done].
Qed.

Lemma boundary_step (nums : list Z) (c : Z) (n : Z) :
  0 ≤ c → nums !! Z.to_nat c = Some n →
  boundary nums (c + 1) = boundary nums c + n.
Proof.
  intros Hc Hn. unfold boundary.
  replace (Z.to_nat (c + 1)) with (S (Z.to_nat c)) by lia.
  erewrite take_S_r by done. rewrite sum_Z_app.
  change (sum_Z [n]) with (n + 0). lia.
Qed.

Lemma case_loop_owner (nums : list Z) (idx : Z) :
  Forall (λ n, 0 ≤ n) nums → 0 ≤ idx < sum_Z nums →
  ∃ c, 0 ≤ c < len nums ∧
       boundary nums c ≤ idx < boundary nums (c + 1) ∧
       case_loop (case_slice_indices_of nums) idx
                 (range 0 (len (case_slice_indices_of nums) - 1)) 0 = Ret c ∧
       ∀ c', 0 ≤ c' < len nums →
             boundary nums c' ≤ idx < boundary nums (c' + 1) → c' = c.
Proof.
  intros Hnn Hidx.
  destruct (owner_exists nums idx Hnn Hidx) as (c & Hc & Hlo).
  exists (Z.of_nat c). unfold boundary.
  replace (Z.to_nat (Z.of_nat c + 1)) with (S c) by lia.
  rewrite Nat2Z.id. unfold len at 1. split_and!.
  all: try lia. all: try tauto.
  - assert (len (case_slice_indices_of nums) - 1 = len nums) as ->.
    { unfold len. rewrite case_slice_indices_length. lia. }
    unfold range. rewrite Z.sub_0_r.
    replace (len nums) with (Z.of_nat c + (len nums - Z.of_nat c)) by lia.
    rewrite seqZ_app by (unfold len; lia).
    rewrite (seqZ_cons (0 + Z.of_nat c)) by (unfold len; lia).
    apply case_loop_first_match
      with (a := sum_Z (take c nums)) (b := sum_Z (take (S c) nums)).
    + intros j Hj. apply elem_of_seqZ in Hj.
      exists (sum_Z (take (Z.to_nat j) nums)), (sum_Z (take (Z.to_nat (j + 1)) nums)).
      split_and!.
      * apply case_slice_indices_getitem. unfold len. lia.
      * apply case_slice_indices_getitem. unfold len. lia.
      * intros Hj'. replace (Z.to_nat (j + 1)) with (S (Z.to_nat j)) in Hj' by lia.
        assert (Z.to_nat j = c); [|lia].
        by apply (owner_unique nums idx).
    + rewrite case_slice_indices_getitem by (unfold len; lia).
      repeat f_equal; lia.
    + rewrite case_slice_indices_getitem by (unfold len; lia).
      repeat f_equal; lia.
    + done.
  - intros c' Hc' Hb'.
    replace (Z.to_nat (c' + 1)) with (S (Z.to_nat c')) in Hb' by lia.
    assert (Z.to_nat c' = c); [|lia].
    by apply (owner_unique nums idx).
Qed.

Lemma case_loop_outside (nums : list Z) (idx : Z) :
  Forall (λ n, 0 ≤ n) nums → idx < 0 ∨ sum_Z nums ≤ idx →
  case_loop (case_slice_indices_of nums) idx
            (range 0 (len (case_slice_indices_of nums) - 1)) 0 = Ret 0.
Proof.
  intros Hnn Hidx.
  assert (len (case_slice_indices_of nums) - 1 = len nums) as ->.
  { unfold len. rewrite case_slice_indices_length. lia. }
  apply case_loop_no_match. intros j Hj. apply elem_of_seqZ in Hj.
  exists (sum_Z (take (Z.to_nat j) nums)), (sum_Z (take (Z.to_nat (j + 1)) nums)).
  split_and!.
  - apply case_slice_indices_getitem. unfold len in *. lia.
  - apply case_slice_indices_getitem. unfold len in *. lia.
  - intros Hj'.
    assert (0 ≤ sum_Z (take (Z.to_nat j) nums))
      by (apply sum_Z_nonneg; by apply Forall_take).
    pose proof (sum_Z_take_mono nums (Z.to_nat (j + 1)) (length nums) Hnn) as Hm.
    rewrite firstn_all in Hm. unfold len in *. lia.
Qed.

(** ** Running the access methods *)

Lemma run_bind {A B} (m : M A) (f : A → M B) (s : state) :
  (m ≫= f) s = match m s with
               | (Ret a, s') => f a s'
               | (Raise e, s') => (Raise e, s')
               end.
Proof. reflexivity. Qed.

Lemma clamp_in_range (lo hi i : Z) : lo < hi → lo ≤ clamp lo hi i < hi.
Proof.
  intros H. unfold clamp.
  destruct (Z.ltb_spec i lo); [lia|]. destruct (Z.leb_spec hi i); lia.
Qed.

Ltac mrun :=
  repeat (progress (rewrite ?run_bind; cbn [field lift emit obj log mret M_ret])).

Section AccessFacts.

Variable np_load : path → outcome ndarray.
Variable np_stack_axis2 : list ndarray → outcome ndarray.

Lemma stack_slice_run (self : KiTS19) (lg : list event) (c i lo hi : Z) :
  getitem (_case_slice_indices self) c = Ret lo →
  getitem (_case_slice_indices self) (c + 1) = Ret hi →
  0 ≤ lo → lo < hi → hi ≤ len (_imgs self) →
  stack_slice np_load c i {| obj := self; log := lg |}
  = (np_load (_imgs self !!! Z.to_nat (clamp lo hi i)),
     {| obj := self; log := lg ++ slice_events self lo hi i |}).
Proof.
  intros Hlo Hhi H0 Hlt Hlen.
  pose proof (clamp_in_range lo hi i Hlt) as Hc.
  destruct (getitem_in_range (_imgs self) (clamp lo hi i)) as (p & Hp & Hg); [lia|].
  rewrite (list_lookup_total_correct _ _ _ Hp).
  unfold stack_slice, slice_events.
  rewrite (list_lookup_total_correct _ _ _ Hp).
  unfold clamp in *.
  mrun. rewrite Hlo. mrun.
  destruct (Z.ltb_spec i lo).
  - mrun. rewrite Hlo. mrun. rewrite Hg. mrun. by rewrite <- app_assoc.
  - mrun. rewrite Hhi. mrun.
    destruct (Z.leb_spec hi i).
    + mrun. rewrite Hhi. mrun. rewrite Hg. mrun. by rewrite <- app_assoc.
    + mrun. rewrite Hg. mrun. by rewrite <- app_assoc.
Qed.

End AccessFacts.

Lemma mapM_cons_M {A B} (f : A → M B) (x : A) (l : list A) :
  mapM f (x :: l) = (y ← f x; k ← mapM f l; mret (y :: k)).
Proof. reflexivity. Qed.

Section WindowFacts.

Variable np_load : path → outcome ndarray.
Variable np_stack_axis2 : list ndarray → outcome ndarray.

Lemma window_run (self : KiTS19) (c lo hi : Z) (js : list Z) (lg : list event) :
  getitem (_case_slice_indices self) c = Ret lo →
  getitem (_case_slice_indices self) (c + 1) = Ret hi →
  0 ≤ lo → lo < hi → hi ≤ len (_imgs self) →
  ∃ (n : nat) (r : outcome (list ndarray)),
    (n ≤ length js)%nat ∧
    mapM (stack_slice np_load c) js {| obj := self; log := lg |}
    = (r, {| obj := self; log := lg ++ window_events self lo hi (take n js) |}) ∧
    (∀ l, r = Ret l →
          n = length js ∧
          Forall2 (λ i a, np_load (_imgs self !!! Z.to_nat (clamp lo hi i)) = Ret a) js l) ∧
    ((∀ p, is_Ret (np_load p)) → is_Ret r).
Proof.
  intros Hlo Hhi H0 Hlt Hlen. revert lg.
  induction js as [|i js IH]; intros lg.
  - exists 0%nat, (Ret []). split; [done|]. split.
    + cbn. by rewrite app_nil_r.
    + split; [|by eexists]. intros l [= <-]. by split.
  - rewrite mapM_cons_M. mrun. rewrite (stack_slice_run _ _ _ _ _ lo hi) by done.
    destruct (np_load (_imgs self !!! Z.to_nat (clamp lo hi i))) as [a|e] eqn:Ea.
    + destruct (IH (lg ++ slice_events self lo hi i)) as (n & r & Hn & Hrun & Hret & Htot).
      mrun. rewrite Hrun. destruct r as [l|e].
      * exists (S n), (Ret (a :: l)). split; [simpl; lia|]. split.
        { mrun. unfold window_events. cbn. by rewrite <- !app_assoc. }
        split; [|by eexists]. intros l' [= <-].
        destruct (Hret l eq_refl) as [-> HF]. split; [done|]. by constructor.
      * exists (S n), (Raise e). split; [simpl; lia|]. split.
        { unfold window_events. cbn. by rewrite <- !app_assoc. }
        split; [done|]. intros Hall. destruct (Htot Hall) as [? ?]. done.
    + exists 1%nat, (Raise e). split; [simpl; lia|]. split.
      { unfold window_events. cbn. by rewrite ?app_nil_r. }
      split; [done|]. intros Hall. destruct (Hall (_imgs self !!! Z.to_nat (clamp lo hi i))) as [? ?].
      congruence.
Qed.

End WindowFacts.

Lemma lookup_key_Ret_inv `{Countable K} {V} (d : gmap K V) (k : K) (v : V) :
  lookup_key d k = Ret v → d !! k = Some v.
Proof. unfold lookup_key. destruct (d !! k); [congruence | discriminate]. Qed.

Lemma built_not_test (self : KiTS19) (idx : Z) :
  built self → 0 ≤ idx < len (_imgs self) → idx ∉ _test_indices self →
  0 ≤ idx < len (_labels self).
Proof.
  intros Hb Hidx Hnt.
  rewrite (built_test _ Hb) in Hnt. rewrite elem_of_seqZ in Hnt.
  rewrite (built_labels _ Hb). rewrite <- (built_total _ Hb) in Hidx.
  unfold all_nums in Hidx. rewrite !sum_Z_app in Hidx. lia.
Qed.

Lemma built_owner (self : KiTS19) (idx : Z) (lg : list event) :
  built self → 0 ≤ idx < len (_imgs self) →
  ∃ c, 0 ≤ c < len (all_nums self) ∧
       boundary (all_nums self) c ≤ idx < boundary (all_nums self) (c + 1) ∧
       0 ≤ boundary (all_nums self) c ∧
       boundary (all_nums self) (c + 1) ≤ len (_imgs self) ∧
       getitem (_case_slice_indices self) c = Ret (boundary (all_nums self) c) ∧
       getitem (_case_slice_indices self) (c + 1) = Ret (boundary (all_nums self) (c + 1)) ∧
       img_idx_to_case_idx idx {| obj := self; log := lg |}
         = (Ret c, {| obj := self; log := lg |}) ∧
       ∀ c', 0 ≤ c' < len (all_nums self) →
             boundary (all_nums self) c' ≤ idx < boundary (all_nums self) (c' + 1) →
             c' = c.
Proof.
  intros Hb Hidx. rewrite <- (built_total _ Hb) in Hidx.
  destruct (case_loop_owner _ idx (built_nonneg _ Hb) Hidx) as (c & Hc & Hin & Hloop & Huniq).
  assert (0 ≤ boundary (all_nums self) c) as H0.
  { apply sum_Z_nonneg, Forall_take, (built_nonneg _ Hb). }
  assert (boundary (all_nums self) (c + 1) ≤ len (_imgs self)) as HN.
  { rewrite <- (built_total _ Hb). unfold boundary.
    pose proof (sum_Z_take_mono (all_nums self) (Z.to_nat (c + 1))
                  (length (all_nums self)) (built_nonneg _ Hb)) as Hm.
    rewrite firstn_all in Hm. apply Hm. unfold len in Hc. lia. }
  assert (getitem (_case_slice_indices self) c = Ret (boundary (all_nums self) c)) as Hg1.
  { rewrite (built_csi _ Hb). apply case_slice_indices_getitem. lia. }
  assert (getitem (_case_slice_indices self) (c + 1)
          = Ret (boundary (all_nums self) (c + 1))) as Hg2.
  { rewrite (built_csi _ Hb). apply case_slice_indices_getitem. lia. }
  assert (img_idx_to_case_idx idx {| obj := self; log := lg |}
          = (Ret c, {| obj := self; log := lg |})) as Hrun.
  { unfold img_idx_to_case_idx. mrun. rewrite (built_csi _ Hb), Hloop. done. }
  exists c. tauto.
Qed.

Ltac exit_run lab_tac :=
  split; [done|]; split; [done|]; split; [done|]; split; [lab_tac|]; split.

Section StackFacts.

Variable np_load : path → outcome ndarray.
Variable np_stack_axis2 : list ndarray → outcome ndarray.

Lemma get_stack_img_run (self : KiTS19) (lg : list event) (idx : Z) :
  built self → 0 ≤ idx < len (_imgs self) →
  ∃ c (n : nat) lab r,
    let lo := boundary (all_nums self) c in
    let hi := boundary (all_nums self) (c + 1) in
    (img_idx_to_case_idx idx {| obj := self; log := lg |}
      = (Ret c, {| obj := self; log := lg |}) ∧
    (n ≤ length (window self idx))%nat ∧
    get_stack_img np_load np_stack_axis2 idx {| obj := self; log := lg |}
      = (r, {| obj := self;
               log := lg ++ window_events self lo hi (take n (window self idx)) ++ lab |}) ∧
    (lab = [] ∨ ((idx ∉ _test_indices self) ∧ lab = label_events self idx)) ∧
    (∀ d, r = Ret d →
       n = length (window self idx) ∧
       ∃ arrs img label roi,
         Forall2 (λ i a, np_load (_imgs self !!! Z.to_nat (clamp lo hi i)) = Ret a)
                 (window self idx) arrs ∧
         np_stack_axis2 arrs = Ret img ∧
         d = sample_of img label idx roi ∧
         (if contains idx (_test_indices self) then label = VNone ∧ lab = []
          else ∃ a, np_load (_labels self !!! Z.to_nat idx) = Ret a ∧
                    label = VArray a ∧ lab = label_events self idx) ∧
         match _rois self with
         | None => roi = VNone
         | Some table =>
             ∃ entry rec, table !! case_key c = Some entry ∧
                          entry !! "kidney"%string = Some rec ∧ roi = VRoi rec
         end) ∧
    ((∀ p, is_Ret (np_load p)) → (∀ l, is_Ret (np_stack_axis2 l)) →
     _rois self = None → is_Ret r)).
Proof.
  intros Hb Hidx.
  destruct (built_owner self idx lg Hb Hidx)
    as (c & Hc & Hin & Hlo0 & HhiN & Hglo & Hghi & Hcase & _).
  set (lo := boundary (all_nums self) c) in *.
  set (hi := boundary (all_nums self) (c + 1)) in *.
  destruct (window_run np_load self c lo hi (window self idx) lg Hglo Hghi)
    as (n & r & Hn & Hrun & Hret & Htot); [lia..|].
  unfold get_stack_img. rewrite run_bind, Hcase. mrun.
  fold (window self idx). rewrite Hrun.
  destruct r as [arrs|e]; cycle 1.
  { exists c, n, [], (Raise e). cbn zeta. rewrite app_nil_r.
    exit_run ltac:(by left); [done|].
    intros Hall _ _. destruct (Htot Hall) as [? ?]. done. }
  destruct (Hret arrs eq_refl) as [-> HF]. rewrite firstn_all in *. mrun.
  destruct (np_stack_axis2 arrs) as [img|e] eqn:Est; cycle 1.
  { exists c, (length (window self idx)), [], (Raise e). cbn zeta.
    rewrite firstn_all, app_nil_r.
    exit_run ltac:(by left); [done|].
    intros _ Hall _. destruct (Hall arrs) as [? ?]. congruence. }
  mrun. destruct (contains idx (_test_indices self)) eqn:Etest.
  - (* a test index: no label *)
    mrun. destruct (_rois self) as [table|] eqn:Er.
    + mrun. destruct (lookup_key table (case_key c)) as [entry|e] eqn:Ee; cycle 1.
      { exists c, (length (window self idx)), [], (Raise e). cbn zeta.
        rewrite firstn_all, app_nil_r. exit_run ltac:(by left); done. }
      mrun. destruct (lookup_key entry "kidney"%string) as [rec|e] eqn:Ek; cycle 1.
      { exists c, (length (window self idx)), [], (Raise e). cbn zeta.
        rewrite firstn_all, app_nil_r. exit_run ltac:(by left); done. }
      mrun. exists c, (length (window self idx)), [],
              (Ret (sample_of img VNone idx (VRoi rec))).
      cbn zeta. rewrite firstn_all, app_nil_r. exit_run ltac:(by left); [|done].
      intros d [= <-]. split; [done|].
      exists arrs, img, VNone, (VRoi rec).
      split; [done|]. split; [done|]. split; [done|].
      split; [done|].
      exists entry, rec. split; [by apply lookup_key_Ret_inv|].
      split; [by apply lookup_key_Ret_inv | done].
    + mrun. exists c, (length (window self idx)), [],
              (Ret (sample_of img VNone idx VNone)).
      cbn zeta. rewrite firstn_all, app_nil_r. exit_run ltac:(by left); [|by eexists].
      intros d [= <-]. split; [done|].
      exists arrs, img, VNone, VNone.
      split; [done|]. done.
  - (* a train or validation index: one label *)
    apply contains_false in Etest.
    destruct (getitem_in_range (_labels self) idx) as (lp & Hlp & Hglp);
      [by apply built_not_test|].
    assert (label_events self idx = [LabelRef idx; NpLoad lp]) as Hev.
    { unfold label_events. by rewrite (list_lookup_total_correct _ _ _ Hlp). }
    rewrite (list_lookup_total_correct _ _ _ Hlp).
    mrun. rewrite Hglp. mrun.
    destruct (np_load lp) as [a|e] eqn:El; cycle 1.
    { exists c, (length (window self idx)), (label_events self idx), (Raise e). cbn zeta.
      rewrite firstn_all, Hev, <- !app_assoc. exit_run ltac:(by right); [done|].
      intros Hall _ _. destruct (Hall lp) as [? ?]. congruence. }
    mrun. destruct (_rois self) as [table|] eqn:Er.
    + mrun. destruct (lookup_key table (case_key c)) as [entry|e] eqn:Ee; cycle 1.
      { exists c, (length (window self idx)), (label_events self idx), (Raise e). cbn zeta.
        rewrite firstn_all, Hev, <- !app_assoc. exit_run ltac:(by right); done. }
      mrun. destruct (lookup_key entry "kidney"%string) as [rec|e] eqn:Ek; cycle 1.
      { exists c, (length (window self idx)), (label_events self idx), (Raise e). cbn zeta.
        rewrite firstn_all, Hev, <- !app_assoc. exit_run ltac:(by right); done. }
      mrun. exists c, (length (window self idx)), (label_events self idx),
              (Ret (sample_of img (VArray a) idx (VRoi rec))).
      cbn zeta. rewrite firstn_all, Hev, <- !app_assoc. exit_run ltac:(by right); [|done].
      intros d [= <-]. split; [done|].
      exists arrs, img, (VArray a), (VRoi rec).
      split; [done|]. split; [done|]. split; [done|].
      split; [by exists a|].
      exists entry, rec. split; [by apply lookup_key_Ret_inv|].
      split; [by apply lookup_key_Ret_inv | done].
    + mrun. exists c, (length (window self idx)), (label_events self idx),
              (Ret (sample_of img (VArray a) idx VNone)).
      cbn zeta. rewrite firstn_all, Hev, <- !app_assoc. exit_run ltac:(by right); [|by eexists].
      intros d [= <-]. split; [done|].
      exists arrs, img, (VArray a), VNone.
      split; [done|]. split; [done|]. split; [done|].
      split; [by exists a | done].
Qed.

End StackFacts.

(** ** Reads leave the object alone *)

Lemma reader_ret {A} (a : A) : reader (mret a : M A).
Proof. intros [o l]. cbn. by rewrite app_nil_r. Qed.

Lemma reader_field {A} (f : KiTS19 → A) : reader (field f).
Proof. intros [o l]. cbn. by rewrite app_nil_r. Qed.

Lemma reader_lift {A} (r : outcome A) : reader (lift r).
Proof. intros [o l]. cbn. by rewrite app_nil_r. Qed.

Lemma reader_emit (e : event) : reader (emit e).
Proof. intros [o l]. done. Qed.

Lemma reader_bind {A B} (m : M A) (f : A → M B) :
  reader m → (∀ a, reader (f a)) → reader (m ≫= f).
Proof.
  intros Hm Hf [o l]. rewrite !run_bind. cbn [obj log].
  rewrite (Hm {| obj := o; log := l |}). cbn [obj log].
  pose proof (Hm {| obj := o; log := [] |}) as H0. cbn [obj log] in H0.
  destruct (m {| obj := o; log := [] |}) as [[a|e] [o' l']]; cbn [fst snd obj log] in *.
  - injection H0 as ->.
    rewrite (Hf a {| obj := o; log := l ++ l' |}). cbn [obj log].
    rewrite (Hf a {| obj := o; log := l' |}). cbn [obj log].
    by rewrite <- app_assoc.
  - by injection H0 as ->.
Qed.

Lemma reader_mapM {A B} (f : A → M B) (l : list A) :
  (∀ x, reader (f x)) → reader (mapM f l).
Proof.
  intros Hf. induction l as [|x l IH].
  - apply reader_ret.
  - rewrite mapM_cons_M. apply reader_bind; [done|]. intros y.
    apply reader_bind; [done|]. intros k. apply reader_ret.
Qed.

Lemma reader_obj {A} (m : M A) (s : state) : reader m → obj (m s).2 = obj s.
Proof. intros Hm. by rewrite (Hm s). Qed.


Create HintDb reader.
#[global] Hint Resolve reader_ret reader_field reader_lift reader_emit : reader.

Ltac reader_step :=
  first [ solve [auto with reader]
        | apply reader_mapM; intros ?
        | apply reader_bind; [|intros ?]
        | match goal with
          | |- reader (if ?b then _ else _) => destruct b
          | |- reader (match ?x with _ => _ end) => destruct x
          end ].

Section ReaderFacts.

Variable np_load : path → outcome ndarray.
Variable np_stack_axis2 : list ndarray → outcome ndarray.
Variable image_to_tensor : ndarray → outcome ndarray.
Variable to_numpy : sample → outcome sample.
Variable pad_resize : Z → Z * Z → value → value → outcome sample.

Lemma reader_img_idx_to_case_idx (idx : Z) : reader (img_idx_to_case_idx idx).
Proof. unfold img_idx_to_case_idx. repeat reader_step. Qed.

Lemma reader_stack_slice (c i : Z) : reader (stack_slice np_load c i).
Proof. unfold stack_slice. repeat reader_step. Qed.

Lemma reader_get_stack_img (idx : Z) :
  reader (get_stack_img np_load np_stack_axis2 idx).
Proof.
  unfold get_stack_img.
  apply reader_bind; [apply reader_img_idx_to_case_idx|intros ?].
  apply reader_bind; [apply reader_field|intros ?].
  apply reader_bind; [apply reader_mapM, reader_stack_slice|intros ?].
  repeat reader_step.
Qed.

Lemma reader_resize (data : sample) : reader (_resize to_numpy pad_resize data).
Proof. unfold _resize. repeat reader_step. Qed.

Lemma reader_default_transform (data : sample) :
  reader (_default_transform image_to_tensor to_numpy pad_resize data).
Proof.
  unfold _default_transform.
  do 4 (apply reader_bind; [repeat reader_step|intros ?]).
  apply reader_bind.
  { case_bool_decide; [apply reader_resize | apply reader_ret]. }
  intros ?. repeat reader_step.
Qed.

Lemma reader_getitem (idx : Z) :
  reader (__getitem__ np_load np_stack_axis2 image_to_tensor to_numpy pad_resize idx).
Proof.
  unfold __getitem__.
  apply reader_bind; [apply reader_get_stack_img|intros ?].
  do 6 (apply reader_bind; [apply reader_field|intros ?]).
  apply reader_bind; [|intros ?; apply reader_default_transform].
  repeat reader_step.
Qed.

End ReaderFacts.

(** ** The constructor *)

Lemma built_ext (self self' : KiTS19) :
  _case_slice_indices self' = _case_slice_indices self →
  _imgs self' = _imgs self → _labels self' = _labels self →
  _indices self' = _indices self →
  _train_indices self' = _train_indices self →
  _valid_indices self' = _valid_indices self →
  _test_indices self' = _test_indices self →
  _train_case_slice_num self' = _train_case_slice_num self →
  _valid_case_slice_num self' = _valid_case_slice_num self →
  _test_case_slice_num self' = _test_case_slice_num self →
  built self → built self'.
Proof.
  intros E1 E2 E3 E4 E5 E6 E7 E8 E9 E10 [].
  constructor; unfold all_nums in *; rewrite ?E1, ?E2, ?E3, ?E4, ?E5, ?E6, ?E7, ?E8, ?E9, ?E10;
    done.
Qed.

Section Constructor.

Variable np_load : path → outcome ndarray.
Variable np_stack_axis2 : list ndarray → outcome ndarray.
Variable image_to_tensor : ndarray → outcome ndarray.
Variable to_numpy : sample → outcome sample.
Variable pad_resize : Z → Z * Z → value → value → outcome sample.

Lemma init_Ret fs stack_num spec_classes img_size rois roi_error_range
      train_transform valid_transform test_transform
      train_case valid_case test_case self :
  __init__ np_load np_stack_axis2 image_to_tensor to_numpy pad_resize
           fs stack_num spec_classes img_size rois roi_error_range
           train_transform valid_transform test_transform
           train_case valid_case test_case = Ret self →
  built self ∧
  _stack_num self = stack_num ∧
  _rois self = rois ∧
  _spec_classes self = default [0; 1; 2] spec_classes ∧
  length (_spec_classes self) = 3%nat ∧
  (∃ names, get_classes_name (_spec_classes self) true = Ret names ∧
            _num_classes self = len names) ∧
  length (all_nums self) = length ((train_case ++ valid_case) ++ test_case).
Proof.
  unfold __init__. intros H.
  inv_bind_as H spec Hspec.
  inv_bind_as H self1 Hdata.
  inv_bind_as H names Hnames.
  destruct (__getitem__ _ _ _ _ _ 0 _) as [r s] eqn:Erun.
  inv_bind_as H data Hr. inv_bind_as H image Himage. inv_bind_as H ch Hch.
  injection H as <-.
  pose proof (reader_obj _ {| obj := _split_subset self1; log := [] |}
                (reader_getitem np_load np_stack_axis2 image_to_tensor
                   to_numpy pad_resize 0)) as Hobj.
  rewrite Erun in Hobj. cbn [snd obj] in Hobj. rewrite Hobj. cbn.
  pose proof (get_data_built _ _ _ _ _ _ Hdata) as Hb.
  apply get_data_Ret in Hdata
    as (ti & tl & tn & vi & vl & vn & si & sl & sn & Ht & Hv & Hs & _ & _ & _
        & _ & _ & _ & Htn & Hvn & Hsn & _ & Hro & Hst & Hsp).
  cbn in Hro, Hst, Hsp, Ht, Hv, Hs.
  assert (length spec = 3%nat ∧ spec = default [0; 1; 2] spec_classes) as [Hl3 Hdef].
  { destruct spec_classes as [sc|]; cbn in Hspec.
    - inv_bind_as Hspec u Hu. injection Hspec as <-.
      apply assert_Ret_inv, bool_decide_eq_true in Hu. rename Hu into Ha. cbn. unfold len in Ha.
      cbn in Ha. split; [lia | done].
    - by injection Hspec as <-. }
  split_and!.
  - by eapply built_ext; [..|exact Hb].
  - done.
  - done.
  - by rewrite Hsp.
  - by rewrite Hsp.
  - exists names. split; [|done]. by rewrite <- Hnames.
  - unfold all_nums. cbn. rewrite Htn, Hvn, Hsn. rewrite !length_app.
    apply read_npy_inv in Ht as [_ <-]. apply read_npy_inv in Hv as [_ <-].
    apply read_npy_inv in Hs as [_ <-]. done.
Qed.

End Constructor.

Example demo_init_ok : demo_init = Ret demo.
Proof. vm_compute. reflexivity. Qed.

(** ** Logs of a windowed read *)

Lemma img_refs_app (l k : list event) : img_refs (l ++ k) = img_refs l ++ img_refs k.
Proof. unfold img_refs. apply omap_app. Qed.

Lemma img_refs_window_events (self : KiTS19) (lo hi : Z) (js : list Z) :
  img_refs (window_events self lo hi js) = clamp lo hi <$> js.
Proof.
  unfold window_events. induction js as [|i js IH]; [done|].
  cbn [fmap list_fmap concat]. rewrite img_refs_app, IH. done.
Qed.

Lemma img_refs_label_events (self : KiTS19) (idx : Z) :
  img_refs (label_events self idx) = [].
Proof. done. Qed.

Lemma filter_label_window_events (self : KiTS19) (lo hi : Z) (js : list Z) :
  built self → 0 ≤ lo → lo < hi → hi ≤ len (_imgs self) →
  Forall (λ e, is_label_event e = false) (window_events self lo hi js).
Proof.
  intros Hb H0 Hlt Hhi. unfold window_events.
  induction js as [|i js IH]; [constructor|].
  cbn [fmap list_fmap concat]. apply Forall_app. split; [|done].
  unfold slice_events. repeat constructor. cbn.
  pose proof (clamp_in_range lo hi i Hlt) as Hc.
  destruct (getitem_in_range (_imgs self) (clamp lo hi i)) as (p & Hp & _); [lia|].
  rewrite (list_lookup_total_correct _ _ _ Hp).
  apply bool_decide_eq_false. intros Hseg.
  pose proof (built_imgs_dir _ Hb) as Him.
  rewrite Forall_lookup in Him. specialize (Him _ _ Hp).
  unfold in_dir in *. congruence.
Qed.

Lemma filter_all_false {A} (f : A → bool) (l : list A) :
  Forall (λ x, f x = false) l → filter (λ x, f x) l = [].
Proof.
  induction 1 as [|x l Hx _ IH]; [done|].
  rewrite filter_cons. rewrite Hx. cbn. done.
Qed.

Lemma boundary_lookup (self : KiTS19) (c : Z) :
  built self → 0 ≤ c ≤ len (all_nums self) →
  _case_slice_indices self !! Z.to_nat c = Some (boundary (all_nums self) c).
Proof.
  intros Hb Hc. rewrite (built_csi _ Hb).
  apply case_slice_indices_lookup. unfold len in Hc. lia.
Qed.

Lemma built_test_range (self : KiTS19) (idx : Z) :
  built self → idx ∈ _test_indices self → 0 ≤ idx < len (_imgs self).
Proof.
  intros Hb Hin. rewrite (built_test _ Hb), elem_of_seqZ in Hin.
  rewrite <- (built_total _ Hb). unfold all_nums. rewrite !sum_Z_app.
  pose proof (built_nonneg _ Hb) as Hnn. unfold all_nums in Hnn.
  apply Forall_app in Hnn as [Hnn H3]. apply Forall_app in Hnn as [H1 H2].
  apply sum_Z_nonneg in H1, H2, H3. lia.
Qed.

Lemma built_train_valid_range (self : KiTS19) (idx : Z) :
  built self → idx ∈ _train_indices self ∨ idx ∈ _valid_indices self →
  0 ≤ idx < len (_imgs self) ∧ idx ∉ _test_indices self.
Proof.
  intros Hb Hin.
  rewrite (built_train _ Hb), (built_valid _ Hb), !elem_of_seqZ in Hin.
  rewrite (built_test _ Hb), elem_of_seqZ.
  rewrite <- (built_total _ Hb). unfold all_nums. rewrite !sum_Z_app.
  pose proof (built_nonneg _ Hb) as Hnn. unfold all_nums in Hnn.
  apply Forall_app in Hnn as [Hnn H3]. apply Forall_app in Hnn as [H1 H2].
  apply sum_Z_nonneg in H1, H2, H3. lia.
Qed.

(** ** ROI trimming *)

Lemma lookup_key_Some `{Countable K} {V} (d : gmap K V) (k : K) (v : V) :
  d !! k = Some v → lookup_key d k = Ret v.
Proof. unfold lookup_key. by intros ->. Qed.

Lemma roi_bounds_table (table : roi_table) (e case n : Z)
    (entry : gmap string roi_record) (roi : roi_record) (lo hi : Z) :
  table !! case_key case = Some entry →
  entry !! "kidney"%string = Some roi →
  roi !! "min_z"%string = Some lo → roi !! "max_z"%string = Some hi →
  roi_bounds (Some table) e case n = Ret (Z.max 0 (lo - e), Z.min n (hi + e)).
Proof.
  intros He Hk Hlo Hhi. unfold roi_bounds.
  rewrite (lookup_key_Some _ _ _ He). cbn.
  rewrite (lookup_key_Some _ _ _ Hk). cbn.
  rewrite (lookup_key_Some _ _ _ Hlo). cbn.
  rewrite (lookup_key_Some _ _ _ Hhi). done.
Qed.

Lemma read_npy_one_test (rois : option roi_table) (e : Z) (fs : filesystem)
    (case a b : Z) :
  fs_exists fs [case_key case; "imaging"%string] = true →
  roi_bounds rois e case
    (len (sorted (glob_npy fs [case_key case; "imaging"%string]))) = Ret (a, b) →
  _read_npy rois e fs [case] true
  = Ret (slice (sorted (glob_npy fs [case_key case; "imaging"%string])) a b, [],
         [len (slice (sorted (glob_npy fs [case_key case; "imaging"%string])) a b)]).
Proof.
  intros Hex Hb. unfold _read_npy, for_fold, _read_npy_case. cbn [app].
  rewrite Hex. cbn. rewrite Hb. done.
Qed.

Lemma read_npy_one_imgs (rois : option roi_table) (e : Z) (fs : filesystem)
    (case a b : Z) (is_test : bool) imgs labels nums :
  roi_bounds rois e case
    (len (sorted (glob_npy fs [case_key case; "imaging"%string]))) = Ret (a, b) →
  _read_npy rois e fs [case] is_test = Ret (imgs, labels, nums) →
  imgs = slice (sorted (glob_npy fs [case_key case; "imaging"%string])) a b ∧
  nums = [len imgs].
Proof.
  intros Hb H. unfold _read_npy, for_fold in H.
  inv_bind_as H acc Hacc. injection H as ->.
  apply read_npy_case_Ret in Hacc as (a' & b' & ci & Hb' & -> & -> & -> & _).
  rewrite Hb in Hb'. injection Hb' as <- <-. done.
Qed.

(** C5 (as amended): for a case with an ROI record [{min_z, max_z}] the
    visible slice count never exceeds the raw slice count, for every record
    and every error range; when [max_z + roi_error_range >= 0] the visible
    slices are exactly the raw slices at positions
    [[max(0, min_z - e), min(raw_slice_count, max_z + e))], and a larger
    error range never shows fewer slices. *)
Theorem roi_trimming (fs : filesystem) (table : roi_table) (e case : Z)
    (entry : gmap string roi_record) (roi : roi_record) (min_z max_z : Z) :
  table !! case_key case = Some entry →
  entry !! "kidney"%string = Some roi →
  roi !! "min_z"%string = Some min_z → roi !! "max_z"%string = Some max_z →
  fs_exists fs [case_key case; "imaging"%string] = true →
  let raw := sorted (glob_npy fs [case_key case; "imaging"%string]) in
  ∃ visible,
    _read_npy (Some table) e fs [case] true = Ret (visible, [], [len visible]) ∧
    (∀ is_test imgs labels nums,
       _read_npy (Some table) e fs [case] is_test = Ret (imgs, labels, nums) →
       imgs = visible ∧ nums = [len visible]) ∧
    len visible ≤ len raw ∧
    (0 ≤ max_z + e →
     let a := Z.max 0 (min_z - e) in
     let b := Z.min (len raw) (max_z + e) in
     len visible = Z.max 0 (b - a) ∧
     (∀ k : nat, visible !! k =
                 if bool_decide (a + Z.of_nat k < b)
                 then raw !! Z.to_nat (a + Z.of_nat k) else None) ∧
     ∀ e2, e ≤ e2 →
       ∃ visible2,
         _read_npy (Some table) e2 fs [case] true = Ret (visible2, [], [len visible2]) ∧
         len visible ≤ len visible2).
Proof.
  intros He Hk Hlo Hhi Hex. cbn zeta.
  set (raw := sorted (glob_npy fs [case_key case; "imaging"%string])).
  pose proof (len_nonneg raw) as Hraw.
  assert (∀ e', roi_bounds (Some table) e' case (len raw)
                = Ret (Z.max 0 (min_z - e'), Z.min (len raw) (max_z + e'))) as Hb.
  { intros e'. by eapply roi_bounds_table. }
  exists (slice raw (Z.max 0 (min_z - e)) (Z.min (len raw) (max_z + e))).
  split; [by apply read_npy_one_test|].
  split.
  { intros is_test imgs labels nums H.
    destruct (read_npy_one_imgs _ _ _ _ _ _ _ _ _ _ (Hb e) H) as [-> ->]. done. }
  split; [apply len_slice_le|].
  intros Hnn. split; [rewrite len_slice_nonneg by lia; lia|].
  split.
  { intros k. rewrite slice_lookup_nonneg by lia.
    by rewrite (Z.min_l (Z.min _ _) (len raw)) by lia. }
  intros e2 He2.
  exists (slice raw (Z.max 0 (min_z - e2)) (Z.min (len raw) (max_z + e2))).
  split; [by apply read_npy_one_test|].
  rewrite !len_slice_nonneg by lia. lia.
Qed.

(** Case 1 of the concrete dataset with ROI [{min_z: 2, max_z: 8}] and
    error range 1: slices 1 to 8 are visible. *)
Lemma roi_trimming_witness :
  ∃ visible,
    _read_npy (Some demo_rois) 1 demo_fs [1] true = Ret (visible, [], [len visible]) ∧
    len visible = 8 ∧
    visible !! 0%nat = Some ["case_00001"; "imaging"; "00001.npy"]%string.
Proof.
  destruct (roi_trimming demo_fs demo_rois 1 1 (roi_entry 2 8)
              {[ "min_z"%string := 2; "max_z"%string := 8 ]} 2 8)
    as (visible & Hrun & _ & _ & Hrange).
  - vm_compute. reflexivity.
  - vm_compute. reflexivity.
  - vm_compute. reflexivity.
  - vm_compute. reflexivity.
  - vm_compute. reflexivity.
  - exists visible. split; [exact Hrun|].
    destruct Hrange as (Hlen & Hlk & _); [lia|].
    split.
    + rewrite Hlen. vm_compute. reflexivity.
    + rewrite (Hlk 0%nat). vm_compute. reflexivity.
Defined.

(** C5 as stated fails when the upper bound of the record is negative: with
    ten raw slices, [{min_z: -8, max_z: -5}] and error range 0 the range
    [[max(0, -8), min(10, -5))] is empty, yet [case_imgs[0:-5]] keeps the
    first five slices; and going from error range 4 to 5 the count drops
    from nine to zero. *)
Lemma roi_below_zero_wraps :
  let raw := sorted (glob_npy demo_fs ["case_00001"; "imaging"]%string) in
  len raw = 10 ∧
  below_rois !! "case_00001"%string = Some (roi_entry (-8) (-5)) ∧
  _read_npy (Some below_rois) 0 demo_fs [1] true = Ret (take 5 raw, [], [5]) ∧
  Z.max 0 (Z.min (len raw) (-5 + 0) - Z.max 0 (-8 - 0)) = 0 ∧
  (∃ v4 v5,
     _read_npy (Some below_rois) 4 demo_fs [1] true = Ret (v4, [], [9]) ∧
     _read_npy (Some below_rois) 5 demo_fs [1] true = Ret (v5, [], [0])).
Proof.
  cbn zeta. split; [vm_compute; reflexivity|].
  split; [vm_compute; reflexivity|].
  split; [vm_compute; reflexivity|].
  split; [vm_compute; reflexivity|].
  eexists _, _. split; vm_compute; reflexivity.
Qed.

(** ** Label remapping *)

Lemma elem_of_np_where_eq (label : list Z) (i : Z) (k : nat) :
  k ∈ np_where_eq label i ↔ label !! k = Some i.
Proof.
  unfold np_where_eq. rewrite list_elem_of_fmap. split.
  - intros ([k' x] & -> & Hin). apply list_elem_of_filter in Hin as [Hx Hin].
    apply elem_of_lookup_imap in Hin as (j & y & Heq & Hy).
    injection Heq as -> ->. cbn in *. by subst.
  - intros Hk. exists (k, i). split; [done|].
    apply list_elem_of_filter. split; [done|].
    apply elem_of_lookup_imap. by exists k, i.
Qed.

Lemma assign_mask_lookup (label : list Z) (mask : list nat) (v : Z) (k : nat) :
  assign_mask label mask v !! k
  = (λ x, if decide (k ∈ mask) then v else x) <$> label !! k.
Proof.
  unfold assign_mask. revert label.
  induction mask as [|j mask IH]; intros label; cbn [fold_left].
  - destruct (label !! k); cbn; [|done].
    by rewrite decide_False by apply not_elem_of_nil.
  - rewrite IH. destruct (decide (k = j)) as [->|Hne].
    + destruct (label !! j) as [x|] eqn:Hx.
      * rewrite list_lookup_insert_eq by by eapply lookup_lt_Some.
        cbn. rewrite (decide_True (P := j ∈ j :: mask)) by by left.
        by destruct (decide (j ∈ mask)).
      * rewrite list_insert_ge by by apply lookup_ge_None. by rewrite Hx.
    + rewrite list_lookup_insert_ne by done.
      destruct (label !! k); cbn; [|done]. f_equal.
      destruct (decide (k ∈ mask)) as [Hin|Hnin].
      * by rewrite decide_True by by right.
      * rewrite decide_False; [done|]. by intros [?|?]%elem_of_cons.
Qed.

Lemma assign_mask_length (label : list Z) (mask : list nat) (v : Z) :
  length (assign_mask label mask v) = length label.
Proof.
  unfold assign_mask. revert label.
  induction mask as [|j mask IH]; intros label; cbn [fold_left]; [done|].
  by rewrite IH, length_insert.
Qed.

Section Distinct.
Context `{EqDecision A}.

Lemma distinct_fold_elem (l acc : list A) (x : A) :
  x ∈ fold_left keep l acc ↔ x ∈ acc ∨ x ∈ l.
Proof.
  revert acc. induction l as [|y l IH]; intros acc; cbn [fold_left].
  - rewrite elem_of_nil. tauto.
  - rewrite IH, elem_of_cons. unfold keep.
    destruct (contains y acc) eqn:E.
    + apply contains_true in E. split; [tauto|].
      intros [?|[->|?]]; tauto.
    + rewrite elem_of_app, list_elem_of_singleton. tauto.
Qed.

Lemma distinct_fold_NoDup (l acc : list A) :
  NoDup acc → NoDup (fold_left keep l acc).
Proof.
  revert acc. induction l as [|y l IH]; intros acc Hnd; cbn [fold_left]; [done|].
  apply IH. unfold keep. destruct (contains y acc) eqn:E; [done|].
  apply contains_false in E. apply NoDup_app. split; [done|].
  split; [|apply NoDup_singleton].
  intros x Hx ->%list_elem_of_singleton. done.
Qed.

Lemma distinct_in_order_elem (l : list A) (x : A) :
  x ∈ distinct_in_order l ↔ x ∈ l.
Proof.
  unfold distinct_in_order. fold (@keep A _).
  rewrite distinct_fold_elem, elem_of_nil. tauto.
Qed.

Lemma distinct_in_order_NoDup (l : list A) : NoDup (distinct_in_order l).
Proof.
  unfold distinct_in_order. fold (@keep A _).
  apply distinct_fold_NoDup, NoDup_nil_2.
Qed.

Lemma index_elem (l : list A) (x : A) :
  x ∈ l → ∃ i, index l x = Ret i ∧ 0 ≤ i < len l ∧ l !! Z.to_nat i = Some x.
Proof.
  induction l as [|y l IH]; intros Hin; [by apply elem_of_nil in Hin|].
  cbn [index]. destruct (decide (y = x)) as [->|Hne].
  - exists 0. unfold len. cbn. split; [done|]. split; [lia|done].
  - destruct IH as (i & -> & Hi & Hl).
    { apply elem_of_cons in Hin as [?|?]; [congruence|done]. }
    exists (i + 1). unfold len in *. cbn. split; [done|]. split; [lia|].
    replace (Z.to_nat (i + 1)) with (S (Z.to_nat i)) by lia. done.
Qed.

End Distinct.

Lemma distinct_in_order_size (l : list Z) :
  length (distinct_in_order l) = size (list_to_set l : gset Z).
Proof.
  assert ((list_to_set l : gset Z) = list_to_set (distinct_in_order l)) as ->.
  { apply set_eq. intros x.
    by rewrite !elem_of_list_to_set, distinct_in_order_elem. }
  symmetry. apply (size_list_to_set (C := gset Z)), distinct_in_order_NoDup.
Qed.

(** The value written over canonical class [c]. *)
Lemma remap_label_three (s0 s1 s2 : Z) (label : list Z) :
  [s0; s1; s2] ≠ [0; 1; 2] →
  ∃ v0 v1 v2 out,
    index (distinct_in_order [s0; s1; s2]) s0 = Ret v0 ∧
    index (distinct_in_order [s0; s1; s2]) s1 = Ret v1 ∧
    index (distinct_in_order [s0; s1; s2]) s2 = Ret v2 ∧
    remap_label [s0; s1; s2] label = Ret out ∧
    length out = length label ∧
    ∀ k x, label !! k = Some x →
           out !! k = Some (if decide (x = 0) then v0
                            else if decide (x = 1) then v1
                            else if decide (x = 2) then v2 else x).
Proof.
  intros Hne.
  destruct (index_elem (distinct_in_order [s0; s1; s2]) s0) as (v0 & H0 & _).
  { apply distinct_in_order_elem. repeat constructor. }
  destruct (index_elem (distinct_in_order [s0; s1; s2]) s1) as (v1 & H1 & _).
  { apply distinct_in_order_elem. repeat constructor. }
  destruct (index_elem (distinct_in_order [s0; s1; s2]) s2) as (v2 & H2 & _).
  { apply distinct_in_order_elem. repeat constructor. }
  exists v0, v1, v2.
  exists (assign_mask (assign_mask (assign_mask label (np_where_eq label 0) v0)
                                   (np_where_eq label 1) v1)
                      (np_where_eq label 2) v2).
  split; [done|]. split; [done|]. split; [done|].
  split.
  { unfold remap_label. rewrite bool_decide_eq_true_2 by done.
    cbn [get_classes_name negb mbind outcome_bind].
    change (range 0 (len classes_name)) with [0; 1; 2].
    cbn [fmap list_fmap zip zip_with for_fold].
    rewrite H0. cbn [mbind outcome_bind]. rewrite H1. cbn [mbind outcome_bind].
    rewrite H2. done. }
  split; [by rewrite !assign_mask_length|].
  intros k x Hx. rewrite !assign_mask_lookup, Hx. cbn. f_equal.
  destruct (decide (k ∈ np_where_eq label 0)) as [E0|E0];
    destruct (decide (k ∈ np_where_eq label 1)) as [E1|E1];
    destruct (decide (k ∈ np_where_eq label 2)) as [E2|E2];
    rewrite elem_of_np_where_eq, Hx in E0, E1, E2;
    repeat case_decide; congruence.
Qed.



(** ** Class names *)

Lemma distinct_fold_fmap {A B} `{EqDecision A, EqDecision B}
    (f : A → B) (l acc : list A) :
  (∀ x y, x ∈ acc ++ l → y ∈ acc ++ l → f x = f y → x = y) →
  fold_left keep (f <$> l) (f <$> acc) = f <$> fold_left keep l acc.
Proof.
  revert acc. induction l as [|y l IH]; intros acc Hinj; [done|].
  cbn [fmap list_fmap fold_left].
  assert (keep (f <$> acc) (f y) = f <$> keep acc y) as ->.
  { unfold keep. destruct (contains y acc) eqn:E.
    - apply contains_true in E.
      rewrite (proj2 (contains_true _ _)); [done|]. by apply list_elem_of_fmap_2.
    - apply contains_false in E. rewrite (proj2 (contains_false _ _)).
      + by rewrite fmap_app.
      + intros (z & Hz & Hin)%list_elem_of_fmap.
        apply E. rewrite (Hinj y z); [done| | |done];
          rewrite elem_of_app, ?elem_of_cons; tauto. }
  assert (∀ x, x ∈ keep acc y ++ l → x ∈ acc ++ y :: l) as Hsub.
  { intros x. unfold keep. destruct (contains y acc);
      rewrite !elem_of_app, ?elem_of_cons, ?elem_of_nil; tauto. }
  apply IH. intros x z Hx Hz. apply Hinj; by apply Hsub.
Qed.

Lemma mapM_cons_outcome {A B} (f : A → outcome B) (x : A) (l : list A) :
  mapM f (x :: l) = (y ← f x; k ← mapM f l; mret (y :: k)).
Proof. reflexivity. Qed.

Lemma picked_names (spec_classes : list Z) :
  Forall (λ v, 0 ≤ v ≤ 2) spec_classes →
  mapM (getitem classes_name) spec_classes
  = Ret ((λ v, classes_name !!! Z.to_nat v) <$> spec_classes).
Proof.
  induction 1 as [|v l Hv _ IH]; [done|].
  rewrite mapM_cons_outcome, IH.
  assert (getitem classes_name v = Ret (classes_name !!! Z.to_nat v)) as ->.
  { assert (v = 0 ∨ v = 1 ∨ v = 2) as [->|[->| ->]] by lia; reflexivity. }
  done.
Qed.

Lemma get_classes_name_count (spec_classes : list Z) :
  Forall (λ v, 0 ≤ v ≤ 2) spec_classes →
  ∃ names, get_classes_name spec_classes true = Ret names ∧
           length names = length (distinct_in_order spec_classes).
Proof.
  intros Hr. unfold get_classes_name. cbn [negb].
  rewrite picked_names by done. cbn [mbind outcome_bind].
  eexists. split; [done|].
  unfold distinct_in_order. fold (@keep string _) (@keep Z _).
  change (@nil string) with ((λ v, classes_name !!! Z.to_nat v) <$> @nil Z).
  rewrite distinct_fold_fmap; [by rewrite length_fmap|].
  intros x y Hx Hy. rewrite app_nil_l in Hx, Hy.
  rewrite Forall_forall in Hr. pose proof (Hr x Hx). pose proof (Hr y Hy).
  assert (x = 0 ∨ x = 1 ∨ x = 2) as [->|[->| ->]] by lia;
    assert (y = 0 ∨ y = 1 ∨ y = 2) as [->|[->| ->]] by lia;
    vm_compute; intros E; first [reflexivity | inversion E].
Qed.

Section WindowRefs.

Variable np_load : path → outcome ndarray.
Variable np_stack_axis2 : list ndarray → outcome ndarray.

Lemma stack_refs_clamped (self : KiTS19) (idx : Z) (lg : list event) :
  built self →
  0 ≤ idx < len (_imgs self) → 0 < _stack_num self →
  let csi := _case_slice_indices self in
  let s := {| obj := self; log := lg |} in
  ∃ c lo hi evs r,
    img_idx_to_case_idx idx s = (Ret c, s) ∧
    csi !! Z.to_nat c = Some lo ∧ csi !! Z.to_nat (c + 1) = Some hi ∧
    lo ≤ idx < hi ∧
    get_stack_img np_load np_stack_axis2 idx s
      = (r, {| obj := self; log := lg ++ evs |}) ∧
    Forall (λ j, lo ≤ j < hi) (img_refs evs) ∧
    img_refs evs `prefix_of` (clamp lo hi <$> window self idx) ∧
    (is_Ret r → img_refs evs = clamp lo hi <$> window self idx) ∧
    (∀ i, i < lo → clamp lo hi i = lo) ∧
    (∀ i, hi ≤ i → clamp lo hi i = hi - 1) ∧
    (∀ i, lo ≤ i < hi → clamp lo hi i = i) ∧
    idx ∈ window self idx ∧
    len (window self idx) = 2 * (_stack_num self `div` 2) + 1.
Proof.
  intros Hb Hidx Hpos. cbn zeta.
  destruct (built_owner self idx lg Hb Hidx)
    as (c & Hc & Hin & Hlo0 & HhiN & _ & _ & Hcase & Huniq).
  destruct (get_stack_img_run np_load np_stack_axis2 self lg idx Hb Hidx)
    as (c0 & n & lab & r & Hcase0 & Hn & Hrun & Hlab & Hret & _).
  cbn zeta in *.
  assert (c0 = c) as -> by congruence.
  set (lo := boundary (all_nums self) c) in *.
  set (hi := boundary (all_nums self) (c + 1)) in *.
  assert (img_refs lab = []) as Hlabrefs.
  { by destruct Hlab as [->|[_ ->]]. }
  assert (img_refs (window_events self lo hi (take n (window self idx)) ++ lab)
          = take n (clamp lo hi <$> window self idx)) as Hrefs.
  { rewrite img_refs_app, img_refs_window_events, Hlabrefs, app_nil_r.
    by rewrite fmap_take. }
  assert (0 ≤ _stack_num self `div` 2) by (apply Z.div_pos; lia).
  exists c, lo, hi, (window_events self lo hi (take n (window self idx)) ++ lab), r.
  split; [done|].
  split; [apply boundary_lookup; [done|lia]|].
  split; [apply boundary_lookup; [done|lia]|].
  split; [done|]. split; [done|].
  split.
  { rewrite Hrefs. apply Forall_take, Forall_fmap, Forall_forall.
    intros i _. apply clamp_in_range. lia. }
  split; [rewrite Hrefs; apply prefix_take|].
  split.
  { intros [d ->]. destruct (Hret d eq_refl) as [-> _].
    rewrite Hrefs. rewrite take_ge; [done|]. by rewrite length_fmap. }
  unfold clamp.
  split; [intros i Hi; destruct (Z.ltb_spec i lo); lia|].
  split.
  { intros i Hi. destruct (Z.ltb_spec i lo); [lia|].
    destruct (Z.leb_spec hi i); lia. }
  split.
  { intros i Hi. destruct (Z.ltb_spec i lo); [lia|].
    destruct (Z.leb_spec hi i); lia. }
  unfold window, range, len. rewrite elem_of_seqZ, length_seqZ. lia.
Qed.

End WindowRefs.

(** ** Reads of a constructed dataset *)

Section Constructed.

Variable np_load : path → outcome ndarray.
Variable np_stack_axis2 : list ndarray → outcome ndarray.
Variable image_to_tensor : ndarray → outcome ndarray.
Variable to_numpy : sample → outcome sample.
Variable pad_resize : Z → Z * Z → value → value → outcome sample.
Variable fs : filesystem.
Variables (stack_num : Z) (spec_classes : option (list Z)) (img_size : Z * Z).
Variables (rois : option roi_table) (roi_error_range : Z).
Variables train_transform valid_transform test_transform : option (sample → outcome sample).
Variables train_case valid_case test_case : list Z.
Variable self : KiTS19.

Hypothesis constructed :
  __init__ np_load np_stack_axis2 image_to_tensor to_numpy pad_resize
           fs stack_num spec_classes img_size rois roi_error_range
           train_transform valid_transform test_transform
           train_case valid_case test_case = Ret self.

Lemma constructed_built : built self.
Proof. by destruct (init_Ret _ _ _ _ _ _ _ _ _ _ _ _ _ _ _ _ _ _ constructed). Qed.

(** C1 (as amended): for every global index [idx] with
    [0 <= idx < N], [img_idx_to_case_idx] returns, without touching
    the object or the log, the unique case ordinal [c] with
    [case_boundaries[c] <= idx < case_boundaries[c+1]]; for every [idx]
    outside [[0, N)] it raises nothing and returns ordinal [0]. *)
Theorem img_idx_to_case_idx_spec (idx : Z) (lg : list event) :
  let csi := _case_slice_indices self in
  let s := {| obj := self; log := lg |} in
  (0 ≤ idx < len (_imgs self) →
   ∃ c lo hi,
     img_idx_to_case_idx idx s = (Ret c, s) ∧
     0 ≤ c < len csi - 1 ∧
     csi !! Z.to_nat c = Some lo ∧ csi !! Z.to_nat (c + 1) = Some hi ∧
     lo ≤ idx < hi ∧
     ∀ c' lo' hi', 0 ≤ c' →
       csi !! Z.to_nat c' = Some lo' → csi !! Z.to_nat (c' + 1) = Some hi' →
       lo' ≤ idx < hi' → c' = c) ∧
  (idx < 0 ∨ len (_imgs self) ≤ idx → img_idx_to_case_idx idx s = (Ret 0, s)).
Proof.
  pose proof constructed_built as Hb. cbn zeta.
  assert (len (_case_slice_indices self) - 1 = len (all_nums self)) as Hlen.
  { rewrite (built_csi _ Hb). unfold len. rewrite case_slice_indices_length. lia. }
  split.
  - intros Hidx.
    destruct (built_owner self idx lg Hb Hidx)
      as (c & Hc & Hin & _ & _ & _ & _ & Hrun & Huniq).
    exists c, (boundary (all_nums self) c), (boundary (all_nums self) (c + 1)).
    split; [done|]. split; [lia|].
    split; [apply boundary_lookup; [done|lia]|].
    split; [apply boundary_lookup; [done|lia]|].
    split; [done|].
    intros c' lo' hi' Hc' Hlo' Hhi' Hin'.
    assert (0 ≤ c' < len (all_nums self)) as Hr.
    { apply lookup_lt_Some in Hhi'. unfold len in *. lia. }
    rewrite boundary_lookup in Hlo' by (done || lia).
    rewrite boundary_lookup in Hhi' by (done || lia).
    injection Hlo' as <-. injection Hhi' as <-. by apply Huniq.
  - intros Hout. unfold img_idx_to_case_idx. mrun.
    rewrite (built_csi _ Hb), case_loop_outside; [done|apply (built_nonneg _ Hb)|].
    by rewrite (built_total _ Hb).
Qed.

(** C3: for every valid center index [idx], owned by case [c] with slice
    range [[lo, hi)], and every positive stack width, every index at which
    [get_stack_img] reads [self._imgs] lies in [[lo, hi)]: the indices read
    are the window positions with those below [lo] replaced by [lo] and
    those at or above [hi] replaced by [hi - 1] (all of them when the
    read returns, a prefix when a load fails), so positions past an edge
    repeat the edge slice. *)
Theorem get_stack_img_window_clamped (idx : Z) (lg : list event) :
  0 ≤ idx < len (_imgs self) → 0 < _stack_num self →
  let csi := _case_slice_indices self in
  let s := {| obj := self; log := lg |} in
  ∃ c lo hi evs r,
    img_idx_to_case_idx idx s = (Ret c, s) ∧
    csi !! Z.to_nat c = Some lo ∧ csi !! Z.to_nat (c + 1) = Some hi ∧
    lo ≤ idx < hi ∧
    get_stack_img np_load np_stack_axis2 idx s
      = (r, {| obj := self; log := lg ++ evs |}) ∧
    Forall (λ j, lo ≤ j < hi) (img_refs evs) ∧
    img_refs evs `prefix_of` (clamp lo hi <$> window self idx) ∧
    (is_Ret r → img_refs evs = clamp lo hi <$> window self idx) ∧
    (∀ i, i < lo → clamp lo hi i = lo) ∧
    (∀ i, hi ≤ i → clamp lo hi i = hi - 1) ∧
    (∀ i, lo ≤ i < hi → clamp lo hi i = i) ∧
    idx ∈ window self idx ∧
    len (window self idx) = 2 * (_stack_num self `div` 2) + 1.
Proof. apply stack_refs_clamped, constructed_built. Qed.

(** C7: for a global index of the test subset the log of [get_stack_img]
    holds no read of [self._labels] and no load from a segmentation
    directory, and the returned sample has [label = None]; for a global
    index of the train or validation subset the label accesses are one
    read of [self._labels[idx]] and one load of that file, and the
    returned label is that one array, unstacked.  With loaders that do not
    fail and no ROI table the read returns. *)
Theorem get_stack_img_label (idx : Z) (lg : list event) :
  let s := {| obj := self; log := lg |} in
  (idx ∈ _test_indices self →
   ∃ evs r,
     get_stack_img np_load np_stack_axis2 idx s
       = (r, {| obj := self; log := lg ++ evs |}) ∧
     Forall (λ e, is_label_event e = false) evs ∧
     ∀ d, r = Ret d → d !! "label"%string = Some VNone) ∧
  (idx ∈ _train_indices self ∨ idx ∈ _valid_indices self →
   ∃ lp evs r,
     _labels self !! Z.to_nat idx = Some lp ∧ in_dir "segmentation" lp ∧
     get_stack_img np_load np_stack_axis2 idx s
       = (r, {| obj := self; log := lg ++ evs |}) ∧
     filter (λ e, is_label_event e) evs `prefix_of` [LabelRef idx; NpLoad lp] ∧
     (∀ d, r = Ret d →
        filter (λ e, is_label_event e) evs = [LabelRef idx; NpLoad lp] ∧
        ∃ a, np_load lp = Ret a ∧ d !! "label"%string = Some (VArray a)) ∧
     ((∀ p, is_Ret (np_load p)) → (∀ l, is_Ret (np_stack_axis2 l)) →
      _rois self = None → is_Ret r)).
Proof.
  pose proof constructed_built as Hb. cbn zeta. split.
  - intros Htest. pose proof (built_test_range _ _ Hb Htest) as Hidx.
    destruct (built_owner self idx lg Hb Hidx)
      as (c & Hc & Hin & Hlo0 & HhiN & _ & _ & Hcase & _).
    destruct (get_stack_img_run np_load np_stack_axis2 self lg idx Hb Hidx)
      as (c0 & n & lab & r & Hcase0 & Hn & Hrun & Hlab & Hret & _).
    cbn zeta in *. assert (c0 = c) as -> by congruence.
    destruct Hlab as [->|[Hnt _]]; [|done].
    eexists _, r. split; [exact Hrun|]. split.
    + rewrite app_nil_r. apply filter_label_window_events; [done|lia..].
    + intros d ->. destruct (Hret d eq_refl) as (_ & arrs & img & label & roi & _ & _ & -> & Hl & _).
      rewrite (proj2 (contains_true _ _) Htest) in Hl. destruct Hl as [-> _].
      done.
  - intros Htv. destruct (built_train_valid_range _ _ Hb Htv) as [Hidx Hnt].
    destruct (built_owner self idx lg Hb Hidx)
      as (c & Hc & Hin & Hlo0 & HhiN & _ & _ & Hcase & _).
    destruct (get_stack_img_run np_load np_stack_axis2 self lg idx Hb Hidx)
      as (c0 & n & lab & r & Hcase0 & Hn & Hrun & Hlab & Hret & Htot).
    cbn zeta in *. assert (c0 = c) as -> by congruence.
    destruct (getitem_in_range (_labels self) idx) as (lp & Hlp & _);
      [by apply built_not_test|].
    assert (in_dir "segmentation" lp) as Hseg.
    { pose proof (built_labels_dir _ Hb) as Hl. rewrite Forall_lookup in Hl. eauto. }
    assert (label_events self idx = [LabelRef idx; NpLoad lp]) as Hev.
    { unfold label_events. by rewrite (list_lookup_total_correct _ _ _ Hlp). }
    assert (filter (λ e, is_label_event e) [LabelRef idx; NpLoad lp]
            = [LabelRef idx; NpLoad lp]) as Hfl.
    { rewrite filter_cons. cbn [is_label_event]. rewrite decide_True by done.
      rewrite filter_cons. cbn [is_label_event].
      rewrite bool_decide_eq_true_2 by done. by rewrite decide_True by done. }
    assert (filter (λ e, is_label_event e)
              (window_events self (boundary (all_nums self) c)
                 (boundary (all_nums self) (c + 1)) (take n (window self idx))) = [])
      as Hfw.
    { apply filter_all_false, filter_label_window_events; [done|lia..]. }
    exists lp. eexists _, r. split; [done|]. split; [done|]. split; [exact Hrun|].
    rewrite filter_app, Hfw, app_nil_l.
    split.
    { destruct Hlab as [->|[_ ->]]; [apply prefix_nil|].
      rewrite Hev, Hfl. done. }
    split; [|done].
    intros d ->. destruct (Hret d eq_refl) as (_ & arrs & img & label & roi & _ & _ & -> & Hl & _).
    rewrite (proj2 (contains_false _ _) Hnt) in Hl.
    destruct Hl as (a & Ha & -> & ->).
    rewrite (list_lookup_total_correct _ _ _ Hlp) in Ha.
    rewrite Hev, Hfl. split; [done|]. by exists a.
Qed.

(** C10 (as amended): for a dataset constructed with a non-identity
    [spec_classes] (of length three, by the constructor's assertion),
    every remapped pixel whose original value was 0, 1 or 2 lies in
    [[0, D)], [D] the number of distinct values of [spec_classes]; and
    when every value of [spec_classes] is 0, 1 or 2, [D] is
    [num_classes]. *)
Theorem remapped_labels_below_num_classes (label : list Z) :
  _spec_classes self ≠ [0; 1; 2] →
  let D := len (distinct_in_order (_spec_classes self)) in
  D = Z.of_nat (size (list_to_set (_spec_classes self) : gset Z)) ∧
  (∃ out,
     remap_label (_spec_classes self) label = Ret out ∧
     ∀ k x, label !! k = Some x → 0 ≤ x ≤ 2 →
            ∃ v, out !! k = Some v ∧ 0 ≤ v < D) ∧
  (Forall (λ v, 0 ≤ v ≤ 2) (_spec_classes self) → _num_classes self = D).
Proof.
  intros Hne. cbn zeta.
  destruct (init_Ret _ _ _ _ _ _ _ _ _ _ _ _ _ _ _ _ _ _ constructed)
    as (_ & _ & _ & _ & Hl3 & (names & Hnames & Hnum) & _).
  split; [unfold len; by rewrite distinct_in_order_size|].
  split.
  - destruct (_spec_classes self) as [|s0 [|s1 [|s2 [|]]]] eqn:Espec; try done.
    destruct (remap_label_three s0 s1 s2 label Hne)
      as (v0 & v1 & v2 & out & H0 & H1 & H2 & Hrun & _ & Hpx).
    exists out. split; [done|]. intros k x Hx Hr. rewrite (Hpx k x Hx).
    assert (∀ s v, index (distinct_in_order [s0; s1; s2]) s = Ret v →
                   0 ≤ v < len (distinct_in_order [s0; s1; s2])) as Hbound.
    { clear. intros s v. generalize (distinct_in_order [s0; s1; s2]). intros l.
      revert v. induction l as [|y l IH]; intros v Hv; cbn [index] in Hv; [done|].
      destruct (decide (y = s)).
      - injection Hv as <-. unfold len. cbn. lia.
      - inv_bind_as Hv i Hi. injection Hv as <-.
        specialize (IH _ Hi). unfold len in *. cbn. lia. }
    assert (x = 0 ∨ x = 1 ∨ x = 2) as [->|[->| ->]] by lia; cbn [decide].
    + exists v0. split; [done|]. by eapply Hbound.
    + exists v1. split; [done|]. by eapply Hbound.
    + exists v2. split; [done|]. by eapply Hbound.
  - intros Hr. destruct (get_classes_name_count _ Hr) as (names' & Hn' & Hlen).
    rewrite Hnames in Hn'. injection Hn' as <-.
    rewrite Hnum. unfold len. by rewrite Hlen.
Qed.

End Constructed.

(** ** Reads do not write *)

Section Frame.

Variable np_load : path → outcome ndarray.
Variable np_stack_axis2 : list ndarray → outcome ndarray.
Variable image_to_tensor : ndarray → outcome ndarray.
Variable to_numpy : sample → outcome sample.
Variable pad_resize : Z → Z * Z → value → value → outcome sample.

Local Abbreviation read := (get_stack_img np_load np_stack_axis2).
Local Abbreviation get :=
  (__getitem__ np_load np_stack_axis2 image_to_tensor to_numpy pad_resize).


End Frame.

(** ** The tables built by [_get_data] *)

Lemma seqZ_app_range (a b c : Z) :
  a ≤ b → b ≤ c → range a b ++ range b c = range a c.
Proof.
  intros Hab Hbc. unfold range.
  replace (c - a) with ((b - a) + (c - b)) by lia.
  rewrite seqZ_app by lia. do 2 f_equal. lia.
Qed.

(** C4: after [_get_data] the boundary table starts at [0], each entry adds
    the slice count of the next case, the table is non-decreasing and ends
    at [N = len(self._imgs)]; the three subset index lists are the
    contiguous ranges [[0, len(train))], [[len(train), len(train) +
    len(valid))] and [[len(train) + len(valid), N)], whose concatenation is
    [range(N)] without repetition. *)
Theorem get_data_tables (self0 : KiTS19) (fs : filesystem)
    (train_case valid_case test_case : list Z) (self : KiTS19) :
  _get_data self0 fs train_case valid_case test_case = Ret self →
  let csi := _case_slice_indices self in
  let nums := all_nums self in
  let N := len (_imgs self) in
  csi !! 0%nat = Some 0 ∧
  length csi = S (length nums) ∧
  length nums = length ((train_case ++ valid_case) ++ test_case) ∧
  (∀ (i : nat) b n, csi !! i = Some b → nums !! i = Some n → csi !! S i = Some (b + n)) ∧
  Forall (λ n, 0 ≤ n) nums ∧
  (∀ (i j : nat) a b, (i ≤ j)%nat → csi !! i = Some a → csi !! j = Some b → a ≤ b) ∧
  last csi = Some N ∧
  ∃ train_imgs train_labels valid_imgs valid_labels test_imgs test_labels,
    _read_npy (_rois self0) (_roi_error_range self0) fs train_case false
      = Ret (train_imgs, train_labels, _train_case_slice_num self) ∧
    _read_npy (_rois self0) (_roi_error_range self0) fs valid_case false
      = Ret (valid_imgs, valid_labels, _valid_case_slice_num self) ∧
    _read_npy (_rois self0) (_roi_error_range self0) fs test_case true
      = Ret (test_imgs, test_labels, _test_case_slice_num self) ∧
    _imgs self = (train_imgs ++ valid_imgs) ++ test_imgs ∧
    let lt := len train_imgs in
    let lv := len valid_imgs in
    lt + lv + len test_imgs = N ∧
    _train_indices self = range 0 lt ∧
    _valid_indices self = range lt (lt + lv) ∧
    _test_indices self = range (lt + lv) N ∧
    _train_indices self ++ _valid_indices self ++ _test_indices self = range 0 N ∧
    NoDup (_train_indices self ++ _valid_indices self ++ _test_indices self) ∧
    (∀ i, 0 ≤ i < N ↔
          i ∈ _train_indices self ∨ i ∈ _valid_indices self ∨ i ∈ _test_indices self) ∧
    (∀ i, ¬ (i ∈ _train_indices self ∧ i ∈ _valid_indices self)) ∧
    (∀ i, ¬ (i ∈ _train_indices self ∧ i ∈ _test_indices self)) ∧
    (∀ i, ¬ (i ∈ _valid_indices self ∧ i ∈ _test_indices self)).
Proof.
  intros H. pose proof (get_data_built _ _ _ _ _ _ H) as Hb. cbn zeta.
  apply get_data_Ret in H
    as (ti & tl & tn & vi & vl & vn & si & sl & sn & Ht & Hv & Hs & Him & _ & _
        & Htr & Hva & Hte & Htn & Hvn & Hsn & _).
  pose proof (built_nonneg _ Hb) as Hnn.
  assert (∀ k : nat, (k ≤ length (all_nums self))%nat →
            _case_slice_indices self !! k = Some (sum_Z (take k (all_nums self)))) as Hlk.
  { intros k Hk. rewrite (built_csi _ Hb). by apply case_slice_indices_lookup. }
  assert (length (_case_slice_indices self) = S (length (all_nums self))) as Hlen.
  { rewrite (built_csi _ Hb). apply case_slice_indices_length. }
  split; [by rewrite Hlk by lia|]. split; [done|].
  split.
  { unfold all_nums. rewrite Htn, Hvn, Hsn, !length_app.
    apply read_npy_inv in Ht as [_ <-]. apply read_npy_inv in Hv as [_ <-].
    apply read_npy_inv in Hs as [_ <-]. done. }
  split.
  { intros i b n Hi Hn. pose proof (lookup_lt_Some _ _ _ Hn) as Hlt.
    rewrite Hlk in Hi by lia. injection Hi as <-.
    rewrite Hlk by lia. erewrite take_S_r by done. rewrite sum_Z_app.
    change (sum_Z [n]) with (n + 0). f_equal. lia. }
  split; [done|].
  split.
  { intros i j a b Hij Hi Hj.
    pose proof (lookup_lt_Some _ _ _ Hj) as Hlt. rewrite Hlen in Hlt.
    rewrite Hlk in Hi by lia. rewrite Hlk in Hj by lia.
    injection Hi as <-. injection Hj as <-. by apply sum_Z_take_mono. }
  split.
  { rewrite last_lookup, Hlen. cbn. rewrite Hlk by lia.
    rewrite firstn_all. f_equal. apply (built_total _ Hb). }
  pose proof (len_nonneg ti). pose proof (len_nonneg vi). pose proof (len_nonneg si).
  assert (len (_imgs self) = len ti + len vi + len si) as HN.
  { rewrite Him, !len_app. lia. }
  assert (_train_indices self = range 0 (len ti)) as Etr.
  { rewrite Htr, slice_seqZ_0; rewrite ?len_app; [done|lia..]. }
  assert (_valid_indices self = range (len ti) (len ti + len vi)) as Eva.
  { rewrite Hva, slice_seqZ_0; rewrite ?len_app; [done|lia..]. }
  assert (_test_indices self = range (len ti + len vi) (len (_imgs self))) as Ete.
  { rewrite Hte, slice_seqZ_0; rewrite ?len_app; [|lia..]. by rewrite HN. }
  assert (_train_indices self ++ _valid_indices self ++ _test_indices self
          = range 0 (len (_imgs self))) as Eall.
  { rewrite Etr, Eva, Ete. rewrite !seqZ_app_range by lia. done. }
  exists ti, tl, vi, vl, si, sl. rewrite Htn, Hvn, Hsn.
  split; [done|]. split; [done|]. split; [done|]. split; [done|]. cbn zeta.
  split; [lia|]. split; [done|]. split; [done|]. split; [done|]. split; [done|].
  split; [rewrite Eall; apply NoDup_seqZ|].
  rewrite Etr, Eva, Ete. unfold range.
  split; [intros i; rewrite !elem_of_seqZ; lia|].
  split; [intros i; rewrite !elem_of_seqZ; lia|].
  split; intros i; rewrite !elem_of_seqZ; lia.
Qed.

(** ** The concrete datasets *)

Example demo_test_init_ok : demo_test_init = Ret demo_test.
Proof. vm_compute. reflexivity. Qed.

Example demo_roi_init_ok : demo_roi_init = Ret demo_roi.
Proof. vm_compute. reflexivity. Qed.

Example demo_merge_init_ok : demo_merge_init = Ret demo_merge.
Proof. vm_compute. reflexivity. Qed.

Example demo_wrap_init_ok : demo_wrap_init = Ret demo_wrap.
Proof. vm_compute. reflexivity. Qed.

Example demo_len : len (_imgs demo) = 16.
Proof. reflexivity. Qed.

Example demo_get_data : _get_data demo demo_fs [1] [2] [] = Ret demo.
Proof. vm_compute. reflexivity. Qed.

(** Index 12 of the concrete dataset belongs to the second case. *)
Lemma img_idx_to_case_idx_spec_witness :
  ∃ lo hi,
    img_idx_to_case_idx 12 {| obj := demo; log := [] |}
      = (Ret 1, {| obj := demo; log := [] |}) ∧
    _case_slice_indices demo !! 1%nat = Some lo ∧
    _case_slice_indices demo !! 2%nat = Some hi ∧ lo ≤ 12 < hi.
Proof.
  destruct (img_idx_to_case_idx_spec demo_np_load demo_np_stack demo_image_to_tensor demo_to_numpy demo_pad_resize
              demo_fs 3 None (2, 2) None 0 None None None [1] [2] [] demo
              demo_init_ok 12 []) as [Hin _].
  destruct Hin as (c & lo & hi & Hrun & _ & Hlo & Hhi & Hr & _).
  { rewrite demo_len. lia. }
  assert (c = 1) as ->.
  { vm_compute in Hrun. congruence. }
  exists lo, hi. split; [exact Hrun|]. split; [exact Hlo|]. split; [exact Hhi|exact Hr].
Defined.

(** C1 as stated fails outside [[0, N)]: on the concrete dataset, [N = 16],
    the lookup of index 16 and of index -1 raises nothing and returns
    ordinal 0. *)
Lemma img_idx_to_case_idx_never_raises :
  demo_init = Ret demo ∧ len (_imgs demo) = 16 ∧
  (img_idx_to_case_idx 16 {| obj := demo; log := [] |}).1 = Ret 0 ∧
  (img_idx_to_case_idx (-1) {| obj := demo; log := [] |}).1 = Ret 0 ∧
  ¬ (∀ idx, idx < 0 ∨ len (_imgs demo) ≤ idx →
            ∃ e, (img_idx_to_case_idx idx {| obj := demo; log := [] |}).1 = Raise e).
Proof.
  split; [exact demo_init_ok|]. split; [reflexivity|].
  split; [vm_compute; reflexivity|]. split; [vm_compute; reflexivity|].
  intros H. destruct (H 16) as [e He]; [right; rewrite demo_len; lia|].
  vm_compute in He. discriminate.
Qed.

(** Reading index 9, the last slice of the first case, with stack width 3. *)
Lemma get_stack_img_window_clamped_witness :
  ∃ evs r,
    get_stack_img demo_np_load demo_np_stack 9 {| obj := demo; log := [] |}
      = (r, {| obj := demo; log := evs |}) ∧
    Forall (λ j, 0 ≤ j < 10) (img_refs evs).
Proof.
  destruct (get_stack_img_window_clamped demo_np_load demo_np_stack demo_image_to_tensor demo_to_numpy demo_pad_resize
              demo_fs 3 None (2, 2) None 0 None None None [1] [2] [] demo
              demo_init_ok 9 [])
    as (c & lo & hi & evs & r & Hcase & Hlo & Hhi & _ & Hrun & Hall & _).
  { rewrite demo_len. lia. }
  { reflexivity. }
  assert (c = 0) as ->.
  { vm_compute in Hcase. congruence. }
  vm_compute in Hlo, Hhi. injection Hlo as <-. injection Hhi as <-.
  exists evs, r. split; [exact Hrun | exact Hall].
Defined.

(** Index 12 is a validation index of the concrete dataset and a test
    index of the dataset that holds case 2 out. *)
Lemma get_stack_img_label_witness :
  (∃ evs r,
     get_stack_img demo_np_load demo_np_stack 12 {| obj := demo_test; log := [] |}
       = (r, {| obj := demo_test; log := evs |}) ∧
     Forall (λ e, is_label_event e = false) evs) ∧
  (∃ lp evs r,
     _labels demo !! 12%nat = Some lp ∧
     get_stack_img demo_np_load demo_np_stack 12 {| obj := demo; log := [] |}
       = (r, {| obj := demo; log := evs |}) ∧
     is_Ret r).
Proof.
  split.
  - destruct (get_stack_img_label demo_np_load demo_np_stack demo_image_to_tensor demo_to_numpy demo_pad_resize
              demo_fs 3 None (2, 2) None 0 None None None [1] [] [2] demo_test
                demo_test_init_ok 12 []) as [Htest _].
    destruct Htest as (evs & r & Hrun & Hnone & _).
    { vm_compute. repeat constructor. }
    exists evs, r. split; [exact Hrun | exact Hnone].
  - destruct (get_stack_img_label demo_np_load demo_np_stack demo_image_to_tensor demo_to_numpy demo_pad_resize
              demo_fs 3 None (2, 2) None 0 None None None [1] [2] [] demo
                demo_init_ok 12 []) as [_ Htv].
    destruct Htv as (lp & evs & r & Hlp & _ & Hrun & _ & _ & _).
    { right. vm_compute. repeat constructor. }
    exists lp, evs, r. split; [exact Hlp|]. split; [exact Hrun|].
    pose proof Hrun as Hc. vm_compute in Hc. injection Hc as <- _. by eexists.
Defined.

(** [_get_data] on the concrete file system. *)
Lemma get_data_tables_witness :
  _case_slice_indices demo !! 0%nat = Some 0 ∧
  last (_case_slice_indices demo) = Some (len (_imgs demo)) ∧
  NoDup (_train_indices demo ++ _valid_indices demo ++ _test_indices demo).
Proof.
  destruct (get_data_tables demo demo_fs [1] [2] [] demo demo_get_data)
    as (H0 & _ & _ & _ & _ & _ & Hlast & ti & tl & vi & vl & si & sl
        & _ & _ & _ & _ & _ & _ & _ & _ & _ & Hnd & _).
  split; [exact H0|]. split; [exact Hlast | exact Hnd].
Defined.

(** With [spec_classes = [0, 1, 1]] there are two classes and every
    remapped pixel is 0 or 1. *)
Lemma remapped_labels_below_num_classes_witness :
  _num_classes demo_merge = 2 ∧
  ∃ out, remap_label (_spec_classes demo_merge) [0; 1; 2; 1] = Ret out ∧
         ∀ k x, [0; 1; 2; 1] !! k = Some x → 0 ≤ x ≤ 2 →
                ∃ v, out !! k = Some v ∧ 0 ≤ v < 2.
Proof.
  destruct (remapped_labels_below_num_classes
              demo_np_load demo_np_stack demo_image_to_tensor demo_to_numpy demo_pad_resize
              demo_fs 3 (Some [0; 1; 1]) (2, 2) None 0 None None None [1] [2] [] demo_merge
              demo_merge_init_ok [0; 1; 2; 1])
    as (_ & Hpx & Hnum).
  - vm_compute. discriminate.
  - split.
    + rewrite Hnum; [reflexivity|]. vm_compute. repeat constructor; discriminate.
    + exact Hpx.
Defined.

(** C10 as stated fails for class indices that count from the end: the
    dataset constructed with [spec_classes = [0, 2, -1]] has three distinct
    values, so remapped pixels reach 2, but [classes_name[-1]] is
    [classes_name[2]] and [num_classes] is 2. *)
Lemma negative_class_index_aliases :
  demo_wrap_init = Ret demo_wrap ∧
  _spec_classes demo_wrap = [0; 2; -1] ∧
  len (distinct_in_order (_spec_classes demo_wrap)) = 3 ∧
  get_classes_name (_spec_classes demo_wrap) true = Ret ["background"; "tumor"]%string ∧
  _num_classes demo_wrap = 2 ∧
  remap_label (_spec_classes demo_wrap) [0; 1; 2] = Ret [0; 1; 2] ∧
  ¬ (len (distinct_in_order (_spec_classes demo_wrap)) = _num_classes demo_wrap).
Proof.
  split; [exact demo_wrap_init_ok|].
  split; [vm_compute; reflexivity|]. split; [vm_compute; reflexivity|].
  split; [vm_compute; reflexivity|]. split; [vm_compute; reflexivity|].
  split; [vm_compute; reflexivity|]. vm_compute. discriminate.
Qed.

(** ** The two-case example *)

Section TwoCases.

Variable np_load : path → outcome ndarray.
Variable np_stack_axis2 : list ndarray → outcome ndarray.

Lemma demo_built : built demo.
Proof. exact (get_data_built _ _ _ _ _ _ demo_get_data). Qed.

(** C8: two cases of 10 and 6 raw slices, ids 1 and 2, [train = [1]],
    [valid = [2]], no ROI table: [N = 16], the boundary table is
    [[0, 10, 16]], the train indices are [[0, 10)] and the validation
    indices [[10, 16)]; a read of index 9 with stack width 3 has window
    [[8, 9, 10]] and reads [self._imgs] at [[8, 9, 9]], whatever the
    loader (a prefix of it if a load fails). *)
Theorem two_case_example :
  demo_init = Ret demo ∧
  _get_data demo demo_fs [1] [2] [] = Ret demo ∧
  _rois demo = None ∧ _stack_num demo = 3 ∧
  len (_imgs demo) = 16 ∧
  _case_slice_indices demo = [0; 10; 16] ∧
  _train_indices demo = range 0 10 ∧
  _valid_indices demo = range 10 16 ∧
  _test_indices demo = [] ∧
  window demo 9 = [8; 9; 10] ∧
  (∃ d evs,
     get_stack_img demo_np_load demo_np_stack 9 {| obj := demo; log := [] |}
       = (Ret d, {| obj := demo; log := evs |}) ∧
     img_refs evs = [8; 9; 9]) ∧
  (∀ lg, ∃ evs r,
     get_stack_img np_load np_stack_axis2 9 {| obj := demo; log := lg |}
       = (r, {| obj := demo; log := lg ++ evs |}) ∧
     img_refs evs `prefix_of` [8; 9; 9] ∧
     (is_Ret r → img_refs evs = [8; 9; 9])).
Proof.
  split; [exact demo_init_ok|]. split; [exact demo_get_data|].
  do 8 (split; [reflexivity|]).
  split.
  { eexists _, _. split; [vm_compute; reflexivity|]. reflexivity. }
  intros lg.
  destruct (stack_refs_clamped np_load np_stack_axis2 demo 9 lg demo_built)
    as (c & lo & hi & evs & r & Hcase & Hlo & Hhi & _ & Hrun & _ & Hpre & Hret & _).
  { rewrite demo_len. lia. }
  { reflexivity. }
  assert (c = 0) as ->.
  { vm_compute in Hcase. congruence. }
  vm_compute in Hlo, Hhi. injection Hlo as <-. injection Hhi as <-.
  exists evs, r. split; [exact Hrun|]. split; [exact Hpre | exact Hret].
Qed.

End TwoCases.

(** ** The ROI attached to a sample *)

(** C2 fails on the code.  The concrete dataset with an ROI file that has
    entries for cases 0, 1 and 2: global index 0 belongs to case id 1,
    whose record is [{min_z: 2, max_z: 8}] (the record that trimmed it to
    eight slices), but the sample carries [{min_z: 0, max_z: 3}], the record
    stored under the key of the case ordinal, ["case_00000"]. *)
Theorem roi_looked_up_by_ordinal :
  demo_roi_init = Ret demo_roi ∧
  _imgs demo_roi !! 0%nat = Some ["case_00001"; "imaging"; "00001.npy"]%string ∧
  _case_slice_indices demo_roi = [0; 8; 14] ∧
  demo_rois !! case_key 1 = Some (roi_entry 2 8) ∧
  demo_rois !! case_key 0 = Some (roi_entry 0 3) ∧
  ∃ d s,
    get_stack_img demo_np_load demo_np_stack 0 {| obj := demo_roi; log := [] |}
      = (Ret d, s) ∧
    d !! "roi"%string
      = Some (VRoi {[ "min_z"%string := 0; "max_z"%string := 3 ]}) ∧
    d !! "roi"%string
      ≠ Some (VRoi {[ "min_z"%string := 2; "max_z"%string := 8 ]}).
Proof.
  split; [exact demo_roi_init_ok|].
  split; [vm_compute; reflexivity|]. split; [vm_compute; reflexivity|].
  split; [vm_compute; reflexivity|]. split; [vm_compute; reflexivity|].
  eexists _, _. split; [vm_compute; reflexivity|].
  split; [vm_compute; reflexivity|]. vm_compute. discriminate.
Qed.

(** Without an entry under the ordinal's key the read raises [KeyError]. *)
Example roi_key_missing :
  let table : roi_table := delete "case_00000"%string demo_rois in
  __init__ demo_np_load demo_np_stack demo_image_to_tensor demo_to_numpy demo_pad_resize
           demo_fs 3 None (2, 2) (Some table) 1 None None None [1] [2] []
  = Raise KeyError.
Proof. vm_compute. reflexivity. Qed.

(** * Further properties of the code *)

(** ** The catalogue built by [_read_npy] *)

Lemma roi_bounds_Raise (rois : option roi_table) (e case n : Z) (ex : exn) :
  roi_bounds rois e case n = Raise ex →
  ex = KeyError ∧ ∃ table, rois = Some table ∧ roi_entry_ok table case = false.
Proof.
  intros H. destruct rois as [table|]; [|done].
  assert (ex = KeyError ∧ roi_entry_ok table case = false) as [-> Hb]; [|eauto].
  unfold roi_bounds, roi_entry_ok, lookup_key in *. cbn in H.
  destruct (table !! case_key case) as [entry|]; cbn in H; [|by injection H as <-].
  destruct (entry !! "kidney"%string) as [roi|]; cbn in H; [|by injection H as <-].
  destruct (roi !! "min_z"%string) as [lo|]; cbn in H; [|by injection H as <-].
  destruct (roi !! "max_z"%string) as [hi|]; cbn in H; [done|].
  injection H as <-. split; [done|].
  rewrite andb_comm. rewrite bool_decide_eq_false_2; [done|]. by intros [? ?].
Qed.

Lemma roi_bounds_Ret_entry (table : roi_table) (e case n : Z) (r : Z * Z) :
  roi_bounds (Some table) e case n = Ret r → roi_entry_ok table case = true.
Proof.
  unfold roi_bounds, roi_entry_ok, lookup_key. intros H. cbn in H.
  destruct (table !! case_key case) as [entry|]; cbn in H; [|done].
  destruct (entry !! "kidney"%string) as [roi|]; cbn in H; [|done].
  destruct (roi !! "min_z"%string) as [lo|] eqn:Elo; cbn in H; [|done].
  destruct (roi !! "max_z"%string) as [hi|] eqn:Ehi; cbn in H; [|done].
  rewrite !bool_decide_eq_true_2; [done|eauto..].
Qed.

(** One iteration on a case that passes the checks. *)
Lemma read_npy_case_ok rois e fs is_test imgs labels nums case :
  (is_test = false → len imgs = len labels) →
  case_ok rois e fs is_test case = true →
  _read_npy_case rois e fs is_test (imgs, labels, nums) case
  = Ret (imgs ++ case_imgs rois e fs case,
         (if is_test then labels else labels ++ case_labels rois e fs case),
         nums ++ [len (case_imgs rois e fs case)]).
Proof.
  intros Hinv Hok. unfold case_ok in Hok.
  apply andb_prop in Hok as [Hok Hlab]. apply andb_prop in Hok as [Hdir Hb].
  unfold _read_npy_case, case_imgs, case_labels, listing in *.
  cbn [app]. rewrite Hdir. cbn [assert mbind outcome_bind].
  destruct (roi_bounds rois e case _) as [[min_z max_z]|ex]; [|done].
  cbn [mbind outcome_bind].
  destruct is_test; cbn [negb]; [done|].
  cbn [orb] in Hlab. apply andb_prop in Hlab as [Hseg Hlen].
  apply bool_decide_eq_true in Hlen.
  rewrite Hseg. cbn [assert mbind outcome_bind].
  rewrite bool_decide_eq_true_2; [done|].
  rewrite !len_app, Hinv by done. lia.
Qed.

(** One iteration on a case that fails a check. *)
Lemma read_npy_case_fail rois e fs is_test imgs labels nums case :
  (is_test = false → len imgs = len labels) →
  case_ok rois e fs is_test case = false →
  ∃ ex, _read_npy_case rois e fs is_test (imgs, labels, nums) case = Raise ex ∧
        (ex = AssertionError ∨
         ex = KeyError ∧ ∃ table, rois = Some table ∧ roi_entry_ok table case = false).
Proof.
  intros Hinv Hok. unfold case_ok in Hok.
  unfold _read_npy_case, case_imgs, case_labels, listing in *. cbn [app].
  destruct (fs_exists fs [case_key case; "imaging"%string]);
    cbn [assert mbind outcome_bind]; [|eauto].
  cbn [andb] in Hok.
  destruct (roi_bounds rois e case _) as [[min_z max_z]|ex] eqn:Eb;
    cbn [mbind outcome_bind].
  - cbn [andb] in Hok. destruct is_test; [done|]. cbn [orb negb] in *.
    destruct (fs_exists fs [case_key case; "segmentation"%string]);
      cbn [assert mbind outcome_bind]; [|eauto].
    cbn [andb] in Hok. apply bool_decide_eq_false in Hok.
    rewrite bool_decide_eq_false_2; [cbn; eauto|].
    rewrite !len_app, Hinv by done. lia.
  - exists ex. split; [done|]. right. by eapply roi_bounds_Raise.
Qed.

Lemma for_fold_read_ok rois e fs is_test cases imgs labels nums :
  (is_test = false → len imgs = len labels) →
  Forall (λ c, case_ok rois e fs is_test c = true) cases →
  for_fold (_read_npy_case rois e fs is_test) (imgs, labels, nums) cases
  = Ret (imgs ++ concat (case_imgs rois e fs <$> cases),
         (if is_test then labels
          else labels ++ concat (case_labels rois e fs <$> cases)),
         nums ++ ((λ c, len (case_imgs rois e fs c)) <$> cases)).
Proof.
  intros Hinv Hall. revert imgs labels nums Hinv.
  induction Hall as [|c cases Hc _ IH]; intros imgs labels nums Hinv.
  - cbn. rewrite !app_nil_r. by destruct is_test.
  - cbn [for_fold]. rewrite (read_npy_case_ok _ _ _ _ _ _ _ _ Hinv Hc).
    cbn [mbind outcome_bind]. rewrite IH.
    + cbn [fmap list_fmap concat]. rewrite <- !app_assoc.
      destruct is_test; [done|]. by rewrite <- !app_assoc.
    + intros ->. unfold case_ok in Hc. rewrite !len_app.
      apply andb_prop in Hc as [_ Hc]. cbn [orb] in Hc.
      apply andb_prop in Hc as [_ Hc]. apply bool_decide_eq_true in Hc.
      rewrite Hinv by done. lia.
Qed.

Lemma for_fold_read_fail rois e fs is_test cases imgs labels nums :
  (is_test = false → len imgs = len labels) →
  ¬ Forall (λ c, case_ok rois e fs is_test c = true) cases →
  ∃ ex c,
    for_fold (_read_npy_case rois e fs is_test) (imgs, labels, nums) cases = Raise ex ∧
    c ∈ cases ∧ case_ok rois e fs is_test c = false ∧
    (ex = AssertionError ∨
     ex = KeyError ∧ ∃ table, rois = Some table ∧ roi_entry_ok table c = false).
Proof.
  revert imgs labels nums.
  induction cases as [|c cases IH]; intros imgs labels nums Hinv Hall.
  - destruct Hall. constructor.
  - cbn [for_fold].
    destruct (case_ok rois e fs is_test c) eqn:Hc.
    + rewrite (read_npy_case_ok _ _ _ _ _ _ _ _ Hinv Hc). cbn [mbind outcome_bind].
      destruct (IH (imgs ++ case_imgs rois e fs c)
                  (if is_test then labels else labels ++ case_labels rois e fs c)
                  (nums ++ [len (case_imgs rois e fs c)]))
        as (ex & c' & Hrun & Hin & Hbad & Hex).
      * intros ->. unfold case_ok in Hc. rewrite !len_app.
        apply andb_prop in Hc as [_ Hc]. cbn [orb] in Hc.
        apply andb_prop in Hc as [_ Hc]. apply bool_decide_eq_true in Hc.
        rewrite Hinv by done. lia.
      * intros Hrest. apply Hall. by constructor.
      * exists ex, c'. split; [done|]. split; [by right|]. done.
    + destruct (read_npy_case_fail _ _ _ _ imgs labels nums _ Hinv Hc)
        as (ex & Hrun & Hex).
      exists ex, c. rewrite Hrun. cbn [mbind outcome_bind].
      split; [done|]. split; [by left|]. done.
Qed.

Lemma read_npy_Ret_ok rois e fs cases is_test r :
  _read_npy rois e fs cases is_test = Ret r →
  Forall (λ c, case_ok rois e fs is_test c = true) cases.
Proof.
  unfold _read_npy. intros Hr.
  destruct (decide (Forall (λ c, case_ok rois e fs is_test c = true) cases))
    as [|Hn]; [done|].
  destruct (for_fold_read_fail rois e fs is_test cases [] [] [])
    as (ex & c & Hrun & _); [done|done|]. congruence.
Qed.

Lemma read_npy_parts rois e fs cases is_test imgs labels nums :
  _read_npy rois e fs cases is_test = Ret (imgs, labels, nums) →
  imgs = concat (case_imgs rois e fs <$> cases) ∧
  labels = (if is_test then [] else concat (case_labels rois e fs <$> cases)) ∧
  nums = (λ c, len (case_imgs rois e fs c)) <$> cases ∧
  (is_test = false →
   Forall (λ c, len (case_labels rois e fs c) = len (case_imgs rois e fs c)) cases).
Proof.
  intros H. pose proof (read_npy_Ret_ok _ _ _ _ _ _ H) as Hall.
  unfold _read_npy in H. rewrite for_fold_read_ok in H by done.
  injection H as <- <- <-. cbn [app].
  split; [done|]. split; [done|]. split; [done|].
  intros ->. eapply Forall_impl; [exact Hall|].
  intros c Hc. unfold case_ok in Hc.
  apply andb_prop in Hc as [_ Hc]. cbn [orb] in Hc.
  apply andb_prop in Hc as [_ Hc]. by apply bool_decide_eq_true in Hc.
Qed.

(** [_read_npy] returns exactly when every listed case passes the checks of
    its loop body: the imaging directory exists, the ROI table (if any) has
    a complete entry for the case, and, unless the cases are test cases,
    the segmentation directory exists and the kept image and label counts
    agree. *)
Theorem read_npy_returns_iff (rois : option roi_table) (e : Z) (fs : filesystem)
    (cases : list Z) (is_test : bool) :
  is_Ret (_read_npy rois e fs cases is_test)
  ↔ Forall (λ c, case_ok rois e fs is_test c = true) cases.
Proof.
  split.
  - intros [r Hr]. by eapply read_npy_Ret_ok.
  - intros Hall. unfold _read_npy. rewrite for_fold_read_ok by done. by eexists.
Qed.

(** Both cases of the concrete file system pass the checks. *)
Lemma read_npy_returns_iff_witness :
  is_Ret (_read_npy None 0 demo_fs [1; 2] false) ∧
  ¬ is_Ret (_read_npy None 0 demo_fs [1; 3] false).
Proof.
  split.
  - apply (read_npy_returns_iff None 0 demo_fs [1; 2] false).
    repeat constructor.
  - intros H. apply (read_npy_returns_iff None 0 demo_fs [1; 3] false) in H.
    apply Forall_cons in H as [_ H]. apply Forall_cons in H as [H _].
    vm_compute in H. discriminate.
Defined.

(** When [_read_npy] returns, the image list is the concatenation, in the
    order the cases are listed, of the slices kept of each case; the slice
    counts are their lengths; the label list is the concatenation of the
    kept label files, or empty for test cases. *)
Theorem read_npy_catalogue (rois : option roi_table) (e : Z) (fs : filesystem)
    (cases : list Z) (is_test : bool) (imgs labels : list path) (nums : list Z) :
  _read_npy rois e fs cases is_test = Ret (imgs, labels, nums) →
  imgs = concat (case_imgs rois e fs <$> cases) ∧
  labels = (if is_test then [] else concat (case_labels rois e fs <$> cases)) ∧
  nums = (λ c, len (case_imgs rois e fs c)) <$> cases ∧
  (is_test = false →
   Forall (λ c, len (case_labels rois e fs c) = len (case_imgs rois e fs c)) cases).
Proof. apply read_npy_parts. Qed.

(** The two cases of the concrete dataset with the ROI file and error
    range 1: eight and six slices are kept. *)
Lemma read_npy_catalogue_witness :
  ∃ imgs labels,
    _read_npy (Some demo_rois) 1 demo_fs [1; 2] false = Ret (imgs, labels, [8; 6]) ∧
    imgs = case_imgs (Some demo_rois) 1 demo_fs 1 ++ case_imgs (Some demo_rois) 1 demo_fs 2.
Proof.
  destruct (_read_npy (Some demo_rois) 1 demo_fs [1; 2] false)
    as [[[imgs labels] nums]|ex] eqn:E; [|vm_compute in E; discriminate].
  destruct (read_npy_catalogue _ _ _ _ _ _ _ _ E) as (Hi & _ & Hn & _).
  exists imgs, labels. split.
  - rewrite Hn. vm_compute. reflexivity.
  - rewrite Hi. cbn [fmap list_fmap concat]. by rewrite app_nil_r.
Defined.

(** [_read_npy] raises nothing but [AssertionError] and [KeyError]; each
    failure is due to a listed case that fails a check, and a [KeyError]
    to a case whose entry in the configured ROI table is missing or
    incomplete. *)
Theorem read_npy_raises (rois : option roi_table) (e : Z) (fs : filesystem)
    (cases : list Z) (is_test : bool) (ex : exn) :
  _read_npy rois e fs cases is_test = Raise ex →
  ∃ c, c ∈ cases ∧ case_ok rois e fs is_test c = false ∧
       (ex = AssertionError ∨
        ex = KeyError ∧ ∃ table, rois = Some table ∧ roi_entry_ok table c = false).
Proof.
  intros H.
  destruct (decide (Forall (λ c, case_ok rois e fs is_test c = true) cases))
    as [Hall|Hn].
  - unfold _read_npy in H. by rewrite for_fold_read_ok in H.
  - destruct (for_fold_read_fail rois e fs is_test cases [] [] [])
      as (ex' & c & Hrun & Hin & Hbad & Hex); [done|done|].
    unfold _read_npy in H. rewrite Hrun in H. injection H as <-. eauto.
Qed.

(** Case 3 has no directory on the concrete file system; an ROI table
    without an entry for case 2 stops the read with [KeyError]. *)
Lemma read_npy_raises_witness :
  (∃ c, c ∈ [1; 3] ∧ case_ok None 0 demo_fs false c = false) ∧
  _read_npy None 0 demo_fs [1; 3] false = Raise AssertionError ∧
  _read_npy (Some below_rois) 0 demo_fs [1; 2] true = Raise KeyError.
Proof.
  split; [|split; vm_compute; reflexivity].
  destruct (read_npy_raises None 0 demo_fs [1; 3] false AssertionError)
    as (c & Hin & Hbad & _); [vm_compute; reflexivity|].
  by exists c.
Defined.

(** ** Reads of an object without slices *)

Lemma getitem_nil {A} (i : Z) : getitem (@nil A) i = Raise IndexError.
Proof.
  unfold getitem. change (len (@nil A)) with 0.
  destruct (i <? 0); destruct (_ <? 0); done.
Qed.

Lemma getitem_Raise {A} (l : list A) (i : Z) (e : exn) :
  getitem l i = Raise e → e = IndexError.
Proof.
  unfold getitem. destruct (_ <? 0); [congruence|].
  destruct (l !! _); congruence.
Qed.

Lemma case_loop_Raise (csi : list Z) (idx : Z) (js : list Z) (c0 : Z) (e : exn) :
  case_loop csi idx js c0 = Raise e → e = IndexError.
Proof.
  induction js as [|i js IH]; cbn [case_loop]; [done|].
  destruct (getitem csi i) as [a|e'] eqn:Ea; cbn [mbind outcome_bind];
    [|intros [= <-]; by eapply getitem_Raise].
  destruct (a <=? idx); [|done].
  destruct (getitem csi (i + 1)) as [b|e'] eqn:Eb; cbn [mbind outcome_bind];
    [|intros [= <-]; by eapply getitem_Raise].
  destruct (idx <? b); [done|done].
Qed.

Section EmptyFacts.

Variable np_load : path → outcome ndarray.
Variable np_stack_axis2 : list ndarray → outcome ndarray.
Variable image_to_tensor : ndarray → outcome ndarray.
Variable to_numpy : sample → outcome sample.
Variable pad_resize : Z → Z * Z → value → value → outcome sample.

Lemma stack_slice_no_imgs (o : KiTS19) (lg : list event) (c i : Z) :
  _imgs o = [] →
  ∃ lg', stack_slice np_load c i {| obj := o; log := lg |}
         = (Raise IndexError, {| obj := o; log := lg' |}).
Proof.
  intros Himgs. unfold stack_slice. mrun.
  destruct (getitem (_case_slice_indices o) c) as [lo|e] eqn:Elo;
    [|rewrite (getitem_Raise _ _ _ Elo); eauto].
  destruct (i <? lo).
  - mrun. rewrite Elo. mrun. rewrite Himgs, getitem_nil. eauto.
  - mrun. destruct (getitem (_case_slice_indices o) (c + 1)) as [hi|e] eqn:Ehi;
      [|rewrite (getitem_Raise _ _ _ Ehi); eauto].
    destruct (hi <=? i); mrun; rewrite ?Ehi; mrun; rewrite Himgs, getitem_nil; eauto.
Qed.

Lemma get_stack_img_no_imgs (o : KiTS19) (lg : list event) (idx : Z) :
  _imgs o = [] → 0 ≤ _stack_num o →
  ∃ lg', get_stack_img np_load np_stack_axis2 idx {| obj := o; log := lg |}
         = (Raise IndexError, {| obj := o; log := lg' |}).
Proof.
  intros Himgs Hst. unfold get_stack_img. rewrite run_bind.
  unfold img_idx_to_case_idx at 1. mrun.
  destruct (case_loop _ _ _ _) as [c|e] eqn:Ec;
    [|rewrite (case_loop_Raise _ _ _ _ _ Ec); eauto].
  mrun. unfold range.
  assert (0 ≤ _stack_num o `div` 2) as Hh by (apply Z.div_pos; lia).
  rewrite seqZ_cons by lia. rewrite mapM_cons_M. mrun.
  destruct (stack_slice_no_imgs o lg c (idx - _stack_num o `div` 2) Himgs) as [lg' ->].
  eauto.
Qed.

Lemma getitem_no_imgs (o : KiTS19) (lg : list event) (idx : Z) :
  _imgs o = [] → 0 ≤ _stack_num o →
  ∃ lg', __getitem__ np_load np_stack_axis2 image_to_tensor to_numpy pad_resize idx
                     {| obj := o; log := lg |}
         = (Raise IndexError, {| obj := o; log := lg' |}).
Proof.
  intros Himgs Hst. unfold __getitem__. rewrite run_bind.
  destruct (get_stack_img_no_imgs o lg idx Himgs Hst) as [lg' ->]. eauto.
Qed.

End EmptyFacts.

(** ** The constructed index and the catalogue *)

Lemma concat_lookup_block {A} (ls : list (list A)) (c k : nat) (xs : list A) :
  ls !! c = Some xs → (k < length xs)%nat →
  concat ls !! (length (concat (take c ls)) + k)%nat = xs !! k.
Proof.
  revert c. induction ls as [|l ls IH]; intros c Hc Hk; [done|].
  destruct c as [|c]; cbn in Hc.
  - injection Hc as ->. cbn. by rewrite lookup_app_l.
  - cbn [take concat]. rewrite length_app, <- Nat.add_assoc.
    rewrite lookup_app_r by lia.
    replace (length l + (length (concat (take c ls)) + k) - length l)%nat
      with (length (concat (take c ls)) + k)%nat by lia.
    by apply IH.
Qed.

Lemma sum_Z_len_concat {A} (ls : list (list A)) :
  sum_Z ((λ l, len l) <$> ls) = len (concat ls).
Proof.
  induction ls as [|l ls IH]; [done|].
  cbn [fmap list_fmap concat]. rewrite len_app, <- IH. done.
Qed.

Lemma roi_bounds_nonneg (rois : option roi_table) (e case n a b : Z) :
  roi_bounds rois e case n = Ret (a, b) → 0 ≤ a ∧ b ≤ n.
Proof.
  unfold roi_bounds. destruct rois as [table|]; intros H.
  - cbn in H. inv_bind_as H entry He. inv_bind_as H roi Hr.
    inv_bind_as H lo Hlo. inv_bind_as H hi Hhi. injection H as <- <-. lia.
  - injection H as <- <-. lia.
Qed.

(** Two lists cut by the same slice: equal positions of the cuts are equal
    positions of the lists. *)
Lemma slice_same_position {A} (l l' : list A) (a b : Z) (k : nat) (x y : A) :
  0 ≤ a →
  slice l a b !! k = Some x → slice l' a b !! k = Some y →
  l !! Z.to_nat (a + Z.of_nat k) = Some x ∧ l' !! Z.to_nat (a + Z.of_nat k) = Some y.
Proof.
  intros Ha Hx Hy. unfold slice in Hx, Hy.
  apply lookup_take_Some in Hx as [Hx _]. apply lookup_take_Some in Hy as [Hy _].
  rewrite lookup_drop in Hx, Hy.
  pose proof (lookup_lt_Some _ _ _ Hx) as Lx.
  pose proof (lookup_lt_Some _ _ _ Hy) as Ly.
  unfold slice_bound, len in *.
  destruct (Z.ltb_spec a 0) as [?|_]; [lia|].
  rewrite Z.min_l in Hx, Hy by lia.
  replace (Z.to_nat (a + Z.of_nat k)) with (Z.to_nat a + k)%nat by lia. done.
Qed.

Lemma listing_parts (fs : filesystem) (case : Z) (d : string) :
  Forall (λ p, ∃ name, p = [case_key case; d; name]) (listing fs case d).
Proof.
  unfold listing. apply sorted_Forall. unfold glob_npy.
  apply Forall_fmap, Forall_forall. intros name _. by exists name.
Qed.

Lemma case_imgs_parts rois e (fs : filesystem) (case : Z) :
  Forall (λ p, ∃ name, p = [case_key case; "imaging"%string; name])
         (case_imgs rois e fs case).
Proof.
  unfold case_imgs. destruct (roi_bounds _ _ _ _) as [[a b]|]; [|constructor].
  apply slice_Forall, listing_parts.
Qed.

Lemma len_concat_take_eq {A B C} (f : A → list B) (g : A → list C) (l : list A) (n : nat) :
  Forall (λ c, len (g c) = len (f c)) l →
  len (concat (take n (g <$> l))) = len (concat (take n (f <$> l))).
Proof.
  intros H. revert n. induction H as [|x l Hx _ IH]; intros [|n]; try done.
  cbn [fmap list_fmap take concat]. rewrite !len_app, Hx. f_equal. apply IH.
Qed.

Lemma len_concat_take_le {A} (ls : list (list A)) (n m : nat) :
  (n ≤ m)%nat → len (concat (take n ls)) ≤ len (concat (take m ls)).
Proof.
  intros H. replace m with (n + (m - n))%nat by lia.
  rewrite <- take_take_drop, concat_app, len_app.
  pose proof (len_nonneg (concat (take (m - n) (drop n ls)))). lia.
Qed.

Section Catalogue.

Variable np_load : path → outcome ndarray.
Variable np_stack_axis2 : list ndarray → outcome ndarray.
Variable image_to_tensor : ndarray → outcome ndarray.
Variable to_numpy : sample → outcome sample.
Variable pad_resize : Z → Z * Z → value → value → outcome sample.
Variable fs : filesystem.
Variables (stack_num : Z) (spec : option (list Z)) (img_size : Z * Z).
Variables (rois : option roi_table) (roi_error_range : Z).
Variables train_transform valid_transform test_transform : option (sample → outcome sample).
Variables train_case valid_case test_case : list Z.
Variable self : KiTS19.

Hypothesis constructed :
  __init__ np_load np_stack_axis2 image_to_tensor to_numpy pad_resize
           fs stack_num spec img_size rois roi_error_range
           train_transform valid_transform test_transform
           train_case valid_case test_case = Ret self.

Local Abbreviation kept := (case_imgs rois roi_error_range fs).
Local Abbreviation kept_labels := (case_labels rois roi_error_range fs).
Local Abbreviation cases := (all_cases train_case valid_case test_case).

(** What the constructor leaves in the object, and the read of sample 0 it
    ends with. *)
Lemma init_fields :
  built self ∧
  _imgs self = concat (kept <$> cases) ∧
  _labels self = concat (kept_labels <$> (train_case ++ valid_case)) ∧
  all_nums self = (λ c, len (kept c)) <$> cases ∧
  _train_case_slice_num self = (λ c, len (kept c)) <$> train_case ∧
  _valid_case_slice_num self = (λ c, len (kept c)) <$> valid_case ∧
  _test_case_slice_num self = (λ c, len (kept c)) <$> test_case ∧
  Forall (λ c, len (kept_labels c) = len (kept c)) (train_case ++ valid_case) ∧
  Forall (λ c, case_ok rois roi_error_range fs true c = true) cases ∧
  Forall (λ c, case_ok rois roi_error_range fs false c = true) (train_case ++ valid_case) ∧
  _stack_num self = stack_num ∧ _rois self = rois ∧
  _roi_error_range self = roi_error_range ∧ _img_size self = img_size ∧
  _train_transform self = train_transform ∧
  _valid_transform self = valid_transform ∧
  _test_transform self = test_transform ∧
  ∃ self' data s image,
    __getitem__ np_load np_stack_axis2 image_to_tensor to_numpy pad_resize 0
                {| obj := self'; log := [] |} = (Ret data, s) ∧
    _imgs self' = _imgs self ∧ _labels self' = _labels self ∧
    _case_slice_indices self' = _case_slice_indices self ∧
    _test_indices self' = _test_indices self ∧
    _stack_num self' = stack_num ∧
    array_at data "image"%string = Ret image ∧
    getitem (shape image) 0 = Ret (_img_channels self).
Proof.
  pose proof (init_Ret _ _ _ _ _ _ _ _ _ _ _ _ _ _ _ _ _ _ constructed) as (Hb & _).
  split; [done|].
  pose proof constructed as H. unfold __init__ in H.
  inv_bind_as H sp Hsp. inv_bind_as H self1 Hdata. inv_bind_as H names Hnames.
  destruct (__getitem__ _ _ _ _ _ 0 _) as [r s] eqn:Erun.
  inv_bind_as H data Hr. inv_bind_as H image Himage. inv_bind_as H ch Hch.
  pose proof (reader_obj _ {| obj := _split_subset self1; log := [] |}
                (reader_getitem np_load np_stack_axis2 image_to_tensor
                   to_numpy pad_resize 0)) as Hobj.
  rewrite Erun in Hobj. cbn [snd obj] in Hobj. rewrite Hobj in H.
  injection H as <-. cbn in Hr. subst r.
  unfold _get_data in Hdata. cbn in Hdata.
  inv_bind_as Hdata t Ht. destruct t as [[ti tl] tn].
  inv_bind_as Hdata v Hv. destruct v as [[vi vl] vn].
  inv_bind_as Hdata u Hs. destruct u as [[si sl] sn].
  injection Hdata as <-. unfold all_nums. cbn.
  assert (Forall (λ c, case_ok rois roi_error_range fs false c = true) train_case)
    as Ft by (by eapply read_npy_Ret_ok).
  assert (Forall (λ c, case_ok rois roi_error_range fs false c = true) valid_case)
    as Fv by (by eapply read_npy_Ret_ok).
  assert (Forall (λ c, case_ok rois roi_error_range fs true c = true) test_case)
    as Fs by (by eapply read_npy_Ret_ok).
  assert (∀ c, case_ok rois roi_error_range fs false c = true →
               case_ok rois roi_error_range fs true c = true) as Hweak.
  { intros c. unfold case_ok. intros Hc. apply andb_prop in Hc as [-> _]. done. }
  apply read_npy_parts in Ht as (-> & -> & -> & Hlt).
  apply read_npy_parts in Hv as (-> & -> & -> & Hlv).
  apply read_npy_parts in Hs as (-> & -> & -> & _).
  unfold all_cases. rewrite !fmap_app, !concat_app, app_nil_r.
  split; [done|]. split; [done|]. split; [done|].
  split; [done|]. split; [done|]. split; [done|].
  split; [apply Forall_app; split; auto|].
  split.
  { repeat (apply Forall_app; split); [| |done];
      (eapply Forall_impl; [eassumption|]); exact Hweak. }
  split; [by apply Forall_app|].
  do 7 (split; [done|]).
  eexists _, data, s, image.
  split; [exact Erun|]. cbn. rewrite ?app_nil_r. done.
Qed.

Lemma all_nums_boundary (c : nat) :
  boundary (all_nums self) (Z.of_nat c)
  = sum_Z ((λ l, len l) <$> take c (kept <$> cases)).
Proof.
  destruct init_fields as (_ & _ & _ & -> & _).
  unfold boundary. rewrite Nat2Z.id, <- !fmap_take, <- list_fmap_compose. done.
Qed.

(** Where a valid global index lies: the ordinal [c] that
    [img_idx_to_case_idx] returns, the case listed at position [c], and
    the position inside the slices kept of that case. *)
Lemma owner_block (idx : Z) (lg : list event) :
  0 ≤ idx < len (_imgs self) →
  ∃ (c : nat) case,
    let lo := boundary (all_nums self) (Z.of_nat c) in
    img_idx_to_case_idx idx {| obj := self; log := lg |}
      = (Ret (Z.of_nat c), {| obj := self; log := lg |}) ∧
    cases !! c = Some case ∧
    _case_slice_indices self !! c = Some lo ∧
    _case_slice_indices self !! S c = Some (lo + len (kept case)) ∧
    lo ≤ idx < lo + len (kept case) ∧
    lo = len (concat (take c (kept <$> cases))) ∧
    _imgs self !! Z.to_nat idx = kept case !! Z.to_nat (idx - lo).
Proof.
  intros Hidx. destruct init_fields as (Hb & Him & _ & Hnums & _).
  destruct (built_owner self idx lg Hb Hidx)
    as (c & Hc & Hin & Hlo0 & HhiN & _ & _ & Hrun & _).
  assert (Z.to_nat c < length cases)%nat as Hlt.
  { unfold len in Hc. rewrite Hnums, length_fmap in Hc. lia. }
  destruct (lookup_lt_is_Some_2 _ _ Hlt) as [case Hcase].
  exists (Z.to_nat c), case. rewrite Z2Nat.id by lia. cbn zeta.
  assert (boundary (all_nums self) (c + 1)
          = boundary (all_nums self) c + len (kept case)) as Hnext.
  { unfold boundary. replace (Z.to_nat (c + 1)) with (S (Z.to_nat c)) by lia.
    rewrite (take_S_r _ _ (len (kept case))).
    - rewrite sum_Z_app. unfold sum_Z at 2. cbn. lia.
    - rewrite Hnums, list_lookup_fmap, Hcase. done. }
  assert (boundary (all_nums self) c = len (concat (take (Z.to_nat c) (kept <$> cases))))
    as Hlo.
  { rewrite <- sum_Z_len_concat, <- all_nums_boundary. by rewrite Z2Nat.id by lia. }
  split; [done|]. split; [done|].
  split; [apply boundary_lookup; [done|lia]|].
  split.
  { rewrite <- Hnext. replace (S (Z.to_nat c)) with (Z.to_nat (c + 1)) by lia.
    apply boundary_lookup; [done|lia]. }
  split; [lia|]. split; [done|].
  rewrite Him.
  replace (Z.to_nat idx)
    with (length (concat (take (Z.to_nat c) (kept <$> cases)))
          + Z.to_nat (idx - boundary (all_nums self) c))%nat
    by (unfold len in Hlo; lia).
  apply concat_lookup_block.
  - by rewrite list_lookup_fmap, Hcase.
  - unfold len in *. lia.
Qed.

(** Every valid global index refers to a kept slice of the case that
    owns it: [img_idx_to_case_idx] returns the position [c] of that case
    in the train, validation, test order of the subset files, and
    [self._imgs[idx]] is entry [idx - case_boundaries[c]] of the slices
    [_read_npy] kept of that case, a file of its imaging directory. *)
Theorem imgs_entry_of_owning_case (idx : Z) (lg : list event) :
  0 ≤ idx < len (_imgs self) →
  ∃ (c : nat) case lo name,
    img_idx_to_case_idx idx {| obj := self; log := lg |}
      = (Ret (Z.of_nat c), {| obj := self; log := lg |}) ∧
    cases !! c = Some case ∧
    _case_slice_indices self !! c = Some lo ∧
    _case_slice_indices self !! S c = Some (lo + len (kept case)) ∧
    lo ≤ idx < lo + len (kept case) ∧
    _imgs self !! Z.to_nat idx = kept case !! Z.to_nat (idx - lo) ∧
    _imgs self !! Z.to_nat idx = Some [case_key case; "imaging"%string; name].
Proof.
  intros Hidx.
  destruct (owner_block idx lg Hidx) as (c & case & Hrun & Hcase & Hlo & Hhi & Hin & _ & Him).
  cbn zeta in *.
  destruct (lookup_lt_is_Some_2 (kept case)
              (Z.to_nat (idx - boundary (all_nums self) (Z.of_nat c)))) as [p Hp].
  { unfold len in Hin. lia. }
  pose proof (case_imgs_parts rois roi_error_range fs case) as Hparts.
  rewrite Forall_lookup in Hparts. destruct (Hparts _ _ Hp) as [name ->].
  exists c, case, (boundary (all_nums self) (Z.of_nat c)), name.
  split; [done|]. split; [done|]. split; [done|]. split; [done|].
  split; [done|]. split; [done|]. by rewrite Him.
Qed.

(** For a global index of the train or validation subset the image and
    the label are the files at one and the same position of the sorted
    listings of the imaging and the segmentation directory of the owning
    case. *)
Theorem image_label_aligned (idx : Z) (lg : list event) :
  idx ∈ _train_indices self ∨ idx ∈ _valid_indices self →
  ∃ (c : nat) case (z : nat) pi pl,
    img_idx_to_case_idx idx {| obj := self; log := lg |}
      = (Ret (Z.of_nat c), {| obj := self; log := lg |}) ∧
    cases !! c = Some case ∧ case ∈ train_case ++ valid_case ∧
    _imgs self !! Z.to_nat idx = Some pi ∧
    _labels self !! Z.to_nat idx = Some pl ∧
    listing fs case "imaging" !! z = Some pi ∧
    listing fs case "segmentation" !! z = Some pl.
Proof.
  intros Htv. destruct init_fields as (Hb & _ & Hlab & _ & _ & _ & _ & Hlens & _).
  destruct (built_train_valid_range _ _ Hb Htv) as [Hidx Hnt].
  pose proof (built_not_test _ _ Hb Hidx Hnt) as Hidxl.
  destruct (owner_block idx lg Hidx)
    as (c & case & Hrun & Hcase & _ & _ & Hin & Hlo & Him).
  cbn zeta in *.
  set (lo := boundary (all_nums self) (Z.of_nat c)) in *.
  set (tv := train_case ++ valid_case) in *.
  assert (kept <$> cases = (kept <$> tv) ++ (kept <$> test_case)) as Hsplit.
  { unfold all_cases. by rewrite fmap_app. }
  assert (len (_labels self) = len (concat (take (length tv) (kept <$> cases)))) as Hll.
  { rewrite Hlab, Hsplit, take_app_length' by (by rewrite length_fmap).
    rewrite <- (firstn_all (kept_labels <$> tv)), <- (firstn_all (kept <$> tv)).
    rewrite !length_fmap. by apply len_concat_take_eq. }
  assert (c < length tv)%nat as Hc.
  { destruct (decide (c < length tv)%nat) as [|Hge]; [done|].
    pose proof (len_concat_take_le (kept <$> cases) (length tv) c ltac:(lia)). lia. }
  assert (tv !! c = Some case) as Htvc.
  { unfold all_cases in Hcase. by rewrite lookup_app_l in Hcase. }
  assert (lo = len (concat (take c (kept_labels <$> tv)))) as Hlo'.
  { rewrite Hlo, Hsplit, take_app_le by (rewrite length_fmap; lia).
    symmetry. by apply len_concat_take_eq. }
  assert (len (kept_labels case) = len (kept case)) as Hlen.
  { rewrite Forall_lookup in Hlens. by eapply Hlens. }
  assert (_labels self !! Z.to_nat idx = kept_labels case !! Z.to_nat (idx - lo)) as Hl.
  { rewrite Hlab.
    replace (Z.to_nat idx)
      with (length (concat (take c (kept_labels <$> tv))) + Z.to_nat (idx - lo))%nat
      by (unfold len in Hlo'; lia).
    apply concat_lookup_block.
    - by rewrite list_lookup_fmap, Htvc.
    - unfold len in *. lia. }
  destruct (lookup_lt_is_Some_2 (kept case) (Z.to_nat (idx - lo))) as [pi Hpi];
    [unfold len in *; lia|].
  destruct (lookup_lt_is_Some_2 (kept_labels case) (Z.to_nat (idx - lo))) as [pl Hpl];
    [unfold len in *; lia|].
  pose proof Hpi as Hpi'. pose proof Hpl as Hpl'.
  unfold case_imgs in Hpi'. unfold case_labels in Hpl'.
  destruct (roi_bounds rois roi_error_range case _) as [[a b]|] eqn:Eb; [|done].
  destruct (roi_bounds_nonneg _ _ _ _ _ _ Eb) as [Ha _].
  destruct (slice_same_position _ _ _ _ _ _ _ Ha Hpi' Hpl') as [Hzi Hzl].
  exists c, case, (Z.to_nat (a + Z.of_nat (Z.to_nat (idx - lo)))), pi, pl.
  split; [done|]. split; [done|].
  split; [by eapply list_elem_of_lookup_2|].
  split; [by rewrite Him|]. split; [by rewrite Hl|]. done.
Qed.

(** The constructor ends with a read of sample 0, so a dataset it returns
    for a non-negative stack width has at least one slice. *)
Theorem constructed_nonempty :
  0 ≤ stack_num → 0 < len (_imgs self).
Proof.
  intros Hst. destruct init_fields
    as (_ & _ & _ & _ & _ & _ & _ & _ & _ & _ & _ & _ & _ & _ & _ & _ & _ &
        self' & data & s & image & Hrun & Him & _ & _ & _ & Hsn & _).
  destruct (_imgs self) as [|p ps] eqn:E; [|unfold len; cbn; lia].
  destruct (getitem_no_imgs np_load np_stack_axis2 image_to_tensor to_numpy pad_resize
              self' [] 0 Him) as [lg' Hfail]; [lia|].
  rewrite Hfail in Hrun. discriminate.
Qed.

(** When the case ids of the subset files are their own positions
    (cases [0, 1, 2, ...] in train, validation, test order), the ROI
    attached to a sample is the record of the case that owns the index. *)
Theorem roi_of_owner_when_ids_are_positions (idx : Z) (lg : list event)
    (d : sample) (s' : state) :
  (∀ (c : nat) case, cases !! c = Some case → case = Z.of_nat c) →
  0 ≤ idx < len (_imgs self) →
  get_stack_img np_load np_stack_axis2 idx {| obj := self; log := lg |} = (Ret d, s') →
  ∃ (c : nat) case,
    img_idx_to_case_idx idx {| obj := self; log := lg |}
      = (Ret (Z.of_nat c), {| obj := self; log := lg |}) ∧
    cases !! c = Some case ∧
    match rois with
    | None => d !! "roi"%string = Some VNone
    | Some table =>
        ∃ entry rec, table !! case_key case = Some entry ∧
                     entry !! "kidney"%string = Some rec ∧
                     d !! "roi"%string = Some (VRoi rec)
    end.
Proof.
  intros Hids Hidx Hrun. destruct init_fields as (Hb & _ & _ & _ & _ & _ & _ & _ & _ & _ & _ & Hrois & _).
  destruct (owner_block idx lg Hidx) as (c & case & Hcase & Hlist & _).
  destruct (get_stack_img_run np_load np_stack_axis2 self lg idx Hb Hidx)
    as (c0 & n & lab & r & Hcase0 & _ & Hrun0 & _ & Hret & _).
  cbn zeta in *. rewrite Hcase in Hcase0. injection Hcase0 as <-.
  rewrite Hrun in Hrun0. injection Hrun0 as <- _.
  destruct (Hret d eq_refl) as (_ & arrs & img & label & roi & _ & _ & -> & _ & Hroi).
  exists c, case. split; [done|]. split; [done|].
  rewrite Hrois in Hroi. rewrite (Hids _ _ Hlist).
  destruct rois as [table|].
  - destruct Hroi as (entry & rec & He & Hk & ->). by exists entry, rec.
  - by subst roi.
Qed.

(** *** The stack around a valid index *)

Lemma clamp_window_lookup (lo hi idx h : Z) (k : nat) (a : Z) :
  (clamp lo hi <$> range (idx - h) (idx + h + 1)) !! k = Some a ↔
  a = clamp lo hi (idx - h + Z.of_nat k) ∧ Z.of_nat k < 2 * h + 1.
Proof.
  unfold range. rewrite list_lookup_fmap.
  replace (idx + h + 1 - (idx - h)) with (2 * h + 1) by lia.
  destruct (seqZ (idx - h) (2 * h + 1) !! k) as [j|] eqn:E; cbn.
  - apply lookup_seqZ in E as [-> Hk]. split; [intros [= <-]; done|intros [-> _]; done].
  - split; [done|]. intros [_ Hk].
    assert (seqZ (idx - h) (2 * h + 1) !! k = Some (idx - h + Z.of_nat k)) as E'
      by (by apply lookup_seqZ).
    congruence.
Qed.

Lemma clamp_step (lo hi i : Z) :
  lo < hi → clamp lo hi i ≤ clamp lo hi (i + 1) ≤ clamp lo hi i + 1.
Proof.
  intros H. unfold clamp.
  destruct (Z.ltb_spec i lo), (Z.ltb_spec (i + 1) lo),
    (Z.leb_spec hi i), (Z.leb_spec hi (i + 1)); lia.
Qed.

(** A read of a valid index that returns has read [2 * (stack_num // 2) + 1]
    slices: [stack_num] of them for an odd stack width, one more for an
    even one.  The middle one is the requested slice, neighbouring entries
    are the same slice or consecutive ones, and the sample carries the
    requested index. *)
Theorem stack_around_index (idx : Z) (lg : list event) (d : sample) (s' : state) :
  0 ≤ idx < len (_imgs self) → 0 < stack_num →
  get_stack_img np_load np_stack_axis2 idx {| obj := self; log := lg |} = (Ret d, s') →
  ∃ evs,
    s' = {| obj := self; log := lg ++ evs |} ∧
    len (img_refs evs) = 2 * (stack_num `div` 2) + 1 ∧
    (Z.odd stack_num = true → len (img_refs evs) = stack_num) ∧
    (Z.even stack_num = true → len (img_refs evs) = stack_num + 1) ∧
    img_refs evs !! Z.to_nat (stack_num `div` 2) = Some idx ∧
    (∀ (k : nat) a b,
       img_refs evs !! k = Some a → img_refs evs !! S k = Some b → a ≤ b ≤ a + 1) ∧
    d !! "index"%string = Some (VInt idx).
Proof.
  intros Hidx Hpos Hrun.
  destruct init_fields as (Hb & _ & _ & _ & _ & _ & _ & _ & _ & _ & Hsn & _).
  destruct (built_owner self idx lg Hb Hidx)
    as (c & Hc & Hin & Hlo0 & HhiN & _ & _ & Hcase & _).
  destruct (get_stack_img_run np_load np_stack_axis2 self lg idx Hb Hidx)
    as (c0 & n & lab & r & Hcase0 & _ & Hrun0 & Hlab & Hret & _).
  cbn zeta in *. assert (c0 = c) as -> by congruence.
  rewrite Hrun in Hrun0. injection Hrun0 as <- ->.
  destruct (Hret d eq_refl) as (-> & arrs & img & label & roi & _ & _ & -> & _).
  set (lo := boundary (all_nums self) c) in *.
  set (hi := boundary (all_nums self) (c + 1)) in *.
  set (h := stack_num `div` 2).
  assert (0 ≤ h) as Hh by (apply Z.div_pos; lia).
  eexists. split; [done|].
  assert (img_refs (window_events self lo hi (take (length (window self idx)) (window self idx))
                    ++ lab)
          = clamp lo hi <$> range (idx - h) (idx + h + 1)) as ->.
  { rewrite firstn_all, img_refs_app, img_refs_window_events.
    assert (img_refs lab = []) as -> by (by destruct Hlab as [->|[_ ->]]).
    rewrite app_nil_r. unfold window. by rewrite Hsn. }
  assert (len (clamp lo hi <$> range (idx - h) (idx + h + 1)) = 2 * h + 1) as Hlen.
  { unfold len, range. rewrite length_fmap, length_seqZ. lia. }
  split; [done|].
  pose proof (Z.div_mod stack_num 2 ltac:(lia)) as Hdm. fold h in Hdm.
  split; [intros Ho; rewrite Hlen; rewrite Zmod_odd, Ho in Hdm; lia|].
  split; [intros He; rewrite Hlen; rewrite Zmod_even, He in Hdm; lia|].
  split.
  { apply clamp_window_lookup. split; [|lia].
    replace (idx - h + Z.of_nat (Z.to_nat h)) with idx by lia.
    unfold clamp. destruct (Z.ltb_spec idx lo); [lia|].
    destruct (Z.leb_spec hi idx); [lia|done]. }
  split; [|done].
  intros k a b Ha Hb'. apply clamp_window_lookup in Ha as [-> _], Hb' as [-> _].
  replace (idx - h + Z.of_nat (S k)) with (idx - h + Z.of_nat k + 1) by lia.
  apply clamp_step. lia.
Qed.

(** *** Indices outside the dataset *)

(** A read at an index at or past the end never returns a sample. *)
Theorem read_past_end_raises (idx : Z) (lg : list event) :
  len (_imgs self) ≤ idx →
  (∃ e s', get_stack_img np_load np_stack_axis2 idx {| obj := self; log := lg |}
           = (Raise e, s')) ∧
  (∃ e s', __getitem__ np_load np_stack_axis2 image_to_tensor to_numpy pad_resize idx
                       {| obj := self; log := lg |} = (Raise e, s')).
Proof.
  intros Hidx. destruct init_fields as (Hb & _).
  assert (∃ e s', get_stack_img np_load np_stack_axis2 idx {| obj := self; log := lg |}
                  = (Raise e, s')) as (e & s' & Hrun).
  { unfold get_stack_img. rewrite run_bind.
    destruct (img_idx_to_case_idx idx _) as [[c|e] [o1 l1]] eqn:E1; [|eauto].
    pose proof (reader_obj _ {| obj := self; log := lg |}
                  (reader_img_idx_to_case_idx idx)) as Ho.
    rewrite E1 in Ho. cbn in Ho. subst o1. mrun.
    destruct (mapM (stack_slice np_load c)
                (range (idx - _stack_num self `div` 2) (idx + _stack_num self `div` 2 + 1))
                {| obj := self; log := l1 |}) as [[arrs|e] [o2 l2]] eqn:E2; [|eauto].
    pose proof (reader_obj _ {| obj := self; log := l1 |}
                  (reader_mapM (stack_slice np_load c)
                     (range (idx - _stack_num self `div` 2)
                            (idx + _stack_num self `div` 2 + 1))
                     (reader_stack_slice np_load c))) as Ho.
    rewrite E2 in Ho. cbn in Ho. subst o2. mrun.
    destruct (np_stack_axis2 arrs) as [img|e]; [|eauto]. mrun.
    assert (contains idx (_test_indices self) = false) as ->.
    { apply contains_false. rewrite (built_test _ Hb), elem_of_seqZ.
      rewrite <- (built_total _ Hb) in Hidx. unfold all_nums in Hidx.
      rewrite !sum_Z_app in Hidx. lia. }
    mrun. rewrite getitem_past_end; [eauto|].
    rewrite (built_labels _ Hb). rewrite <- (built_total _ Hb) in Hidx.
    unfold all_nums in Hidx. rewrite !sum_Z_app in Hidx.
    pose proof (built_nonneg _ Hb) as Hnn. unfold all_nums in Hnn.
    apply Forall_app in Hnn as [_ H3]. apply sum_Z_nonneg in H3. lia. }
  split; [eauto|].
  unfold __getitem__. rewrite run_bind, Hrun. eauto.
Qed.

(** A negative index is not rejected.  When the first listed case has
    slices and the read of an index [-len(labels) <= idx < 0] returns,
    every image of the stack is a slice of the first case, while the
    label is the one [idx] counts from the end of the label list. *)
Theorem negative_index_read (idx hi0 : Z) (lg : list event) (d : sample) (s' : state) :
  - len (_labels self) ≤ idx < 0 →
  _case_slice_indices self !! 1%nat = Some hi0 → 0 < hi0 →
  get_stack_img np_load np_stack_axis2 idx {| obj := self; log := lg |} = (Ret d, s') →
  ∃ evs lp a,
    s' = {| obj := self; log := lg ++ evs |} ∧
    img_refs evs = clamp 0 hi0 <$> window self idx ∧
    Forall (λ j, 0 ≤ j < hi0) (img_refs evs) ∧
    _labels self !! Z.to_nat (len (_labels self) + idx) = Some lp ∧
    np_load lp = Ret a ∧
    d !! "label"%string = Some (VArray a) ∧
    d !! "index"%string = Some (VInt idx).
Proof.
  intros Hidx Hhi0 Hpos Hrun. destruct init_fields as (Hb & _).
  assert (1 ≤ len (all_nums self)) as Hn1.
  { apply lookup_lt_Some in Hhi0. rewrite (built_csi _ Hb) in Hhi0.
    rewrite case_slice_indices_length in Hhi0. unfold len. lia. }
  assert (hi0 = boundary (all_nums self) 1) as Hhi.
  { pose proof (boundary_lookup self 1 Hb ltac:(lia)) as H1.
    change (Z.to_nat 1) with 1%nat in H1. congruence. }
  assert (hi0 ≤ len (_imgs self)) as HhiN.
  { rewrite Hhi, <- (built_total _ Hb). unfold boundary.
    pose proof (sum_Z_take_mono (all_nums self) (Z.to_nat 1) (length (all_nums self))
                  (built_nonneg _ Hb)) as Hm.
    rewrite firstn_all in Hm. apply Hm. unfold len in Hn1. lia. }
  assert (getitem (_case_slice_indices self) 0 = Ret 0) as Hg0.
  { apply getitem_lookup; [lia|]. by rewrite (boundary_lookup self 0 Hb) by lia. }
  assert (getitem (_case_slice_indices self) (0 + 1) = Ret hi0) as Hg1.
  { apply getitem_lookup; [lia|]. done. }
  unfold get_stack_img in Hrun. rewrite run_bind in Hrun.
  assert (img_idx_to_case_idx idx {| obj := self; log := lg |}
          = (Ret 0, {| obj := self; log := lg |})) as Hcase.
  { unfold img_idx_to_case_idx. mrun.
    rewrite (built_csi _ Hb), case_loop_outside; [done|apply (built_nonneg _ Hb)|lia]. }
  rewrite Hcase in Hrun. revert Hrun. mrun. fold (window self idx).
  destruct (window_run np_load self 0 0 hi0 (window self idx) lg Hg0 Hg1)
    as (n & r & Hn & Hw & Hret & _); [lia..|].
  rewrite Hw. destruct r as [arrs|e]; [|done].
  destruct (Hret arrs eq_refl) as [-> _]. rewrite firstn_all. mrun.
  destruct (np_stack_axis2 arrs) as [img|e]; [|done]. mrun.
  assert (contains idx (_test_indices self) = false) as ->.
  { apply contains_false. rewrite (built_test _ Hb), elem_of_seqZ.
    pose proof (built_nonneg _ Hb) as Hnn. unfold all_nums in Hnn.
    apply Forall_app in Hnn as [Hnn _]. apply Forall_app in Hnn as [H1 H2].
    apply sum_Z_nonneg in H1, H2. lia. }
  mrun.
  destruct (lookup_lt_is_Some_2 (_labels self) (Z.to_nat (len (_labels self) + idx)))
    as [lp Hlp]; [unfold len in *; lia|].
  assert (getitem (_labels self) idx = Ret lp) as ->.
  { unfold getitem. destruct (Z.ltb_spec idx 0); [|lia].
    destruct (Z.ltb_spec (idx + len (_labels self)) 0); [lia|].
    replace (idx + len (_labels self)) with (len (_labels self) + idx) by lia.
    by rewrite Hlp. }
  mrun. destruct (np_load lp) as [a|e] eqn:Ea; [|done]. mrun.
  intros Hrun.
  assert (∃ roi, d = sample_of img (VArray a) idx roi ∧
                 s' = {| obj := self;
                         log := ((lg ++ window_events self 0 hi0 (window self idx))
                                 ++ [LabelRef idx]) ++ [NpLoad lp] |})
    as (roi & -> & ->).
  { destruct (_rois self) as [table|]; mrun.
    - revert Hrun. mrun.
      destruct (lookup_key table (case_key 0)) as [entry|]; [|done]. mrun.
      destruct (lookup_key entry "kidney"%string) as [rec|]; [|done]. mrun.
      intros [= <- <-]. by exists (VRoi rec).
    - revert Hrun. mrun. intros [= <- <-]. by exists VNone. }
  exists (window_events self 0 hi0 (window self idx) ++ [LabelRef idx; NpLoad lp]), lp, a.
  split; [by rewrite <- !app_assoc|].
  rewrite img_refs_app, img_refs_window_events. cbn [img_refs omap]. rewrite app_nil_r.
  split; [done|]. split.
  { apply Forall_fmap, Forall_forall. intros i _. by apply clamp_in_range. }
  done.
Qed.

(** Construction succeeds only on checked input: every listed case has an
    imaging directory and, when an ROI table is configured, a complete
    entry in it; every train and validation case also has a segmentation
    directory and keeps as many label files as image files. *)
Theorem constructed_cases_checked :
  Forall (λ case,
            fs_exists fs [case_key case; "imaging"%string] = true ∧
            ∀ table, rois = Some table → roi_entry_ok table case = true) cases ∧
  Forall (λ case,
            fs_exists fs [case_key case; "segmentation"%string] = true ∧
            len (kept_labels case) = len (kept case)) (train_case ++ valid_case).
Proof.
  destruct init_fields as (_ & _ & _ & _ & _ & _ & _ & _ & Hall & Htv & _). split.
  - eapply Forall_impl; [exact Hall|]. intros case Hok. unfold case_ok in Hok.
    apply andb_prop in Hok as [Hok _]. apply andb_prop in Hok as [Hdir Hb].
    split; [done|]. intros table ->.
    destruct (roi_bounds _ _ _ _) as [r|] eqn:E; [|done].
    by eapply roi_bounds_Ret_entry.
  - eapply Forall_impl; [exact Htv|]. intros case Hok. unfold case_ok in Hok.
    apply andb_prop in Hok as [_ Hok]. cbn [orb] in Hok.
    apply andb_prop in Hok as [Hseg Hlen]. split; [done|].
    by apply bool_decide_eq_true in Hlen.
Qed.

(** *** Transforms *)

Lemma built_subsets_disjoint (o : KiTS19) (idx : Z) :
  built o →
  (contains idx (_train_indices o) = true →
   contains idx (_valid_indices o) = false ∧ contains idx (_test_indices o) = false) ∧
  (contains idx (_valid_indices o) = true → contains idx (_test_indices o) = false).
Proof.
  intros Hb.
  pose proof (built_nonneg _ Hb) as Hnn. unfold all_nums in Hnn.
  apply Forall_app in Hnn as [Hnn H3]. apply Forall_app in Hnn as [H1 H2].
  apply sum_Z_nonneg in H1, H2, H3.
  rewrite (built_train _ Hb), (built_valid _ Hb), (built_test _ Hb).
  split.
  - intros Ht%contains_true%elem_of_seqZ.
    split; apply contains_false; rewrite elem_of_seqZ; lia.
  - intros Hv%contains_true%elem_of_seqZ.
    apply contains_false; rewrite elem_of_seqZ; lia.
Qed.

Lemma getitem_dispatch (idx : Z) (lg : list event) :
  __getitem__ np_load np_stack_axis2 image_to_tensor to_numpy pad_resize idx
              {| obj := self; log := lg |}
  = (data ← get_stack_img np_load np_stack_axis2 idx;
     data ← apply_transform (subset_transform self idx) data;
     _default_transform image_to_tensor to_numpy pad_resize data)
      {| obj := self; log := lg |}.
Proof.
  destruct init_fields as (Hb & _).
  unfold __getitem__. rewrite !run_bind.
  destruct (get_stack_img np_load np_stack_axis2 idx {| obj := self; log := lg |})
    as [[d0|e] [o1 l1]] eqn:E1; [|done].
  pose proof (reader_obj _ {| obj := self; log := lg |}
                (reader_get_stack_img np_load np_stack_axis2 idx)) as Ho.
  rewrite E1 in Ho. cbn in Ho. subst o1. mrun.
  destruct (built_subsets_disjoint self idx Hb) as [Ht Hv].
  unfold subset_transform, apply_transform.
  destruct (contains idx (_train_indices self)) eqn:Etr.
  - destruct (Ht eq_refl) as [-> ->].
    destruct (_train_transform self) as [t|]; [done|].
    by destruct (_valid_transform self), (_test_transform self).
  - destruct (contains idx (_valid_indices self)) eqn:Eva.
    + rewrite (Hv eq_refl).
      destruct (_valid_transform self) as [t|]; [done|].
      by destruct (_test_transform self).
    + destruct (contains idx (_test_indices self)); [|done].
      by destruct (_test_transform self).
Qed.

(** [__getitem__] passes a sample through the transform of the subset its
    index belongs to, and through no other: the [elif] chain falls
    through to a later subset only when the index is in no earlier one. *)
Theorem getitem_uses_subset_transform (idx : Z) (lg : list event) :
  __getitem__ np_load np_stack_axis2 image_to_tensor to_numpy pad_resize idx
              {| obj := self; log := lg |}
  = (data ← get_stack_img np_load np_stack_axis2 idx;
     data ← apply_transform (subset_transform self idx) data;
     _default_transform image_to_tensor to_numpy pad_resize data)
      {| obj := self; log := lg |}.
Proof. apply getitem_dispatch. Qed.

Lemma default_transform_fits (data : sample) (s : state) (a : ndarray)
    (h w : Z) (rest : list Z) (d' : sample) (s' : state) :
  data !! "image"%string = Some (VArray a) →
  shape a = h :: w :: rest → _img_size (obj s) = (h, w) →
  _default_transform image_to_tensor to_numpy pad_resize data s = (Ret d', s') →
  s' = s ∧
  (∃ t, image_to_tensor a = Ret t ∧ d' !! "image"%string = Some (VArray t)) ∧
  (∀ k : string, k ≠ "image"%string → k ≠ "label"%string → d' !! k = data !! k) ∧
  match data !! "label"%string with
  | Some VNone => d' !! "label"%string = Some VNone
  | Some (VArray l) =>
      ∃ px, remap_label (_spec_classes (obj s)) (elems l) = Ret px ∧
            d' !! "label"%string = Some (VArray {| shape := shape l; elems := px |})
  | _ => False
  end.
Proof.
  intros Himg Hshape Hsize. destruct s as [o lg]. cbn [obj] in *.
  unfold _default_transform. mrun.
  assert (array_at data "image"%string = Ret a) as Ha.
  { unfold array_at, lookup_key. by rewrite Himg. }
  rewrite Ha. mrun. rewrite Hshape.
  change (getitem (h :: w :: rest) 0) with (@Ret Z h).
  change (getitem (h :: w :: rest) 1) with (@Ret Z w). mrun.
  rewrite Hsize. rewrite bool_decide_eq_false_2 by (by intros []). mrun.
  rewrite Ha. mrun. unfold lookup_key at 1.
  destruct (data !! "label"%string) as [label|] eqn:El; [|done]. mrun.
  destruct (image_to_tensor a) as [t|] eqn:Et; [|done]. mrun.
  assert (∀ (v : value) (k : string), k ≠ "image"%string → k ≠ "label"%string →
            (<["label"%string := v]> (<["image"%string := VArray t]> data)) !! k = data !! k)
    as Hthru2.
  { intros v k H1 H2. by rewrite !lookup_insert_ne. }
  destruct label as [|z|l|r]; mrun; try done.
  - intros [= <- <-]. split; [done|].
    split; [exists t; split; [done|]; by rewrite lookup_insert|].
    split; [intros k H1 H2; by rewrite lookup_insert_ne|].
    by rewrite lookup_insert_ne.
  - destruct (remap_label (_spec_classes o) (elems l)) as [px|] eqn:Ep; [|done]. mrun.
    intros [= <- <-]. split; [done|].
    split; [exists t; split; [done|]; by rewrite lookup_insert_ne, lookup_insert|].
    split; [apply Hthru2|].
    exists px. split; [done|]. by rewrite lookup_insert.
Qed.


(** A sample of a valid index keeps its index and its ROI through
    [__getitem__] when its subset has no transform and the stacked image
    already has the configured size. *)
Theorem getitem_keeps_index (idx : Z) (lg : list event) (d0 d : sample)
    (s0 s' : state) (a : ndarray) (h w : Z) (rest : list Z) :
  0 ≤ idx < len (_imgs self) →
  subset_transform self idx = None →
  get_stack_img np_load np_stack_axis2 idx {| obj := self; log := lg |} = (Ret d0, s0) →
  d0 !! "image"%string = Some (VArray a) → shape a = h :: w :: rest →
  img_size = (h, w) →
  __getitem__ np_load np_stack_axis2 image_to_tensor to_numpy pad_resize idx
              {| obj := self; log := lg |} = (Ret d, s') →
  s' = s0 ∧ d !! "index"%string = Some (VInt idx) ∧ d !! "roi"%string = d0 !! "roi"%string.
Proof.
  intros Hidx Hnone Hstack Himg Hshape Hsize Hrun.
  destruct init_fields as (Hb & _ & _ & _ & _ & _ & _ & _ & _ & _ & _ & _ & _ & Hsz & _).
  rewrite getitem_dispatch, Hnone in Hrun.
  rewrite run_bind, Hstack in Hrun. cbn [apply_transform] in Hrun.
  destruct s0 as [o0 l0].
  pose proof (reader_obj _ {| obj := self; log := lg |}
                (reader_get_stack_img np_load np_stack_axis2 idx)) as Ho.
  rewrite Hstack in Ho. cbn in Ho. subst o0.
  revert Hrun. mrun. intros Hrun.
  destruct (default_transform_fits d0 {| obj := self; log := l0 |} a h w rest d s'
              Himg Hshape) as (-> & _ & Hthru & _);
    [cbn; congruence|exact Hrun|].
  split; [done|].
  destruct (get_stack_img_run np_load np_stack_axis2 self lg idx Hb Hidx)
    as (c0 & n & lab & r & _ & _ & Hrun0 & _ & Hret & _).
  cbn zeta in *. rewrite Hstack in Hrun0. injection Hrun0 as <- _.
  destruct (Hret d0 eq_refl) as (_ & arrs & img & label & roi & _ & _ & -> & _).
  rewrite !Hthru by done. done.
Qed.

(** *** Slice names *)

Lemma list_ascii_of_string_app (s t : string) :
  String.list_ascii_of_string (String.app s t)
  = String.list_ascii_of_string s ++ String.list_ascii_of_string t.
Proof.
  induction s as [|c s IH]; [done|].
  change (String.app (String c s) t) with (String c (String.app s t)).
  cbn [String.list_ascii_of_string]. by rewrite IH.
Qed.

Lemma slice_strip_suffix {A} (l k : list A) :
  0 < len k → slice (l ++ k) 0 (- len k) = l.
Proof.
  intros Hk. unfold slice, slice_bound. rewrite len_app.
  pose proof (len_nonneg l).
  destruct (Z.ltb_spec 0 0); [lia|]. destruct (Z.ltb_spec (- len k) 0); [|lia].
  rewrite Z.min_l by lia. change (Z.to_nat 0) with 0%nat. rewrite drop_0.
  replace (Z.max 0 (- len k + (len l + len k)) - 0) with (len l) by lia.
  unfold len. rewrite Nat2Z.id. by rewrite take_app_length.
Qed.

Lemma str_slice_strip_npy (stem : string) :
  str_slice (String.app stem ".npy") 0 (-4) = stem.
Proof.
  unfold str_slice. rewrite list_ascii_of_string_app.
  change (-4) with (- len (String.list_ascii_of_string ".npy")).
  rewrite slice_strip_suffix by done.
  apply String.string_of_list_ascii_of_string.
Qed.

Lemma getitem_from_end_3 {A} (l : list A) (a b c : A) :
  getitem (l ++ [a; b; c]) (-3) = Ret a ∧ getitem (l ++ [a; b; c]) (-1) = Ret c.
Proof.
  unfold getitem. rewrite len_app. change (len [a; b; c]) with 3.
  pose proof (len_nonneg l). unfold len in *.
  split.
  - destruct (Z.ltb_spec (-3) 0); [|lia].
    destruct (Z.ltb_spec (-3 + (Z.of_nat (length l) + 3)) 0); [lia|].
    replace (Z.to_nat (-3 + (Z.of_nat (length l) + 3))) with (length l + 0)%nat by lia.
    by rewrite lookup_app_r, Nat.add_comm, Nat.add_sub by lia.
  - destruct (Z.ltb_spec (-1) 0); [|lia].
    destruct (Z.ltb_spec (-1 + (Z.of_nat (length l) + 3)) 0); [lia|].
    replace (Z.to_nat (-1 + (Z.of_nat (length l) + 3))) with (length l + 2)%nat by lia.
    by rewrite lookup_app_r, Nat.add_comm, Nat.add_sub by lia.
Qed.

Lemma path_of_component_case_key (case : Z) :
  path_of_component (case_key case) = [case_key case].
Proof.
  unfold path_of_component. rewrite bool_decide_eq_false_2; [done|].
  unfold case_key. generalize (format_05d case). intros x.
  cbv [String.append]. by intros [|].
Qed.

(** [idx_to_name] of a valid index is the directory name of the case that
    owns the index followed by the file name of the slice cut by four
    characters, which for a file [stem.npy] is [stem]; an index at or past
    the end raises [IndexError]. *)
Theorem idx_to_name_spec (root : path) (idx : Z) (lg : list event) :
  (0 ≤ idx < len (_imgs self) →
   ∃ (c : nat) case name,
     img_idx_to_case_idx idx {| obj := self; log := lg |}
       = (Ret (Z.of_nat c), {| obj := self; log := lg |}) ∧
     cases !! c = Some case ∧
     _imgs self !! Z.to_nat idx = Some [case_key case; "imaging"%string; name] ∧
     idx_to_name root idx {| obj := self; log := lg |}
       = (Ret (case_key case :: path_of_component (str_slice name 0 (-4))),
          {| obj := self; log := lg ++ [ImgRef idx] |}) ∧
     ∀ stem, name = String.app stem ".npy" → str_slice name 0 (-4) = stem) ∧
  (len (_imgs self) ≤ idx →
   idx_to_name root idx {| obj := self; log := lg |}
     = (Raise IndexError, {| obj := self; log := lg ++ [ImgRef idx] |})).
Proof.
  split.
  - intros Hidx.
    destruct (owner_block idx lg Hidx) as (c & case & Hrun & Hcase & _ & _ & Hin & _ & Him).
    cbn zeta in *.
    destruct (lookup_lt_is_Some_2 (kept case)
                (Z.to_nat (idx - boundary (all_nums self) (Z.of_nat c)))) as [p Hp].
    { unfold len in Hin. lia. }
    pose proof (case_imgs_parts rois roi_error_range fs case) as Hparts.
    rewrite Forall_lookup in Hparts. destruct (Hparts _ _ Hp) as [name ->].
    rewrite Hp in Him.
    exists c, case, name. split; [done|]. split; [done|]. split; [done|].
    split; [|intros stem ->; apply str_slice_strip_npy].
    unfold idx_to_name. mrun.
    rewrite (getitem_lookup _ _ _ (proj1 Hidx) Him). mrun.
    destruct (getitem_from_end_3 root (case_key case) "imaging"%string name) as [-> ->].
    mrun. by rewrite path_of_component_case_key.
  - intros Hidx. unfold idx_to_name. mrun. by rewrite getitem_past_end.
Qed.

(** *** The subsets and the cases *)

Lemma take_cases_train :
  take (length train_case) (kept <$> cases) = kept <$> train_case.
Proof.
  unfold all_cases. rewrite !fmap_app, <- app_assoc.
  by rewrite take_app_length' by (by rewrite length_fmap).
Qed.

Lemma take_cases_train_valid :
  take (length train_case + length valid_case) (kept <$> cases)
  = kept <$> (train_case ++ valid_case).
Proof.
  unfold all_cases. rewrite (fmap_app _ (train_case ++ valid_case)).
  by rewrite take_app_length' by (by rewrite length_fmap, length_app).
Qed.

(** No slice changes subset: an index is a train index exactly when the
    case that owns it is listed in the train file, a validation index
    exactly when that case is listed in the validation file, and a test
    index exactly when it is listed in the test file (by position in the
    concatenated case list). *)
Theorem subset_of_index_is_subset_of_case (idx : Z) (lg : list event) :
  0 ≤ idx < len (_imgs self) →
  ∃ (c : nat) case,
    img_idx_to_case_idx idx {| obj := self; log := lg |}
      = (Ret (Z.of_nat c), {| obj := self; log := lg |}) ∧
    cases !! c = Some case ∧
    (idx ∈ _train_indices self ↔ (c < length train_case)%nat) ∧
    (idx ∈ _valid_indices self ↔
       (length train_case ≤ c < length train_case + length valid_case)%nat) ∧
    (idx ∈ _test_indices self ↔ (length train_case + length valid_case ≤ c)%nat) ∧
    (idx ∈ _train_indices self → train_case !! c = Some case) ∧
    (idx ∈ _valid_indices self → valid_case !! (c - length train_case)%nat = Some case) ∧
    (idx ∈ _test_indices self →
       test_case !! (c - (length train_case + length valid_case))%nat = Some case).
Proof.
  intros Hidx.
  destruct init_fields as (Hb & Him & _ & _ & Htn & Hvn & Hsn & _).
  destruct (owner_block idx lg Hidx) as (c & case & Hrun & Hcase & _ & _ & Hin & Hlo & _).
  cbn zeta in *. set (lo := boundary (all_nums self) (Z.of_nat c)) in *.
  set (L := kept <$> cases) in *.
  assert (len (concat (take (S c) L)) = lo + len (kept case)) as Hnext.
  { rewrite (take_S_r L c (kept case)) by (unfold L; by rewrite list_lookup_fmap, Hcase).
    rewrite concat_app, len_app, <- Hlo. cbn. rewrite app_nil_r. done. }
  set (T := len (concat (kept <$> train_case))).
  set (V := len (concat (kept <$> valid_case))).
  assert (∀ l : list Z, (λ c, len (kept c)) <$> l = (λ x : list path, len x) <$> (kept <$> l))
    as Hcomp by (intros l; by rewrite <- list_fmap_compose).
  assert (sum_Z (_train_case_slice_num self) = T) as HT.
  { rewrite Htn, Hcomp. apply sum_Z_len_concat. }
  assert (sum_Z (_valid_case_slice_num self) = V) as HV.
  { rewrite Hvn, Hcomp. apply sum_Z_len_concat. }
  assert (len (concat (take (length train_case) L)) = T) as HtT
    by (unfold L; by rewrite take_cases_train).
  assert (len (concat (take (length train_case + length valid_case) L)) = T + V) as HtV.
  { unfold L. rewrite take_cases_train_valid, fmap_app, concat_app, len_app. done. }
  assert (len (_imgs self) = len (concat L)) as HN by (by rewrite Him).
  assert ((c < length train_case)%nat ↔ idx < T) as Ctrain.
  { split.
    - intros Hc. pose proof (len_concat_take_le L (S c) (length train_case) ltac:(lia)). lia.
    - intros Hi. destruct (decide (c < length train_case)%nat) as [|Hge]; [done|].
      pose proof (len_concat_take_le L (length train_case) c ltac:(lia)). lia. }
  assert ((c < length train_case + length valid_case)%nat ↔ idx < T + V) as Cvalid.
  { split.
    - intros Hc.
      pose proof (len_concat_take_le L (S c) (length train_case + length valid_case)
                    ltac:(lia)). lia.
    - intros Hi.
      destruct (decide (c < length train_case + length valid_case)%nat) as [|Hge]; [done|].
      pose proof (len_concat_take_le L (length train_case + length valid_case) c
                    ltac:(lia)). lia. }
  pose proof (len_nonneg (concat (kept <$> valid_case))) as HV0. fold V in HV0.
  pose proof (len_nonneg (concat (kept <$> train_case))) as HT0. fold T in HT0.
  assert (idx ∈ _train_indices self ↔ (c < length train_case)%nat) as Etr.
  { rewrite (built_train _ Hb), elem_of_seqZ, HT. rewrite Ctrain. lia. }
  assert (idx ∈ _valid_indices self ↔
            (length train_case ≤ c < length train_case + length valid_case)%nat) as Eva.
  { rewrite (built_valid _ Hb), elem_of_seqZ, HT, HV.
    split; [intros Hi; split; [|apply Cvalid; lia]|intros [H1 H2%Cvalid]].
    - destruct (decide (length train_case ≤ c)%nat) as [|Hlt]; [done|].
      assert (idx < T) by (apply Ctrain; lia). lia.
    - destruct (decide (idx < T)) as [Hlt%Ctrain|]; lia. }
  assert (idx ∈ _test_indices self ↔ (length train_case + length valid_case ≤ c)%nat)
    as Ete.
  { rewrite (built_test _ Hb), elem_of_seqZ, HT, HV.
    rewrite <- (built_total _ Hb) in Hidx. unfold all_nums in Hidx.
    rewrite !sum_Z_app, HT, HV in Hidx.
    split.
    - intros Hi. destruct (decide (length train_case + length valid_case ≤ c)%nat)
        as [|Hlt]; [done|].
      assert (idx < T + V) by (apply Cvalid; lia). lia.
    - intros Hc. destruct (decide (idx < T + V)) as [Hlt%Cvalid|]; lia. }
  exists c, case. split; [done|]. split; [done|].
  split; [done|]. split; [done|]. split; [done|].
  unfold all_cases in Hcase.
  split; [|split].
  - intros Hc%Etr. by rewrite lookup_app_l, lookup_app_l in Hcase by (rewrite ?length_app; lia).
  - intros Hc%Eva. rewrite lookup_app_l in Hcase by (rewrite length_app; lia).
    by rewrite lookup_app_r in Hcase by lia.
  - intros Hc%Ete. rewrite lookup_app_r in Hcase by (rewrite length_app; lia).
    by rewrite length_app in Hcase.
Qed.

End Catalogue.

Example demo_zero_init_ok : demo_zero_init = Ret demo_zero.
Proof. vm_compute. reflexivity. Qed.

(** Index 12 of the concrete dataset is the third slice of case 2. *)
Lemma imgs_entry_of_owning_case_witness :
  ∃ name,
    img_idx_to_case_idx 12 {| obj := demo; log := [] |}
      = (Ret 1, {| obj := demo; log := [] |}) ∧
    _imgs demo !! 12%nat = Some ["case_00002"; "imaging"; name]%string.
Proof.
  destruct (imgs_entry_of_owning_case demo_np_load demo_np_stack demo_image_to_tensor
              demo_to_numpy demo_pad_resize
              demo_fs 3 None (2, 2) None 0 None None None [1] [2] [] demo
              demo_init_ok 12 [])
    as (c & case & lo & name & Hrun & Hcase & _ & _ & _ & _ & Hp).
  { rewrite demo_len. lia. }
  assert (img_idx_to_case_idx 12 {| obj := demo; log := [] |}
          = (Ret 1, {| obj := demo; log := [] |})) as Hc by (vm_compute; reflexivity).
  assert (c = 1%nat) as -> by (rewrite Hc in Hrun; injection Hrun; lia).
  vm_compute in Hcase. injection Hcase as <-.
  exists name. split; [exact Hc | exact Hp].
Defined.

(** Index 12 of the concrete dataset: image and label are the third files
    of the two directories of case 2. *)
Lemma image_label_aligned_witness :
  ∃ (z : nat) pi pl,
    _imgs demo !! 12%nat = Some pi ∧ _labels demo !! 12%nat = Some pl ∧
    listing demo_fs 2 "imaging" !! z = Some pi ∧
    listing demo_fs 2 "segmentation" !! z = Some pl.
Proof.
  destruct (image_label_aligned demo_np_load demo_np_stack demo_image_to_tensor
              demo_to_numpy demo_pad_resize
              demo_fs 3 None (2, 2) None 0 None None None [1] [2] [] demo
              demo_init_ok 12 [])
    as (c & case & z & pi & pl & Hrun & Hcase & _ & Hi & Hl & Hzi & Hzl).
  { right. vm_compute. repeat constructor. }
  assert (img_idx_to_case_idx 12 {| obj := demo; log := [] |}
          = (Ret 1, {| obj := demo; log := [] |})) as Hc by (vm_compute; reflexivity).
  assert (c = 1%nat) as -> by (rewrite Hc in Hrun; injection Hrun; lia).
  vm_compute in Hcase. injection Hcase as <-.
  exists z, pi, pl. split; [exact Hi|]. split; [exact Hl|]. split; [exact Hzi | exact Hzl].
Defined.

(** The concrete dataset has stack width 3 and sixteen slices. *)
Lemma constructed_nonempty_witness : 0 < len (_imgs demo).
Proof.
  apply (constructed_nonempty demo_np_load demo_np_stack demo_image_to_tensor
           demo_to_numpy demo_pad_resize
           demo_fs 3 None (2, 2) None 0 None None None [1] [2] [] demo demo_init_ok).
  lia.
Defined.

(** Cases 0 and 1 with the ROI file: index 3, the only slice kept of
    case 1, carries the record of case 1. *)
Lemma roi_of_owner_when_ids_are_positions_witness :
  ∃ d s' entry rec,
    get_stack_img demo_np_load demo_np_stack 3 {| obj := demo_zero; log := [] |} = (Ret d, s') ∧
    demo_rois !! case_key 1 = Some entry ∧ entry !! "kidney"%string = Some rec ∧
    d !! "roi"%string = Some (VRoi rec).
Proof.
  destruct (get_stack_img demo_np_load demo_np_stack 3 {| obj := demo_zero; log := [] |})
    as [[d|ex] s'] eqn:E; [|vm_compute in E; discriminate].
  destruct (roi_of_owner_when_ids_are_positions demo_np_load demo_np_stack
              demo_image_to_tensor demo_to_numpy demo_pad_resize
              demo_zero_fs 3 None (2, 2) (Some demo_rois) 0 None None None [0] [1] [] demo_zero
              demo_zero_init_ok 3 [] d s')
    as (c & case & Hrun & Hcase & entry & rec & He & Hk & Hd).
  { intros [|[|c]] case H; vm_compute in H;
      first [discriminate H | injection H as <-; reflexivity]. }
  { vm_compute. split; [discriminate | reflexivity]. }
  { exact E. }
  assert (img_idx_to_case_idx 3 {| obj := demo_zero; log := [] |}
          = (Ret 1, {| obj := demo_zero; log := [] |})) as Hc by (vm_compute; reflexivity).
  assert (c = 1%nat) as -> by (rewrite Hc in Hrun; injection Hrun; lia).
  vm_compute in Hcase. injection Hcase as <-.
  exists d, s', entry, rec. split; [reflexivity|]. split; [exact He|]. split; [exact Hk | exact Hd].
Defined.

(** Index 9 of the concrete dataset with stack width 3. *)
Lemma stack_around_index_witness :
  ∃ d evs,
    get_stack_img demo_np_load demo_np_stack 9 {| obj := demo; log := [] |}
      = (Ret d, {| obj := demo; log := evs |}) ∧
    len (img_refs evs) = 3 ∧ img_refs evs !! 1%nat = Some 9.
Proof.
  destruct (get_stack_img demo_np_load demo_np_stack 9 {| obj := demo; log := [] |})
    as [[d|ex] s'] eqn:E; [|vm_compute in E; discriminate].
  destruct (stack_around_index demo_np_load demo_np_stack demo_image_to_tensor
              demo_to_numpy demo_pad_resize
              demo_fs 3 None (2, 2) None 0 None None None [1] [2] [] demo
              demo_init_ok 9 [] d s')
    as (evs & -> & _ & Hodd & _ & Hmid & _).
  { rewrite demo_len. lia. }
  { lia. }
  { exact E. }
  exists d, evs. split; [reflexivity|]. split; [by apply Hodd | exact Hmid].
Defined.

(** Index 16 is one past the end of the concrete dataset. *)
Lemma read_past_end_raises_witness :
  ∃ e s', get_stack_img demo_np_load demo_np_stack 16 {| obj := demo; log := [] |}
          = (Raise e, s').
Proof.
  destruct (read_past_end_raises demo_np_load demo_np_stack demo_image_to_tensor
              demo_to_numpy demo_pad_resize
              demo_fs 3 None (2, 2) None 0 None None None [1] [2] [] demo
              demo_init_ok 16 []) as [H _].
  { rewrite demo_len. lia. }
  exact H.
Defined.

(** Index -1 of the concrete dataset: three reads of slice 0 of case 1, and
    the last label of case 2. *)
Lemma negative_index_read_witness :
  ∃ d evs,
    get_stack_img demo_np_load demo_np_stack (-1) {| obj := demo; log := [] |}
      = (Ret d, {| obj := demo; log := evs |}) ∧
    img_refs evs = [0; 0; 0] ∧
    _labels demo !! 15%nat = Some ["case_00002"; "segmentation"; "00005.npy"]%string ∧
    NpLoad ["case_00002"; "segmentation"; "00005.npy"]%string ∈ evs.
Proof.
  destruct (get_stack_img demo_np_load demo_np_stack (-1) {| obj := demo; log := [] |})
    as [[d|ex] s'] eqn:E; [|vm_compute in E; discriminate].
  destruct (negative_index_read demo_np_load demo_np_stack demo_image_to_tensor
              demo_to_numpy demo_pad_resize
              demo_fs 3 None (2, 2) None 0 None None None [1] [2] [] demo
              demo_init_ok (-1) 10 [] d s')
    as (evs & lp & a & -> & Hrefs & _ & Hlp & _).
  { assert (len (_labels demo) = 16) as -> by reflexivity. lia. }
  { reflexivity. }
  { lia. }
  { exact E. }
  exists d, evs. split; [reflexivity|]. split; [exact Hrefs|].
  split; [vm_compute; reflexivity|].
  vm_compute in E. injection E as _ <-. vm_compute. repeat constructor.
Defined.

(** The two cases of the concrete dataset have their four directories. *)
Lemma constructed_cases_checked_witness :
  Forall (λ case, fs_exists demo_fs [case_key case; "segmentation"%string] = true) [1; 2].
Proof.
  destruct (constructed_cases_checked demo_np_load demo_np_stack demo_image_to_tensor
              demo_to_numpy demo_pad_resize
              demo_fs 3 None (2, 2) None 0 None None None [1] [2] [] demo
              demo_init_ok) as [_ H].
  eapply Forall_impl; [exact H|]. by intros case [Hs _].
Defined.

(** Index 12, a validation index of the concrete dataset, which has no
    transforms. *)
Lemma getitem_uses_subset_transform_witness :
  subset_transform demo 12 = None ∧
  __getitem__ demo_np_load demo_np_stack demo_image_to_tensor demo_to_numpy
              demo_pad_resize 12 {| obj := demo; log := [] |}
  = (data ← get_stack_img demo_np_load demo_np_stack 12;
     data ← apply_transform (subset_transform demo 12) data;
     _default_transform demo_image_to_tensor demo_to_numpy demo_pad_resize data)
      {| obj := demo; log := [] |}.
Proof.
  split; [vm_compute; reflexivity|].
  apply (getitem_uses_subset_transform demo_np_load demo_np_stack demo_image_to_tensor
           demo_to_numpy demo_pad_resize
           demo_fs 3 None (2, 2) None 0 None None None [1] [2] [] demo demo_init_ok 12 []).
Defined.


(** Index 9 of the concrete dataset. *)
Lemma getitem_keeps_index_witness :
  ∃ d s',
    __getitem__ demo_np_load demo_np_stack demo_image_to_tensor demo_to_numpy
                demo_pad_resize 9 {| obj := demo; log := [] |} = (Ret d, s') ∧
    d !! "index"%string = Some (VInt 9).
Proof.
  destruct (get_stack_img demo_np_load demo_np_stack 9 {| obj := demo; log := [] |})
    as [[d0|ex] s0] eqn:E0; [|vm_compute in E0; discriminate].
  destruct (__getitem__ demo_np_load demo_np_stack demo_image_to_tensor demo_to_numpy
              demo_pad_resize 9 {| obj := demo; log := [] |})
    as [[d|ex] s'] eqn:E; [|vm_compute in E; discriminate].
  destruct (getitem_keeps_index demo_np_load demo_np_stack demo_image_to_tensor
              demo_to_numpy demo_pad_resize
              demo_fs 3 None (2, 2) None 0 None None None [1] [2] [] demo demo_init_ok
              9 [] d0 d s0 s'
              {| shape := [2; 2; 3]; elems := [0; 1; 2; 1; 0; 1; 2; 1; 0; 1; 2; 1] |}
              2 2 [3])
    as (_ & Hidx & _).
  - rewrite demo_len. lia.
  - vm_compute. reflexivity.
  - exact E0.
  - vm_compute in E0. injection E0 as <- _. vm_compute. reflexivity.
  - reflexivity.
  - reflexivity.
  - exact E.
  - exists d, s'. split; [reflexivity | exact Hidx].
Defined.

(** Index 12 of the concrete dataset, stored below [/data]. *)
Lemma idx_to_name_spec_witness :
  idx_to_name ["/"; "data"]%string 12 {| obj := demo; log := [] |}
  = (Ret ["case_00002"; "00002"]%string, {| obj := demo; log := [ImgRef 12] |}).
Proof.
  destruct (idx_to_name_spec demo_np_load demo_np_stack demo_image_to_tensor
              demo_to_numpy demo_pad_resize
              demo_fs 3 None (2, 2) None 0 None None None [1] [2] [] demo demo_init_ok
              ["/"; "data"]%string 12 []) as [H _].
  destruct H as (c & case & name & _ & _ & Hp & Hrun & _).
  { rewrite demo_len. lia. }
  assert (_imgs demo !! Z.to_nat 12
          = Some ["case_00002"; "imaging"; "00002.npy"]%string) as E
    by (vm_compute; reflexivity).
  rewrite E in Hp.
  assert (case_key case = "case_00002"%string ∧ name = "00002.npy"%string) as [Hk ->]
    by (split; congruence).
  rewrite Hrun, Hk. vm_compute. reflexivity.
Defined.

(** Index 12 of the concrete dataset is a validation index and belongs to
    case 2, the case of the validation file. *)
Lemma subset_of_index_is_subset_of_case_witness :
  12 ∈ _valid_indices demo ∧
  ∃ (c : nat) case,
    img_idx_to_case_idx 12 {| obj := demo; log := [] |}
      = (Ret (Z.of_nat c), {| obj := demo; log := [] |}) ∧
    [2] !! (c - 1)%nat = Some case.
Proof.
  assert (12 ∈ _valid_indices demo) as Hv by (vm_compute; repeat constructor).
  split; [exact Hv|].
  destruct (subset_of_index_is_subset_of_case demo_np_load demo_np_stack
              demo_image_to_tensor demo_to_numpy demo_pad_resize
              demo_fs 3 None (2, 2) None 0 None None None [1] [2] [] demo demo_init_ok
              12 [])
    as (c & case & Hrun & _ & _ & _ & _ & _ & Hval & _).
  { rewrite demo_len. lia. }
  exists c, case. split; [exact Hrun|]. exact (Hval Hv).
Defined.

(** ** Construction without slices *)

Lemma mapM_getitem_Raise {A} (l : list A) (js : list Z) (e : exn) :
  mapM (getitem l) js = Raise e → e = IndexError.
Proof.
  induction js as [|i js IH]; [done|].
  rewrite mapM_cons_outcome.
  destruct (getitem l i) as [x|e'] eqn:Ex; cbn [mbind outcome_bind];
    [|intros [= <-]; by eapply getitem_Raise].
  destruct (mapM (getitem l) js) as [k|e'']; cbn [mbind outcome_bind]; [done|].
  intros [= <-]. by apply IH.
Qed.



(** ** Class names and colours *)

Lemma getitem_three {A} (l : list A) (v : Z) :
  length l = 3%nat → -3 ≤ v < 3 →
  ∃ x, l !! class_pos v = Some x ∧ getitem l v = Ret x.
Proof.
  intros Hl Hv. unfold getitem, class_pos, len. rewrite Hl.
  change (Z.of_nat 3) with 3.
  destruct (Z.ltb_spec v 0).
  - destruct (Z.ltb_spec (v + 3) 0); [lia|].
    destruct (lookup_lt_is_Some_2 l (Z.to_nat (v + 3))) as [x Hx]; [lia|].
    exists x. by rewrite Hx.
  - destruct (Z.ltb_spec v 0); [lia|].
    destruct (lookup_lt_is_Some_2 l (Z.to_nat v)) as [x Hx]; [lia|].
    exists x. by rewrite Hx.
Qed.

Lemma getitem_three_out {A} (l : list A) (v : Z) :
  length l = 3%nat → ¬ (-3 ≤ v < 3) → getitem l v = Raise IndexError.
Proof.
  intros Hl Hv. unfold getitem, len. rewrite Hl. change (Z.of_nat 3) with 3.
  destruct (Z.ltb_spec v 0).
  - destruct (Z.ltb_spec (v + 3) 0); [done|lia].
  - destruct (Z.ltb_spec v 0); [lia|].
    rewrite lookup_ge_None_2; [done|lia].
Qed.

Lemma mapM_getitem_three `{Inhabited A} (l : list A) (sc : list Z) :
  length l = 3%nat → Forall (λ v, -3 ≤ v < 3) sc →
  mapM (getitem l) sc = Ret ((λ n, l !!! n) <$> (class_pos <$> sc)).
Proof.
  intros Hl. induction 1 as [|v sc Hv _ IH]; [done|].
  rewrite mapM_cons_outcome, IH.
  destruct (getitem_three l v Hl Hv) as (x & Hx & ->).
  cbn. by rewrite (list_lookup_total_correct _ _ _ Hx).
Qed.

Lemma mapM_getitem_three_out {A} (l : list A) (sc : list Z) :
  length l = 3%nat → ¬ Forall (λ v, -3 ≤ v < 3) sc →
  mapM (getitem l) sc = Raise IndexError.
Proof.
  intros Hl Hn.
  destruct (mapM (getitem l) sc) as [k|e] eqn:E;
    [|by rewrite (mapM_getitem_Raise _ _ _ E)].
  destruct Hn. revert k E. induction sc as [|v sc IH]; intros k E; [constructor|].
  rewrite mapM_cons_outcome in E.
  destruct (decide (-3 ≤ v < 3)) as [Hv|Hv];
    [|by rewrite (getitem_three_out l v Hl Hv) in E].
  constructor; [done|].
  destruct (getitem l v); [|done]. cbn in E.
  destruct (mapM (getitem l) sc) as [k'|]; [|done]. by eapply IH.
Qed.

Lemma class_pos_lt (v : Z) : -3 ≤ v < 3 → (class_pos v < 3)%nat.
Proof. unfold class_pos. destruct (Z.ltb_spec v 0); lia. Qed.

Lemma rows_equal_eq (i j : list Z) :
  length i = length j → rows_equal i j = bool_decide (i = j).
Proof.
  unfold rows_equal. revert j. induction i as [|x i IH]; intros [|y j] Hl; try done.
  cbn in Hl. cbn [zip zip_with forallb fst snd]. rewrite IH by lia.
  destruct (decide (x = y)) as [->|Hne].
  - rewrite bool_decide_eq_true_2 by done. cbn.
    apply bool_decide_ext. split; [by intros -> | by intros [= ->]].
  - rewrite bool_decide_eq_false_2 by done. cbn.
    symmetry. apply bool_decide_eq_false. by intros [= -> _].
Qed.

Lemma is_duplicate_contains (n : nat) (i : list Z) (acc : list (list Z)) (d : bool) :
  length i = n → Forall (λ r, length r = n) acc →
  fold_left (λ duplicate j, duplicate || rows_equal i j) acc d = d || contains i acc.
Proof.
  intros Hi Hacc. revert d. induction Hacc as [|j acc Hj _ IH]; intros d.
  - cbn. by rewrite orb_false_r.
  - cbn [fold_left]. rewrite IH, rows_equal_eq by congruence.
    unfold contains. rewrite <- orb_assoc. f_equal.
    destruct (decide (i = j)) as [->|Hne].
    + rewrite (bool_decide_eq_true_2 (j = j)) by done.
      rewrite (bool_decide_eq_true_2 (j ∈ j :: acc)) by (by left). done.
    + rewrite (bool_decide_eq_false_2 (i = j)) by done. cbn.
      apply bool_decide_ext. rewrite elem_of_cons. tauto.
Qed.

Lemma keep_row_keep (n : nat) (i : list Z) (acc : list (list Z)) :
  length i = n → Forall (λ r, length r = n) acc → keep_row acc i = keep acc i.
Proof.
  intros Hi Hacc. unfold keep_row, keep, is_duplicate.
  rewrite (is_duplicate_contains n) by done. cbn [orb].
  destruct acc as [|j acc]; [done|].
  destruct (Z.eqb_spec (len (j :: acc)) 0) as [E|_]; [unfold len in E; cbn in E; lia|].
  by destruct (contains i (j :: acc)).
Qed.

Lemma fold_keep_row_keep (n : nat) (l acc : list (list Z)) :
  Forall (λ r, length r = n) acc → Forall (λ r, length r = n) l →
  fold_left keep_row l acc = fold_left keep l acc.
Proof.
  intros Hacc Hl. revert acc Hacc. induction Hl as [|i l Hi _ IH]; intros acc Hacc; [done|].
  cbn [fold_left]. rewrite (keep_row_keep n) by done. apply IH.
  unfold keep. destruct (contains i acc); [done|].
  apply Forall_app. split; [done|]. by constructor.
Qed.

(** Both tables read through the positions the class indices select. *)
Lemma picked_distinct `{EqDecision A, Inhabited A} (l : list A) (sc : list Z) :
  length l = 3%nat → NoDup l → Forall (λ v, -3 ≤ v < 3) sc →
  fold_left keep ((λ n, l !!! n) <$> (class_pos <$> sc)) []
  = (λ n, l !!! n) <$> distinct_in_order (class_pos <$> sc).
Proof.
  intros Hl Hnd Hsc. unfold distinct_in_order. fold (@keep nat _).
  change (@nil A) with ((λ n, l !!! n) <$> @nil nat).
  apply distinct_fold_fmap.
  intros x y Hx Hy Hxy. rewrite app_nil_l in Hx, Hy.
  assert (∀ n, n ∈ class_pos <$> sc → (n < 3)%nat) as Hlt.
  { intros n (v & -> & Hv)%list_elem_of_fmap. apply class_pos_lt.
    rewrite Forall_forall in Hsc. by apply Hsc. }
  destruct (lookup_lt_is_Some_2 l x) as [a Ha]; [rewrite Hl; by apply Hlt|].
  destruct (lookup_lt_is_Some_2 l y) as [b Hb]; [rewrite Hl; by apply Hlt|].
  rewrite (list_lookup_total_correct _ _ _ Ha), (list_lookup_total_correct _ _ _ Hb) in Hxy.
  subst b. by eapply NoDup_lookup.
Qed.

Lemma classes_name_NoDup : NoDup classes_name.
Proof. compute_done. Qed.

Lemma cmap_NoDup : NoDup cmap.
Proof. compute_done. Qed.

Lemma get_classes_name_positions (sc : list Z) :
  Forall (λ v, -3 ≤ v < 3) sc →
  get_classes_name sc true
  = Ret ((λ n, classes_name !!! n) <$> distinct_in_order (class_pos <$> sc)).
Proof.
  intros Hsc. unfold get_classes_name. cbn [negb].
  rewrite mapM_getitem_three by done. cbn [mbind outcome_bind]. f_equal.
  unfold distinct_in_order at 1. fold (@keep string _).
  by apply picked_distinct; [|apply classes_name_NoDup|].
Qed.

Lemma get_colormap_positions (sc : list Z) :
  Forall (λ v, -3 ≤ v < 3) sc →
  get_colormap sc true
  = Ret ((λ n, cmap !!! n) <$> distinct_in_order (class_pos <$> sc)).
Proof.
  intros Hsc. unfold get_colormap. cbn [negb].
  rewrite mapM_getitem_three by done. cbn [mbind outcome_bind]. f_equal.
  rewrite (fold_keep_row_keep 3); [|constructor|].
  - by apply picked_distinct; [|apply cmap_NoDup|].
  - apply Forall_fmap, Forall_fmap, Forall_forall. intros v Hv. cbn.
    rewrite Forall_forall in Hsc. pose proof (class_pos_lt v (Hsc v Hv)) as Hlt.
    destruct (class_pos v) as [|[|[|n]]]; [done..|lia].
Qed.

(** [get_classes_name(spec=True)] returns exactly when every entry of
    [spec_classes] is a valid index of the three-element name array,
    negative indices included, and raises [IndexError] otherwise; the
    names it returns are pairwise different and are those the entries
    select. *)
Theorem get_classes_name_spec (sc : list Z) :
  (Forall (λ v, -3 ≤ v < 3) sc →
   ∃ names,
     get_classes_name sc true = Ret names ∧ NoDup names ∧
     ∀ name, name ∈ names ↔ ∃ v, v ∈ sc ∧ getitem classes_name v = Ret name) ∧
  (¬ Forall (λ v, -3 ≤ v < 3) sc → get_classes_name sc true = Raise IndexError).
Proof.
  split.
  - intros Hsc. rewrite get_classes_name_positions by done.
    eexists. split; [done|]. split.
    + apply NoDup_fmap_2_strong; [|apply distinct_in_order_NoDup].
      intros x y Hx Hy Hxy.
      apply (proj1 (distinct_in_order_elem _ _)) in Hx, Hy.
      assert (∀ n, n ∈ class_pos <$> sc → (n < 3)%nat) as Hlt.
      { intros n (v & -> & Hv)%list_elem_of_fmap. apply class_pos_lt.
        rewrite Forall_forall in Hsc. by apply Hsc. }
      pose proof (Hlt _ Hx). pose proof (Hlt _ Hy).
      destruct x as [|[|[|x]]], y as [|[|[|y]]]; try lia; try done.
    + intros name. rewrite list_elem_of_fmap. split.
      * intros (n & -> & Hn). apply (proj1 (distinct_in_order_elem _ _)) in Hn.
        apply list_elem_of_fmap in Hn as (v & -> & Hv).
        exists v. split; [done|]. rewrite Forall_forall in Hsc.
        destruct (getitem_three classes_name v eq_refl (Hsc v Hv)) as (x & Hx & ->).
        by rewrite (list_lookup_total_correct _ _ _ Hx).
      * intros (v & Hv & Hg). rewrite Forall_forall in Hsc.
        destruct (getitem_three classes_name v eq_refl (Hsc v Hv)) as (x & Hx & Hg').
        exists (class_pos v). split.
        -- rewrite (list_lookup_total_correct _ _ _ Hx). congruence.
        -- apply (proj2 (distinct_in_order_elem _ _)), list_elem_of_fmap. eauto.
  - intros Hn. unfold get_classes_name. cbn [negb].
    by rewrite mapM_getitem_three_out.
Qed.

(** [[0, 1, 1]] merges tumor into kidney; 3 is no class index. *)
Lemma get_classes_name_spec_witness :
  (∃ names, get_classes_name [0; 1; 1] true = Ret names ∧ NoDup names) ∧
  get_classes_name [0; 3; 1] true = Raise IndexError.
Proof.
  destruct (get_classes_name_spec [0; 1; 1]) as [Hok _].
  destruct (get_classes_name_spec [0; 3; 1]) as [_ Hbad].
  split.
  - destruct Hok as (names & Hrun & Hnd & _); [repeat constructor; lia|].
    by exists names.
  - apply Hbad. intros H. inversion H as [|? ? _ H']. inversion H' as [|? ? Hv _]. lia.
Defined.

(** The colour map lines up with the class names: [get_colormap] returns
    exactly when [get_classes_name] does, with as many rows as there are
    names, and row [k] is the colour of the class whose name is at
    position [k]. *)
Theorem colormap_matches_names (sc : list Z) :
  (is_Ret (get_colormap sc true) ↔ is_Ret (get_classes_name sc true)) ∧
  ∀ names rows,
    get_classes_name sc true = Ret names → get_colormap sc true = Ret rows →
    length rows = length names ∧
    ∀ (k : nat) name, names !! k = Some name →
      ∃ v : nat, classes_name !! v = Some name ∧ rows !! k = cmap !! v.
Proof.
  destruct (decide (Forall (λ v, -3 ≤ v < 3) sc)) as [Hsc|Hn].
  - rewrite get_classes_name_positions, get_colormap_positions by done.
    split; [split; intros _; by eexists|].
    intros names rows [= <-] [= <-]. rewrite !length_fmap. split; [done|].
    intros k name Hk. rewrite list_lookup_fmap in Hk.
    destruct (distinct_in_order (class_pos <$> sc) !! k) as [n|] eqn:En; [|done].
    injection Hk as <-.
    assert (n < 3)%nat as Hlt.
    { apply list_elem_of_lookup_2 in En. apply (proj1 (distinct_in_order_elem _ _)) in En.
      apply list_elem_of_fmap in En as (v & -> & Hv). apply class_pos_lt.
      rewrite Forall_forall in Hsc. by apply Hsc. }
    exists n. rewrite list_lookup_fmap, En.
    destruct n as [|[|[|n]]]; [done..|lia].
  - assert (get_classes_name sc true = Raise IndexError) as ->.
    { unfold get_classes_name. cbn [negb]. by rewrite mapM_getitem_three_out. }
    assert (get_colormap sc true = Raise IndexError) as ->.
    { unfold get_colormap. cbn [negb]. by rewrite mapM_getitem_three_out. }
    split; [split; intros [? ?]; done|]. done.
Qed.

(** [[0, 1, 1]]: two names and two rows, black and red. *)
Lemma colormap_matches_names_witness :
  get_classes_name [0; 1; 1] true = Ret ["background"; "kidney"]%string ∧
  get_colormap [0; 1; 1] true = Ret [[0; 0; 0]; [255; 0; 0]] ∧
  ∃ v : nat, classes_name !! v = Some "kidney"%string ∧
             [[0; 0; 0]; [255; 0; 0]] !! 1%nat = cmap !! v.
Proof.
  split; [vm_compute; reflexivity|]. split; [vm_compute; reflexivity|].
  destruct (colormap_matches_names [0; 1; 1]) as [_ H].
  destruct (H ["background"; "kidney"]%string [[0; 0; 0]; [255; 0; 0]]) as [_ Hk].
  - vm_compute. reflexivity.
  - vm_compute. reflexivity.
  - apply (Hk 1%nat). reflexivity.
Defined.

(** ** Case keys *)

Lemma digit_of_pretty_N_char (d : N) : (d < 10)%N → digit_of (pretty_N_char d) = d.
Proof.
  intros Hd.
  assert (d = 0 ∨ d = 1 ∨ d = 2 ∨ d = 3 ∨ d = 4 ∨ d = 5 ∨ d = 6 ∨ d = 7
          ∨ d = 8 ∨ d = 9)%N as H by lia.
  repeat (destruct H as [->|H]; [reflexivity|]). by subst.
Qed.

Lemma digits_value_pretty_N_go (x : N) (s : string) :
  digits_value (pretty_N_go x s)
  = (x * 10 ^ N.of_nat (String.length s) + digits_value s)%N.
Proof.
  revert s. induction (N.lt_wf_0 x) as [x _ IH]; intros s.
  assert (x = 0 ∨ 0 < x)%N as [->|Hx] by lia.
  - rewrite pretty_N_go_0. lia.
  - rewrite pretty_N_go_step by done. rewrite IH by (by apply N.div_lt).
    cbn [digits_value String.length].
    rewrite digit_of_pretty_N_char by (by apply N.mod_lt).
    rewrite Nat2N.inj_succ, N.pow_succ_r'.
    pose proof (N.div_mod x 10 ltac:(done)) as Hdm.
    set (p := (10 ^ N.of_nat (String.length s))%N) in *.
    rewrite Hdm at 3. lia.
Qed.

Lemma digits_value_pretty (z : Z) : 0 ≤ z → digits_value (pretty z) = Z.to_N z.
Proof.
  intros Hz. destruct z as [|p|p]; [done| |lia].
  change (pretty (Z.pos p)) with (pretty_N_go (N.pos p) "").
  rewrite digits_value_pretty_N_go. cbn. lia.
Qed.

Lemma zeros_cons (k : nat) :
  String.concat "" (replicate (S k) "0"%string)
  = String.app "0" (String.concat "" (replicate k "0"%string)).
Proof. destruct k; reflexivity. Qed.

Lemma digits_value_zfill (w : nat) (s : string) :
  digits_value (zfill w s) = digits_value s.
Proof.
  unfold zfill. induction (w - String.length s)%nat as [|k IH]; [done|].
  rewrite zeros_cons.
  change (digits_value (String.app (String.app "0" ?x) s))
    with (digit_of (pretty_N_char 0)
          * 10 ^ N.of_nat (String.length (String.app x s))
          + digits_value (String.app x s))%N.
  rewrite IH. rewrite digit_of_pretty_N_char by lia. lia.
Qed.

Lemma pretty_nonneg_no_dash (z : Z) (s : string) : 0 ≤ z → pretty z ≠ String.app "-" s.
Proof.
  intros Hz. destruct z as [|p|p]; [done| |lia].
  change (pretty (Z.pos p)) with (pretty_N_go (N.pos p) "").
  apply (pretty_N_go_ne_dash (N.pos p) "" s). done.
Qed.

Lemma zfill_nonneg_no_dash (w : nat) (z : Z) (s : string) :
  0 ≤ z → zfill w (pretty z) ≠ String.app "-" s.
Proof.
  intros Hz. unfold zfill. destruct (w - String.length (pretty z))%nat as [|k].
  - cbn. by apply pretty_nonneg_no_dash.
  - rewrite zeros_cons. cbn. discriminate.
Qed.

Lemma app_dash_inj (x y : string) : String.app "-" x = String.app "-" y → x = y.
Proof. cbv [String.append]. congruence. Qed.

Lemma format_05d_inj (a b : Z) : format_05d a = format_05d b → a = b.
Proof.
  unfold format_05d.
  destruct (Z.ltb_spec a 0) as [Ha|Ha], (Z.ltb_spec b 0) as [Hb|Hb]; intros H.
  - apply app_dash_inj in H. apply (f_equal digits_value) in H.
    rewrite !digits_value_zfill, !digits_value_pretty in H by lia. lia.
  - symmetry in H. by apply zfill_nonneg_no_dash in H.
  - by apply zfill_nonneg_no_dash in H.
  - apply (f_equal digits_value) in H.
    rewrite !digits_value_zfill, !digits_value_pretty in H by lia. lia.
Qed.

(** Different case ids have different keys, so two cases never share a
    directory or an entry of the ROI file; this holds for every integer,
    also for ids of more than five digits and for negative ones. *)
Theorem case_key_distinct (a b : Z) : a ≠ b → case_key a ≠ case_key b.
Proof.
  intros Hab H. apply Hab. apply format_05d_inj.
  unfold case_key in H. revert H.
  generalize (format_05d a) (format_05d b). intros x y. cbv [String.append]. congruence.
Qed.

(** Ids 1, 10 and 100000; the last one is printed with six digits. *)
Lemma case_key_distinct_witness :
  case_key 1 ≠ case_key 10 ∧ case_key 100000 = "case_100000"%string.
Proof.
  split; [|vm_compute; reflexivity].
  apply (case_key_distinct 1 10). lia.
Defined.

(** ** The order of the slices of a case *)

Lemma N_compare_trans (a b c : N) (r : comparison) :
  (a ?= b)%N = r → (b ?= c)%N = r → (a ?= c)%N = r.
Proof.
  destruct r; rewrite ?N.compare_eq_iff, ?N.compare_lt_iff, ?N.compare_gt_iff; lia.
Qed.

Lemma N_compare_Eq_l (a b c : N) : (a ?= b)%N = Eq → (a ?= c)%N = (b ?= c)%N.
Proof. by intros ->%N.compare_eq_iff. Qed.

Lemma N_compare_Eq_r (a b c : N) : (b ?= c)%N = Eq → (a ?= c)%N = (a ?= b)%N.
Proof. by intros ->%N.compare_eq_iff. Qed.

Lemma string_compare_refl (s : string) : String.compare s s = Eq.
Proof.
  induction s as [|a s IH]; [done|]. cbn [String.compare].
  unfold Ascii.compare. by rewrite N.compare_refl.
Qed.

Lemma string_compare_Lt_trans (x y z : string) :
  String.compare x y = Lt → String.compare y z = Lt → String.compare x z = Lt.
Proof.
  revert y z. induction x as [|a x IH]; intros [|b y] [|c z]; cbn [String.compare];
    try done.
  unfold Ascii.compare.
  destruct (N.compare (Ascii.N_of_ascii a) (Ascii.N_of_ascii b)) eqn:Eab;
    destruct (N.compare (Ascii.N_of_ascii b) (Ascii.N_of_ascii c)) eqn:Ebc;
    try done.
  - rewrite (N_compare_trans _ _ _ _ Eab Ebc). apply IH.
  - rewrite (N_compare_Eq_l _ _ _ Eab), Ebc. done.
  - rewrite (N_compare_Eq_r _ _ _ Ebc), Eab. done.
  - rewrite (N_compare_trans _ _ _ _ Eab Ebc). done.
Qed.

Lemma path_compare_refl (p : path) : path_compare p p = Eq.
Proof.
  induction p as [|a p IH]; [done|]. cbn [path_compare].
  by rewrite string_compare_refl.
Qed.

Lemma path_compare_eq (p q : path) : path_compare p q = Eq → p = q.
Proof.
  revert q. induction p as [|a p IH]; intros [|b q]; cbn [path_compare]; try done.
  destruct (String.compare a b) eqn:E; try done.
  intros H. apply String.compare_eq_iff in E as ->. by rewrite (IH _ H).
Qed.

Lemma path_compare_antisym (p q : path) :
  path_compare p q = CompOpp (path_compare q p).
Proof.
  revert q. induction p as [|a p IH]; intros [|b q]; cbn [path_compare]; try done.
  rewrite (String.compare_antisym a b).
  destruct (String.compare b a); cbn [CompOpp]; [apply IH|done|done].
Qed.

Lemma path_compare_Lt_trans (p q r : path) :
  path_compare p q = Lt → path_compare q r = Lt → path_compare p r = Lt.
Proof.
  revert q r. induction p as [|a p IH]; intros [|b q] [|c r]; cbn [path_compare];
    try done.
  destruct (String.compare a b) eqn:Eab; destruct (String.compare b c) eqn:Ebc;
    try done.
  - apply String.compare_eq_iff in Eab as ->, Ebc as ->.
    rewrite string_compare_refl. apply IH.
  - apply String.compare_eq_iff in Eab as ->. by rewrite Ebc.
  - apply String.compare_eq_iff in Ebc as ->. by rewrite Eab.
  - by rewrite (string_compare_Lt_trans _ _ _ Eab Ebc).
Qed.

#[global] Instance path_le_total : Total path_le.
Proof.
  intros p q. unfold path_le. rewrite (path_compare_antisym q p).
  destruct (path_compare p q); cbn; [by left|by left|by right].
Qed.

#[global] Instance path_le_trans : Transitive path_le.
Proof.
  intros p q r. unfold path_le. intros Hpq Hqr.
  destruct (path_compare p q) eqn:Epq; [|clear Hpq|done].
  - by apply path_compare_eq in Epq as ->.
  - destruct (path_compare q r) eqn:Eqr; [|clear Hqr|done].
    + apply path_compare_eq in Eqr as <-. by rewrite Epq.
    + by rewrite (path_compare_Lt_trans _ _ _ Epq Eqr).
Qed.

#[global] Instance path_le_antisym : AntiSymm (=) path_le.
Proof.
  intros p q. unfold path_le. rewrite (path_compare_antisym q p).
  destruct (path_compare p q) eqn:E; cbn; [|done..].
  intros _ _. by apply path_compare_eq.
Qed.

Lemma sorted_Permutation (ps qs : list path) : ps ≡ₚ qs → sorted ps = sorted qs.
Proof.
  intros H. unfold sorted. apply (Sorted_unique path_le).
  - apply Sorted_merge_sort, _.
  - apply Sorted_merge_sort, _.
  - by rewrite !merge_sort_Permutation.
Qed.

Lemma for_fold_ext {A B} (f g : A → B → outcome A) (acc : A) (l : list B) :
  (∀ a x, f a x = g a x) → for_fold f acc l = for_fold g acc l.
Proof.
  intros H. revert acc. induction l as [|x l IH]; intros acc; [done|].
  cbn [for_fold]. rewrite H. destruct (g acc x); cbn; [apply IH|done].
Qed.

Lemma read_npy_listing_order (fs fs' : filesystem) rois e cases is_test :
  (∀ d, fs_npy_entries fs d ≡ₚ fs_npy_entries fs' d) →
  (∀ p, fs_exists fs p = fs_exists fs' p) →
  _read_npy rois e fs cases is_test = _read_npy rois e fs' cases is_test.
Proof.
  intros Hperm Hex. unfold _read_npy. apply for_fold_ext.
  intros [[imgs labels] nums] case. unfold _read_npy_case.
  assert (∀ d, sorted (glob_npy fs d) = sorted (glob_npy fs' d)) as Hs.
  { intros d. apply sorted_Permutation. unfold glob_npy. by apply fmap_Permutation. }
  by rewrite !Hs, !Hex.
Qed.

(** The catalogue does not depend on the order in which the operating
    system lists a directory: each directory listing is sorted, and two
    file systems that list the same entries in different orders give the
    same result of [_read_npy] and of the constructor. *)
Theorem listing_order_irrelevant
    (np_load : path → outcome ndarray)
    (np_stack_axis2 : list ndarray → outcome ndarray)
    (image_to_tensor : ndarray → outcome ndarray)
    (to_numpy : sample → outcome sample)
    (pad_resize : Z → Z * Z → value → value → outcome sample)
    (fs fs' : filesystem) (stack_num : Z) (spec : option (list Z))
    (img_size : Z * Z) (rois : option roi_table) (roi_error_range : Z)
    (train_transform valid_transform test_transform : option (sample → outcome sample))
    (train_case valid_case test_case : list Z) :
  (∀ d, fs_npy_entries fs d ≡ₚ fs_npy_entries fs' d) →
  (∀ p, fs_exists fs p = fs_exists fs' p) →
  (∀ case d, Sorted path_le (listing fs case d) ∧
             listing fs case d ≡ₚ glob_npy fs [case_key case; d]) ∧
  (∀ cases is_test,
     _read_npy rois roi_error_range fs cases is_test
     = _read_npy rois roi_error_range fs' cases is_test) ∧
  __init__ np_load np_stack_axis2 image_to_tensor to_numpy pad_resize
           fs stack_num spec img_size rois roi_error_range
           train_transform valid_transform test_transform
           train_case valid_case test_case
  = __init__ np_load np_stack_axis2 image_to_tensor to_numpy pad_resize
             fs' stack_num spec img_size rois roi_error_range
             train_transform valid_transform test_transform
             train_case valid_case test_case.
Proof.
  intros Hperm Hex. split.
  { intros case d. unfold listing, sorted. split.
    - apply Sorted_merge_sort, _.
    - apply merge_sort_Permutation. }
  split; [intros cases is_test; by apply read_npy_listing_order|].
  unfold __init__, _get_data. cbn [_rois _roi_error_range].
  destruct (match spec with Some _ => _ | None => _ end) as [sp|]; [|done].
  cbn [mbind outcome_bind].
  by rewrite !(read_npy_listing_order fs fs').
Qed.

(** The concrete file system lists its directories in descending order;
    listed in ascending order it gives the same dataset. *)
Lemma listing_order_irrelevant_witness :
  fs_npy_entries demo_fs ["case_00002"; "imaging"]%string
    ≠ fs_npy_entries demo_fs_ascending ["case_00002"; "imaging"]%string ∧
  __init__ demo_np_load demo_np_stack demo_image_to_tensor demo_to_numpy demo_pad_resize
           demo_fs_ascending 3 None (2, 2) None 0 None None None [1] [2] [] = Ret demo.
Proof.
  split; [vm_compute; discriminate|].
  destruct (listing_order_irrelevant demo_np_load demo_np_stack demo_image_to_tensor
              demo_to_numpy demo_pad_resize demo_fs demo_fs_ascending
              3 None (2, 2) None 0 None None None [1] [2] []) as (_ & _ & H).
  - intros d. cbn [fs_npy_entries demo_fs_ascending]. symmetry. apply reverse_Permutation.
  - intros p. reflexivity.
  - rewrite <- H. exact demo_init_ok.
Defined.

(** ** The label remapping on arbitrary class lists *)

Lemma remap_fold_total (D : list Z) (pairs : list (list nat * Z)) (label : list Z) :
  Forall (λ p, p.2 ∈ D) pairs →
  ∃ out,
    for_fold (λ label '(mask, spec_class),
                v ← index D spec_class; Ret (assign_mask label mask v))
             label pairs = Ret out ∧
    length out = length label ∧
    ∀ k : nat, Forall (λ p, k ∉ p.1) pairs → out !! k = label !! k.
Proof.
  intros H. revert label. induction H as [|[mask sc] pairs Hin _ IH]; intros label.
  - exists label. by split.
  - cbn [for_fold]. cbn in Hin.
    destruct (index_elem D sc Hin) as (v & -> & _). cbn [mbind outcome_bind].
    destruct (IH (assign_mask label mask v)) as (out & -> & Hlen & Hkeep).
    exists out. split; [done|]. split; [by rewrite Hlen, assign_mask_length|].
    intros k Hk. apply Forall_cons in Hk as [Hk1 Hk]. cbn in Hk1.
    rewrite Hkeep by done. rewrite assign_mask_lookup.
    destruct (label !! k); cbn; [|done]. by rewrite decide_False.
Qed.

(** The label remapping never raises, whatever the list of classes (of
    any length, with any values); it keeps the number of pixels and leaves
    every pixel that is not 0, 1 or 2 as it is. *)
Theorem remap_label_total (spec_classes label : list Z) :
  ∃ out,
    remap_label spec_classes label = Ret out ∧
    length out = length label ∧
    ∀ (k : nat) x, label !! k = Some x → ¬ 0 ≤ x ≤ 2 → out !! k = Some x.
Proof.
  unfold remap_label. case_bool_decide as Hne; [|by exists label].
  cbn [get_classes_name negb mbind outcome_bind].
  set (masks := np_where_eq label <$> range 0 (len classes_name)).
  destruct (remap_fold_total (distinct_in_order spec_classes) (zip masks spec_classes) label)
    as (out & Hrun & Hlen & Hkeep).
  { apply Forall_forall. intros [mask sc] Hin. cbn.
    apply (proj2 (distinct_in_order_elem _ _)).
    apply elem_of_zip_r in Hin. done. }
  exists out. split; [done|]. split; [done|].
  intros k x Hx Hout. rewrite Hkeep; [done|].
  apply Forall_forall. intros [mask sc] Hin. cbn.
  apply elem_of_zip_l in Hin. unfold masks in Hin.
  apply list_elem_of_fmap in Hin as (i & -> & Hi).
  apply elem_of_seqZ in Hi. change (len classes_name) with 3 in Hi.
  rewrite elem_of_np_where_eq, Hx. intros [= ->]. lia.
Qed.
